(** * Lead qualification bot: conversation state machine and lead scorer

    A shallow embedding of the decision logic of [src/index.js]: the phone
    normalizer, the qualification script, the answer and scheduling
    classifiers, the lead scorer and the conversation state machine
    [getNextStep] with the store writes it issues.

    - A JavaScript value is a [jsval]; a property that is absent from an
      object ([undefined]) is the [None] of a map lookup.
    - A lead is a JavaScript object: a finite map from property names to
      values, as the code reads and writes it ([lead[field]], spread,
      partial update objects).
    - A string is a sequence of 8-bit code units, read as the code points
      U+0000 to U+00FF.  [toLowerCase] and [trim] are the ECMAScript
      functions on that range.  The emoji of the reply literals lie outside
      it; they are spelled with their UTF-8 bytes and no function below
      inspects them.
    - A number is an integer below 10^21 in absolute value, which
      JavaScript prints digit by digit; the code counts with numbers and
      computes no other.
    - Code that fails returns a [result]: [TypeError] where JavaScript
      raises one, [Stuck] where the code would coerce a string to a number.
      That coercion is not modelled: [Stuck] marks a run that has left the
      model, and nothing is stated about such a run.  The code never writes
      a text where it reads a number.
    - Asynchronous code that talks to the store is a state monad over
      [World].  The requests to the store are answered there; module
      [Outage] embeds the same functions with the outcome of each request as
      an input, and with the [catch] clauses that a request without answer
      leads to. *)

From Stdlib Require Import ZArith Ascii String List Lia.
From stdpp Require Import gmap strings list fin_maps pretty.

Open Scope string_scope.
Open Scope Z_scope.

(** ** Strings *)

Module Text.

Definition code (c : ascii) : N := N_of_ascii c.

(** [\d]: the ten ASCII digits. *)
Definition isDigit (c : ascii) : bool :=
  ((48 <=? code c) && (code c <=? 57))%N.

(** White space and line terminators below U+0100: TAB, LF, VT, FF, CR,
    SPACE and NO-BREAK SPACE. *)
Definition isWhiteSpace (c : ascii) : bool :=
  ((9 <=? code c) && (code c <=? 13) || (code c =? 32) || (code c =? 160))%N.

(** Letters with a lower-case form below U+0100: A-Z, and U+00C0-U+00DE
    without the multiplication sign U+00D7. *)
Definition isUpper (c : ascii) : bool :=
  ((65 <=? code c) && (code c <=? 90)
   || (192 <=? code c) && (code c <=? 222) && negb (code c =? 215))%N.

Definition lowerChar (c : ascii) : ascii :=
  if isUpper c then ascii_of_N (code c + 32) else c.

Fixpoint toLowerCase (s : string) : string :=
  match s with
  | EmptyString => EmptyString
  | String c s' => String (lowerChar c) (toLowerCase s')
  end.

Fixpoint trimStart (s : string) : string :=
  match s with
  | EmptyString => EmptyString
  | String c s' => if isWhiteSpace c then trimStart s' else s
  end.

Fixpoint trimEnd (s : string) : string :=
  match s with
  | EmptyString => EmptyString
  | String c s' =>
      match trimEnd s' with
      | EmptyString => if isWhiteSpace c then EmptyString else String c EmptyString
      | t => String c t
      end
  end.

Definition trim (s : string) : string := trimEnd (trimStart s).

Fixpoint startsWith (s p : string) {struct p} : bool :=
  match p, s with
  | EmptyString, _ => true
  | String _ _, EmptyString => false
  | String a p', String b s' => if Ascii.eqb a b then startsWith s' p' else false
  end.

(** [s.includes(p)]: [p] occurs in [s] at some position. *)
Fixpoint includes (s p : string) : bool :=
  startsWith s p
  || match s with
     | EmptyString => false
     | String _ s' => includes s' p
     end.

(** [s.replace(/\D/g, '')]. *)
Fixpoint replaceNonDigits (s : string) : string :=
  match s with
  | EmptyString => EmptyString
  | String c s' =>
      if isDigit c then String c (replaceNonDigits s') else replaceNonDigits s'
  end.

(** Plain-words reading of "the digit-only substring": the digits of the
    text, in their order. *)
Definition digitsOf (s : string) : string :=
  string_of_list_ascii (List.filter isDigit (list_ascii_of_string s)).

(** Plain-words reading of "contains case-insensitively": some stretch of
    the text spells the phrase when letter case is ignored. *)
Definition containsIgnoringCase (s p : string) : Prop :=
  exists before mid after : string,
    s = before ++ mid ++ after /\ toLowerCase mid = toLowerCase p.

End Text.

Import Text.

(** ** JavaScript values and results *)

Inductive jsval : Type :=
  | JNull
  | JBool (b : bool)
  | JNum (n : Z)
  | JStr (s : string).

#[global] Instance jsval_eq_dec : EqDecision jsval.
Proof. solve_decision. Defined.

Inductive result (A : Type) : Type :=
  | Ok (a : A)
  | TypeError
  | Stuck.

Arguments Ok {A} a.
Arguments TypeError {A}.
Arguments Stuck {A}.

#[global] Instance result_ret : MRet result := fun _ a => Ok a.
#[global] Instance result_bind : MBind result := fun _ _ f m =>
  match m with
  | Ok a => f a
  | TypeError => TypeError
  | Stuck => Stuck
  end.

(** [!!v] is false for [undefined], [null], [false], [0] and [''] *)
Definition truthy (v : option jsval) : bool :=
  match v with
  | None | Some JNull => false
  | Some (JBool b) => b
  | Some (JNum n) => negb (n =? 0)
  | Some (JStr s) => negb (String.eqb s "")
  end.

(** [v || d] *)
Definition js_or (v : option jsval) (d : jsval) : jsval :=
  match v with
  | Some x => if truthy v then x else d
  | None => d
  end.

(** The receiver of a string method ([trim], [toLowerCase], [includes],
    [replace]): any other value has no such method. *)
Definition asString (v : option jsval) : result string :=
  match v with
  | Some (JStr s) => Ok s
  | _ => TypeError
  end.

(** [v.toString()] of a value that is not [null]; [String(v)] in general. *)
Definition toString (v : jsval) : string :=
  match v with
  | JNull => "null"
  | JBool true => "true"
  | JBool false => "false"
  | JNum n => pretty n
  | JStr s => s
  end.

(** A value spliced into a template literal. *)
Definition interpolate (v : option jsval) : string :=
  match v with
  | None => "undefined"
  | Some x => toString x
  end.

(** The number a value is coerced to by [<], [>=] and [+ 1].  JavaScript
    coerces a text as well, and [+ 1] appends to it; that is left out. *)
Definition toNumber (v : jsval) : result Z :=
  match v with
  | JNull => Ok 0
  | JBool b => Ok (if b then 1 else 0)
  | JNum n => Ok n
  | JStr _ => Stuck
  end.

(** [arr[v]] followed by a property read: an index outside the array gives
    [undefined], whose property read raises. *)
Definition elementAt {A : Type} (arr : list A) (v : jsval) : result A :=
  match v with
  | JNum n =>
      if 0 <=? n then
        match nth_error arr (Z.to_nat n) with
        | Some a => Ok a
        | None => TypeError
        end
      else TypeError
  | JStr _ => Stuck
  | _ => TypeError
  end.

(** A column that holds text or nothing: a string, [null], or no value. *)
Definition holdsText (v : option jsval) : bool :=
  match v with
  | None | Some JNull | Some (JStr _) => true
  | Some (JBool _) | Some (JNum _) => false
  end.

(** ** Constants *)

Record Question : Type := { field : string; question : string }.

Definition QUALIFICATION_QUESTIONS : list Question :=
  [ {| field := "location"; question := "What area or city are you looking in?" |};
    {| field := "home_type"; question := "What type of home are you looking for? (house, condo, apartment, etc.)" |};
    {| field := "bedrooms"; question := "How many bedrooms do you need?" |};
    {| field := "budget"; question := "What's your budget or price range?" |};
    {| field := "timeline"; question := "When are you looking to move?" |};
    {| field := "preapproval"; question := "Are you pre-approved for a mortgage or planning to pay cash?" |};
    {| field := "motivation"; question := "What's motivating your move? (new job, bigger space, investment, etc.)" |} ].

(** ** Helper functions *)

Definition normalizePhone (phone : option jsval) : result string :=
  if negb (truthy phone) then Ok ""
  else
    phone ← asString phone;
    let digits := replaceNonDigits phone in
    if includes phone "whatsapp:+" then Ok digits
    else Ok digits.

Definition fields : list string :=
  ["location"; "budget"; "timeline"; "home_type"; "bedrooms"; "preapproval"; "motivation"].

(** The predicate of the [fields.filter] call:
    [value && value !== 'unknown' && value.toString().trim() !== '']. *)
Definition isFilled (value : option jsval) : bool :=
  match value with
  | Some x =>
      truthy value
      && bool_decide (x <> JStr "unknown")
      && negb (String.eqb (trim (toString x)) "")
  | None => false
  end.

Definition filledCount (lead : gmap string jsval) : nat :=
  length (List.filter (fun field => isFilled (lead !! field)) fields).

Definition isUrgent (lead : gmap string jsval) : result bool :=
  timeline ← asString (Some (js_or (lead !! "timeline") (JStr "")));
  let timeline := toLowerCase timeline in
  Ok (includes timeline "asap"
      || includes timeline "soon"
      || includes timeline "immediately"
      || includes timeline "next month"
      || includes timeline "30 day"
      || includes timeline "2 week"
      || includes timeline "urgent").

(** [lead.budget && !lead.budget.includes('unknown') &&
    !lead.budget.includes('not sure')], as the condition reads it. *)
Definition hasStrongBudget (lead : gmap string jsval) : result bool :=
  if truthy (lead !! "budget") then
    budget ← asString (lead !! "budget");
    Ok (negb (includes budget "unknown") && negb (includes budget "not sure"))
  else Ok false.

Definition calculateLeadScore (lead : gmap string jsval) : result string :=
  let filledCount := filledCount lead in
  isUrgent ← isUrgent lead;
  hasStrongBudget ← hasStrongBudget lead;
  if (5 <=? filledCount)%nat && isUrgent && hasStrongBudget then Ok "hot"
  else if (4 <=? filledCount)%nat then Ok "warm"
  else Ok "cold".

(** The scorer as the specification words it (4.4), to set against
    [calculateLeadScore]: "count fields whose value is non-empty and not the
    unknown sentinel"; "lower-case the timeline field and test for urgency
    keywords (asap, soon, immediately, next month, 30 day, 2 week, urgent)";
    "budget field present and not equal to/containing the unknown sentinel
    (and, in the stricter variant, not containing not sure)".  A field that
    holds no text is read as empty, and so is a text of white space only. *)
Module Table.

(** [p] occurs in [s]. *)
Definition occurs (p s : string) : Prop :=
  exists before after : string, s = before ++ p ++ after.

Definition textOf (v : option jsval) : string :=
  match v with
  | Some (JStr s) => s
  | _ => ""
  end.

Definition counted (v : option jsval) : nat :=
  if String.eqb (trim (textOf v)) "" then 0
  else if String.eqb (textOf v) "unknown" then 0
  else 1.

Definition filledCount (lead : gmap string jsval) : nat :=
  counted (lead !! "location") + counted (lead !! "home_type")
  + counted (lead !! "bedrooms") + counted (lead !! "budget")
  + counted (lead !! "timeline") + counted (lead !! "preapproval")
  + counted (lead !! "motivation").

Definition urgencyKeywords : list string :=
  ["asap"; "soon"; "immediately"; "next month"; "30 day"; "2 week"; "urgent"].

Definition isUrgent (lead : gmap string jsval) : Prop :=
  exists keyword,
    In keyword urgencyKeywords
    /\ occurs keyword (toLowerCase (textOf (lead !! "timeline"))).

Definition hasStrongBudget (lead : gmap string jsval) : Prop :=
  textOf (lead !! "budget") <> ""
  /\ ~ occurs "unknown" (textOf (lead !! "budget"))
  /\ ~ occurs "not sure" (textOf (lead !! "budget")).

(** "Decision table, evaluated top-down, first match wins". *)
Inductive tier (lead : gmap string jsval) : string -> Prop :=
  | hot :
      (5 <= filledCount lead)%nat -> isUrgent lead -> hasStrongBudget lead ->
      tier lead "hot"
  | warm :
      ~ ((5 <= filledCount lead)%nat /\ isUrgent lead /\ hasStrongBudget lead) ->
      (4 <= filledCount lead)%nat ->
      tier lead "warm"
  | cold :
      (filledCount lead < 4)%nat ->
      tier lead "cold".

End Table.

Definition positiveWords : list string :=
  ["yes"; "yeah"; "yep"; "sure"; "ok"; "okay";
   "sounds good"; "perfect"; "great"; "awesome";
   "bet"; "definitely"; "absolutely"; "lets do it"; "let's do it";
   "schedule"; "call me"; "call"; "meeting"; "please"; "ready"].

Definition isPositiveResponse (message : option jsval) : result bool :=
  if negb (truthy message) then Ok false
  else
    message ← asString message;
    let text := trim (toLowerCase message) in
    Ok (existsb (fun word => includes text word) positiveWords).

(** [a >= b] and [a < b] against a number *)
Definition js_ge (a : jsval) (b : Z) : result bool :=
  a ← toNumber a; Ok (b <=? a).

Definition js_lt (a : jsval) (b : Z) : result bool :=
  a ← toNumber a; Ok (a <? b).

Definition saysUnknown (response : string) : bool :=
  includes (toLowerCase response) "not sure"
  || includes (toLowerCase response) "don't know"
  || includes (toLowerCase response) "unknown"
  || includes (toLowerCase response) "idk"
  || includes (toLowerCase response) "not certain".

Definition updateLeadField (lead : gmap string jsval) (currentQuestionIndex : jsval)
    (userResponse : jsval) : result (gmap string jsval) :=
  past ← js_ge currentQuestionIndex (Z.of_nat (length QUALIFICATION_QUESTIONS));
  if (past : bool) then Ok lead
  else
    entry ← elementAt QUALIFICATION_QUESTIONS currentQuestionIndex;
    let updatedLead := lead in
    response ← asString (Some userResponse);
    let response := trim response in
    if saysUnknown response
    then Ok (<[field entry := JStr "unknown"]> updatedLead)
    else Ok (<[field entry := JStr response]> updatedLead).

(** The same function in the earlier scripted program kept in the
    repository (the first program of [src/unnamed/part_000]): the answer is
    not trimmed and "not certain" is not among the phrases. *)
Module Earlier.

Definition saysUnknown (userResponse : string) : bool :=
  includes (toLowerCase userResponse) "not sure"
  || includes (toLowerCase userResponse) "don't know"
  || includes (toLowerCase userResponse) "unknown"
  || includes (toLowerCase userResponse) "idk".

Definition updateLeadField (lead : gmap string jsval) (currentQuestionIndex : jsval)
    (userResponse : jsval) : result (gmap string jsval) :=
  past ← js_ge currentQuestionIndex (Z.of_nat (length QUALIFICATION_QUESTIONS));
  if (past : bool) then Ok lead
  else
    entry ← elementAt QUALIFICATION_QUESTIONS currentQuestionIndex;
    let updatedLead := lead in
    userResponse ← asString (Some userResponse);
    if saysUnknown userResponse
    then Ok (<[field entry := JStr "unknown"]> updatedLead)
    else Ok (<[field entry := JStr userResponse]> updatedLead).

(** [value && value !== 'unknown' && value.trim() !== ''] *)
Definition isFilled (value : option jsval) : result bool :=
  if truthy value && bool_decide (value <> Some (JStr "unknown")) then
    value ← asString value;
    Ok (negb (String.eqb (trim value) ""))
  else Ok false.

(** [fields.filter(...).length], the callback run on each field in turn. *)
Fixpoint countFilled (lead : gmap string jsval) (fields : list string) : result nat :=
  match fields with
  | [] => Ok 0%nat
  | field :: rest =>
      kept ← isFilled (lead !! field);
      n ← countFilled lead rest;
      Ok (if (kept : bool) then S n else n)
  end.

Definition isUrgent (lead : gmap string jsval) : result bool :=
  timeline ← (if truthy (lead !! "timeline")
              then timeline ← asString (lead !! "timeline"); Ok (toLowerCase timeline)
              else Ok "");
  Ok (includes timeline "asap" || includes timeline "soon"
      || includes timeline "immediately" || includes timeline "next month"
      || includes timeline "30 day" || includes timeline "2 week").

Definition hasStrongBudget (lead : gmap string jsval) : result bool :=
  if truthy (lead !! "budget") then
    budget ← asString (lead !! "budget");
    Ok (negb (includes budget "unknown"))
  else Ok false.

Definition calculateLeadScore (lead : gmap string jsval) : result string :=
  filledCount ← countFilled lead fields;
  isUrgent ← isUrgent lead;
  hasStrongBudget ← hasStrongBudget lead;
  if (5 <=? filledCount)%nat && isUrgent && hasStrongBudget then Ok "hot"
  else if (4 <=? filledCount)%nat then Ok "warm"
  else Ok "cold".

Definition positiveWords : list string :=
  ["yes"; "yeah"; "yep"; "sure"; "ok"; "okay";
   "sounds good"; "perfect"; "great"; "awesome";
   "bet"; "definitely"; "absolutely"; "lets do it"; "let's do it";
   "schedule"; "call me"; "call"; "meeting"].

Definition isPositiveResponse (message : option jsval) : result bool :=
  if negb (truthy message) then Ok false
  else
    message ← asString message;
    let text := trim (toLowerCase message) in
    Ok (existsb (fun word => includes text word) positiveWords).

End Earlier.

(** ** The record store and the clock *)

(** The state outside the process: the rows of the [leads] table, keyed by
    their [phone] column, and the number of clock readings taken so far. *)
Record World : Type := {
  leads : gmap string (gmap string jsval);
  time : nat
}.

Definition M (A : Type) : Type := World -> result A * World.

#[global] Instance M_ret : MRet M := fun _ a w => (Ok a, w).
#[global] Instance M_bind : MBind M := fun _ _ f m w =>
  match m w with
  | (Ok a, w') => f a w'
  | (TypeError, w') => (TypeError, w')
  | (Stuck, w') => (Stuck, w')
  end.

Definition lift {A : Type} (r : result A) : M A := fun w => (r, w).

(** Modelled from the spec: the record store is an outside service, "a
    generic key-value/record store"; [upsertLead(key, partialFields)] has
    "merge semantics on conflict by key" and "never errors out the caller on
    failure, returns a success flag".  The key is the [phone] column of the
    posted row; a row without a text key is refused.  Transport failures,
    which the callers log and swallow, are left out: a request reaches the
    store and is answered.  [Outage.saveLeadToSupabase] has them. *)
Definition upsertLead (data : gmap string jsval) : M bool := fun w =>
  match data !! "phone" with
  | Some (JStr key) =>
      (Ok true,
       {| leads := <[key := data ∪ default ∅ (leads w !! key)]> (leads w);
          time := time w |})
  | _ => (Ok false, w)
  end.

(** Modelled from the spec: [getLead(key)], the "point lookup by key" of the
    record store. *)
Definition selectLead (key : string) : M (option (gmap string jsval)) := fun w =>
  (Ok (leads w !! key), w).

Record Step : Type := { type : string; message : string }.

Section Conversation.

(** The text of the clock's [n]-th reading, [new Date().toISOString()]. *)
Variable toISOString : nat -> string.

Definition now : M string := fun w =>
  (Ok (toISOString (time w)), {| leads := leads w; time := S (time w) |}).

Definition saveLeadToSupabase (phone : option jsval) (updates : gmap string jsval) : M bool :=
  normalizedPhone ← lift (normalizePhone phone);
  updated_at ← now;
  let data :=
    <["updated_at" := JStr updated_at]> (updates ∪ {["phone" := JStr normalizedPhone]}) in
  upsertLead data.

Definition defaultLead (normalizedPhone created_at : string) : gmap string jsval :=
  <["phone" := JStr normalizedPhone]>
  (<["current_question_index" := JNum 0]>
  (<["qualification_complete" := JBool false]>
  (<["asked_for_meeting" := JBool false]>
  (<["meeting_scheduled" := JBool false]>
  (<["lead_score" := JNull]>
  (<["location" := JNull]>
  (<["home_type" := JNull]>
  (<["bedrooms" := JNull]>
  (<["budget" := JNull]>
  (<["timeline" := JNull]>
  (<["preapproval" := JNull]>
  (<["motivation" := JNull]>
  (<["created_at" := JStr created_at]> ∅))))))))))))).

(** The read is answered; [Outage.getCurrentLeadState] has the [catch]
    clause of a read that is not. *)
Definition getCurrentLeadState (phone : option jsval) : M (gmap string jsval) :=
  normalizedPhone ← lift (normalizePhone phone);
  data ← selectLead normalizedPhone;
  match data with
  | Some row => mret row
  | None =>
      created_at ← now;
      mret (defaultLead normalizedPhone created_at)
  end.

(** [v + 1] *)
Definition js_succ (v : jsval) : result jsval :=
  n ← toNumber v; Ok (JNum (n + 1)).

Definition scriptLength : Z := Z.of_nat (length QUALIFICATION_QUESTIONS).

Definition getNextStep (lead : gmap string jsval) (userResponse : jsval) : M Step :=
  let currentIndex := js_or (lead !! "current_question_index") (JNum 0) in
  if truthy (lead !! "meeting_scheduled") then
    mret {| type := "already_handled";
            message := "Thanks for your message! Our team will be in touch shortly to confirm the meeting details." |}
  else
    asking ← lift (js_lt currentIndex scriptLength);
    if (asking : bool) then
      updatedLead ← lift (updateLeadField lead currentIndex userResponse);
      nextIndex ← lift (js_succ currentIndex);
      let updatedLead := <["current_question_index" := nextIndex]> updatedLead in
      updatedLead ←
        (if bool_decide (nextIndex = JNum scriptLength) then
           let updatedLead := <["qualification_complete" := JBool true]> updatedLead in
           lead_score ← lift (calculateLeadScore updatedLead);
           mret (<["lead_score" := JStr lead_score]> updatedLead)
         else mret updatedLead);
      _ ← saveLeadToSupabase (lead !! "phone") updatedLead;
      more ← lift (js_lt nextIndex scriptLength);
      if (more : bool) then
        entry ← lift (elementAt QUALIFICATION_QUESTIONS nextIndex);
        mret {| type := "question"; message := question entry |}
      else
        _ ← saveLeadToSupabase (lead !! "phone") {["asked_for_meeting" := JBool true]};
        let score := updatedLead !! "lead_score" in
        let scoreEmoji :=
          if bool_decide (score = Some (JStr "hot")) then "🔥"
          else if bool_decide (score = Some (JStr "warm")) then "☀️"
          else "❄️" in
        mret {| type := "scheduling";
                message := scoreEmoji ++ " Thanks for the information! Based on what you've shared, you're a "
                           ++ interpolate score
                           ++ " lead. Would you like to schedule a meeting with one of our agents?" |}
    else if truthy (lead !! "asked_for_meeting") && negb (truthy (lead !! "meeting_scheduled")) then
      positive ← lift (isPositiveResponse (Some userResponse));
      if (positive : bool) then
        _ ← saveLeadToSupabase (lead !! "phone")
              (<["meeting_scheduled" := JBool true]>
               (<["wants_meeting" := JBool true]>
                (<["meeting_notes" := userResponse]> ∅)));
        mret {| type := "meeting_confirmed";
                message := "🎉 Great! An agent will reach out to you within the next hour to schedule the meeting. Thank you!" |}
      else
        _ ← saveLeadToSupabase (lead !! "phone")
              (<["meeting_scheduled" := JBool true]>
               (<["wants_meeting" := JBool false]> ∅));
        mret {| type := "meeting_declined";
                message := "Thank you for your interest! We will keep your information on file and reach out if we find properties that match your criteria." |}
    else
      mret {| type := "fallback";
              message := "Thanks for your message! Our team will review your information and get back to you shortly." |}.

Definition handleConversation (phone : option jsval) (userMessage : jsval) : M string :=
  lead ← getCurrentLeadState phone;
  nextStep ← getNextStep lead userMessage;
  mret (message nextStep).

End Conversation.

(** ** Conversations *)

(** The webhook's use of the state machine, one inbound message after
    another: each is a sender address and a body. *)
Fixpoint handleAll (clock : nat -> string) (inbound : list (string * string))
    : M (list string) :=
  match inbound with
  | [] => mret []
  | (from, body) :: rest =>
      reply ← handleConversation clock (Some (JStr from)) (JStr body);
      replies ← handleAll clock rest;
      mret (reply :: replies)
  end.

#[global] Instance result_eq_dec {A : Type} `{EqDecision A} : EqDecision (result A).
Proof. solve_decision. Defined.

(** Two sender addresses name one lead when they normalize alike. *)
Definition sameLead (from from' : string) : bool :=
  bool_decide (normalizePhone (Some (JStr from)) = normalizePhone (Some (JStr from'))).

(** The number of inbound messages of the lead that [from] names. *)
Definition turnsOf (from : string) (inbound : list (string * string)) : nat :=
  length (List.filter (fun m => sameLead (fst m) from) inbound).

(** A stored column with text or [null] in it. *)
Definition storesText (v : option jsval) : bool :=
  match v with
  | Some JNull | Some (JStr _) => true
  | _ => false
  end.

(** What holds of the row under [key] once [N] messages of that lead have
    been handled. *)
Definition phase (N : nat) (key : string) (row : gmap string jsval) : Prop :=
  (1 <= N)%nat
  /\ replaceNonDigits key = key
  /\ row !! "phone" = Some (JStr key)
  /\ row !! "current_question_index" = Some (JNum (Z.min (Z.of_nat N) scriptLength))
  /\ row !! "meeting_scheduled" = Some (JBool (8 <=? N)%nat)
  /\ row !! "qualification_complete" = Some (JBool (7 <=? N)%nat)
  /\ row !! "asked_for_meeting" = Some (JBool (7 <=? N)%nat)
  /\ storesText (row !! "budget") = true
  /\ storesText (row !! "timeline") = true.

(** Every row of the store is in the phase of its lead's message count. *)
Definition inPhase (count : string -> nat) (w : World) : Prop :=
  forall key,
    match leads w !! key with
    | None => count key = 0%nat
    | Some row => phase (count key) key row
    end.

(** One more message of a lead: the count of that lead goes up by one. *)
Definition oneMore (key : string) (count : string -> nat) : string -> nat :=
  fun k => if bool_decide (k = key) then S (count k) else count k.

(** The messages handled so far, counted by the key of their lead. *)
Definition turnsUnder (key : string) (inbound : list (string * string)) : nat :=
  length (List.filter (fun m => bool_decide (replaceNonDigits (fst m) = key)) inbound).

(** ** Sample data *)

(** A conversation of one lead, with a message of another in between. *)
Definition sampleInbound : list (string * string) :=
  [ ("whatsapp:+15551234567", "Phoenix");
    ("whatsapp:+15551234567", "house");
    ("whatsapp:+15550000000", "Austin");
    ("whatsapp:+15551234567", "3");
    ("whatsapp:+15551234567", "500k");
    ("+1 (555) 123-4567", "asap");
    ("whatsapp:+15551234567", "cash");
    ("whatsapp:+15551234567", "not sure");
    ("whatsapp:+15551234567", "not sure");
    ("whatsapp:+15551234567", "hello?") ].


Definition sampleClock (n : nat) : string := "2025-01-01T00:00:00." ++ pretty n ++ "Z".

Definition emptyWorld : World := {| leads := ∅; time := 0 |}.

(** The lead of scenario E. *)
Definition scenarioE : gmap string jsval :=
  <["location" := JStr "Dallas"]>
  (<["budget" := JStr "unknown"]>
  (<["timeline" := JStr "asap"]>
  (<["home_type" := JStr "condo"]>
  (<["bedrooms" := JStr "2"]>
  (<["preapproval" := JStr "cash"]>
  (<["motivation" := JStr "job"]> ∅)))))).

(** A lead whose meeting is settled. *)
Definition scheduledLead : gmap string jsval :=
  <["meeting_scheduled" := JBool true]>
  (<["asked_for_meeting" := JBool true]>
  (<["current_question_index" := JNum 7]>
  (defaultLead "15551234567" (sampleClock 0)))).

(** A lead that has answered the first six questions. *)
Definition answeredLead : gmap string jsval :=
  <["current_question_index" := JNum 6]>
  (<["location" := JStr "Phoenix"]>
  (<["home_type" := JStr "house"]>
  (<["bedrooms" := JStr "3"]>
  (<["budget" := JStr "500k"]>
  (<["timeline" := JStr "asap"]>
  (<["preapproval" := JStr "cash"]>
  (defaultLead "15551234567" (sampleClock 0)))))))).

(** A lead that has been offered a meeting. *)
Definition offeredLead : gmap string jsval :=
  <["asked_for_meeting" := JBool true]>
  (<["qualification_complete" := JBool true]>
  (<["lead_score" := JStr "hot"]>
  (<["motivation" := JStr "unknown"]>
  (<["current_question_index" := JNum 7]> answeredLead)))).

(** The phrases that make an answer "unknown". *)
Definition unknownPhrases : list string :=
  ["not sure"; "don't know"; "unknown"; "idk"; "not certain"].

(** What an interview turn stores for an answer: the branches of
    [updateLeadField] as one expression. *)
Definition storedAnswer (userResponse : string) : string :=
  if saysUnknown (trim userResponse) then "unknown" else trim userResponse.

(** The scheduling offer of [getNextStep] for a score that is the text
    [tier]. *)
Definition schedulingOffer (tier : string) : string :=
  (if bool_decide (Some (JStr tier) = Some (JStr "hot")) then "🔥"
   else if bool_decide (Some (JStr tier) = Some (JStr "warm")) then "☀️"
   else "❄️")
  ++ " Thanks for the information! Based on what you've shared, you're a "
  ++ tier
  ++ " lead. Would you like to schedule a meeting with one of our agents?".

(** ** Replies of a conversation *)

(** The three fixed replies of [getNextStep] after the interview, and its
    fallback. *)
Definition acknowledgement : string :=
  "Thanks for your message! Our team will be in touch shortly to confirm the meeting details.".

Definition confirmation : string :=
  "🎉 Great! An agent will reach out to you within the next hour to schedule the meeting. Thank you!".

Definition declineNote : string :=
  "Thank you for your interest! We will keep your information on file and reach out if we find properties that match your criteria.".

Definition fallbackReply : string :=
  "Thanks for your message! Our team will review your information and get back to you shortly.".

(** What the reply to a lead's message is when [N] earlier messages of that
    lead have been handled. *)
Definition scriptedReply (N : nat) (body reply : string) : Prop :=
  ((N < 6)%nat ->
     exists entry, nth_error QUALIFICATION_QUESTIONS (S N) = Some entry
                   /\ reply = question entry)
  /\ (N = 6%nat ->
        exists tier, In tier ["hot"; "warm"; "cold"] /\ reply = schedulingOffer tier)
  /\ (N = 7%nat ->
        exists positive,
          isPositiveResponse (Some (JStr body)) = Ok positive
          /\ reply = if positive then confirmation else declineNote)
  /\ ((8 <= N)%nat -> reply = acknowledgement).

(** ** The message log, the messenger and the routes *)

(** A row of the [messages] table, as [saveMessageToSupabase] posts it. *)
Module Msg.
Record t : Type := { lead_phone : string; sender : string; message : string }.
End Msg.

(** A request to the messenger, as [twilioClient.messages.create] gets it. *)
Module Twilio.
Record t : Type := { from : string; to : string; body : string }.
End Twilio.

(** What a handler sends back: a text with its content type, or a JSON
    object whose members are values or, one level down, objects of values;
    a member whose value is [undefined] is left out, as [res.json] does. *)
Inductive member : Type :=
  | JVal (v : jsval)
  | JObj (object : list (string * jsval)).

Inductive payload : Type :=
  | Text (contentType text : string)
  | Json (object : list (string * member)).

Record Response : Type := { status : Z; sent : payload }.

(** The state outside the process as the routes see it: the lead rows and
    the clock, the message log in the order of posting, and the requests
    made to the messenger in the order of sending. *)
Record Server : Type := {
  world : World;
  messages : list Msg.t;
  outbox : list Twilio.t
}.

Definition IO (A : Type) : Type := Server -> result A * Server.

#[global] Instance IO_ret : MRet IO := fun _ a s => (Ok a, s).
#[global] Instance IO_bind : MBind IO := fun _ _ f m s =>
  match m s with
  | (Ok a, s') => f a s'
  | (TypeError, s') => (TypeError, s')
  | (Stuck, s') => (Stuck, s')
  end.

Definition pure {A : Type} (r : result A) : IO A := fun s => (r, s).

(** A computation on the lead rows and the clock, run inside a route. *)
Definition onWorld {A : Type} (m : M A) : IO A := fun s =>
  let '(r, w') := m (world s) in
  (r, {| world := w'; messages := messages s; outbox := outbox s |}).

(** [try { ... } catch (error) { ... }]: what was done before the error
    stays done. *)
Definition tryCatch {A : Type} (block handler : IO A) : IO A := fun s =>
  match block s with
  | (Ok a, s') => (Ok a, s')
  | (TypeError, s') => handler s'
  | (Stuck, s') => (Stuck, s')
  end.

(** Modelled from the spec: [appendMessage(leadKey, sender, text)] of the
    record store, "append-only"; a request reaches the store and is
    answered. *)
Definition postMessage (data : Msg.t) : IO unit := fun s =>
  (Ok tt, {| world := world s; messages := (messages s ++ [data])%list; outbox := outbox s |}).

(** A value that is there; the callers below pass a value on which a string
    method has been called before, so an absent one never gets here. *)
Definition present (v : option jsval) : result jsval :=
  match v with
  | Some x => Ok x
  | None => TypeError
  end.

Section Routes.

Variable toISOString : nat -> string.

(** The environment's [TWILIO_WHATSAPP_NUMBER]. *)
Variable TWILIO_WHATSAPP_NUMBER : string.

(** Whether the messenger accepts a request: [create] resolves, or rejects
    and the error is caught. *)
Variable delivers : Twilio.t -> bool.

(** The text of the error a [catch] clause reports, [error.message]. *)
Variable errorMessage : string.

Definition saveMessageToSupabase (leadPhone : option jsval) (sender : string)
    (message : option jsval) : IO bool :=
  normalizedPhone ← pure (normalizePhone leadPhone);
  message ← pure (asString message);
  let data :=
    {| Msg.lead_phone := normalizedPhone;
       Msg.sender := sender;
       Msg.message := trim message |} in
  _ ← postMessage data;
  mret true.

Definition sendTwilioMessage (to : option jsval) (body : string) : IO bool := fun s =>
  let request :=
    {| Twilio.from := "whatsapp:" ++ TWILIO_WHATSAPP_NUMBER;
       Twilio.to := "whatsapp:" ++ interpolate to;
       Twilio.body := body |} in
  (Ok (delivers request),
   {| world := world s; messages := messages s; outbox := (outbox s ++ [request])%list |}).

(** [POST /lead] with the [name], [phone] and [source] of the request
    body. *)
Definition postLead (name phone source : option jsval) : IO Response :=
  tryCatch
    (if negb (truthy name) || negb (truthy phone) then
       mret {| status := 400;
               sent := Json [("error", JVal (JStr "Name and phone are required fields"))] |}
     else
       name' ← pure (present name);
       saveResult ← onWorld (saveLeadToSupabase toISOString phone
                               (<["name" := name']>
                                (<["source" := js_or source (JStr "manual")]> ∅)));
       if negb saveResult then
         mret {| status := 500;
                 sent := Json [("error", JVal (JStr "Failed to save lead to database"))] |}
       else
         first ← pure (elementAt QUALIFICATION_QUESTIONS (JNum 0));
         let firstQuestion := question first in
         _ ← saveMessageToSupabase phone "ai" (Some (JStr firstQuestion));
         phone' ← pure (present phone);
         mret {| status := 200;
                 sent := Json
                   [("success", JVal (JBool true));
                    ("message", JVal (JStr "Lead created successfully"));
                    ("first_question", JVal (JStr firstQuestion));
                    ("lead", JObj ([("name", name'); ("phone", phone')]
                                   ++ match source with
                                      | Some v => [("source", v)]
                                      | None => []
                                      end)%list)] |})
    (mret {| status := 500;
             sent := Json [("error", JVal (JStr "Internal server error creating lead"));
                           ("details", JVal (JStr errorMessage))] |}).

(** [POST /whatsapp-webhook] with the [From] and [Body] of the request
    body. *)
Definition whatsappWebhook (From Body : option jsval) : IO Response :=
  tryCatch
    (_ ← saveMessageToSupabase From "lead" Body;
     body ← pure (present Body);
     aiReply ← onWorld (handleConversation toISOString From body);
     _ ← saveMessageToSupabase From "ai" (Some (JStr aiReply));
     sendResult ← sendTwilioMessage From aiReply;
     mret {| status := 200; sent := Text "text/xml" "" |})
    (mret {| status := 500; sent := Text "text/xml" "" |}).

(** [message?.trim()] as a condition. *)
Definition trimsToText (message : option jsval) : result bool :=
  match message with
  | None | Some JNull => Ok false
  | Some (JStr s) => Ok (negb (String.eqb (trim s) ""))
  | Some _ => TypeError
  end.

(** [POST /leads/:phone/reply] with the [phone] of the path and the
    [message] of the request body. *)
Definition postReply (phone : string) (message : option jsval) : IO Response :=
  tryCatch
    (given ← pure (trimsToText message);
     if negb given then
       mret {| status := 400;
               sent := Json [("error", JVal (JStr "Message is required"))] |}
     else
       normalizedPhone ← pure (normalizePhone (Some (JStr phone)));
       _ ← saveMessageToSupabase (Some (JStr normalizedPhone)) "agent" message;
       text ← pure (asString message);
       _ ← sendTwilioMessage (Some (JStr ("+" ++ normalizedPhone))) text;
       mret {| status := 200;
               sent := Json [("success", JVal (JBool true));
                             ("message", JVal (JStr "Reply sent successfully"))] |})
    (mret {| status := 500;
             sent := Json [("success", JVal (JBool false));
                           ("error", JVal (JStr "Failed to send reply"));
                           ("details", JVal (JStr errorMessage))] |}).

End Routes.

(** The log and the outbox of [s'] continue those of [s]: what was logged
    or sent is still there, in its place. *)
Definition continues (s s' : Server) : Prop :=
  (exists logged, messages s' = (messages s ++ logged)%list)
  /\ (exists sent, outbox s' = (outbox s ++ sent)%list).

(** Every run of [m] continues the log and the outbox. *)
Definition appendOnly {A : Type} (m : IO A) : Prop :=
  forall s r s', m s = (r, s') -> continues s s'.

(** ** A store that may not answer *)

(** A computation that raises no [Stuck]: no text is coerced to a number
    in it. *)
Definition neverStuck {A : Type} (m : M A) : Prop :=
  forall w, fst (m w) <> Stuck.

(** The requests to the record store are made over the network, inside
    [try] blocks whose [catch] clauses log the error and go on.  Above, every
    request is answered.  Here the outcome of each request is an input: the
    state carries the outcomes of the requests still to come, in the order
    in which they are made, [true] for a request that is answered and
    [false] for one that is not (the store is not reached, or refuses); when
    the list is used up the requests are answered.  The functions that
    make requests are embedded again on this state, with their [catch]
    clauses. *)
Module Outage.

Definition Net (S A : Type) : Type := S * list bool -> result A * (S * list bool).

#[global] Instance Net_ret {S : Type} : MRet (Net S) := fun _ a s => (Ok a, s).
#[global] Instance Net_bind {S : Type} : MBind (Net S) := fun _ _ f m s =>
  match m s with
  | (Ok a, s') => f a s'
  | (TypeError, s') => (TypeError, s')
  | (Stuck, s') => (Stuck, s')
  end.

(** A step that makes no request, or the part of a request that the store
    plays once it answers. *)
Definition answered {S A : Type} (m : S -> result A * S) : Net S A := fun s =>
  let '(r, s') := m (fst s) in (r, (s', snd s)).

(** The outcome of the next request. *)
Definition request {S : Type} : Net S bool := fun s =>
  match snd s with
  | [] => (Ok true, s)
  | outcome :: rest => (Ok outcome, (fst s, rest))
  end.

Section Conversation.

Variable toISOString : nat -> string.

Definition saveLeadToSupabase (phone : option jsval) (updates : gmap string jsval)
    : Net World bool :=
  normalizedPhone ← answered (lift (normalizePhone phone));
  updated_at ← answered (now toISOString);
  let data :=
    <["updated_at" := JStr updated_at]> (updates ∪ {["phone" := JStr normalizedPhone]}) in
  reached ← request;
  if (reached : bool) then answered (upsertLead data)
  else mret false.

Definition getCurrentLeadState (phone : option jsval) : Net World (gmap string jsval) :=
  normalizedPhone ← answered (lift (normalizePhone phone));
  reached ← request;
  if (reached : bool) then
    data ← answered (selectLead normalizedPhone);
    match data with
    | Some row => mret row
    | None =>
        created_at ← answered (now toISOString);
        mret (defaultLead normalizedPhone created_at)
    end
  else
    created_at ← answered (now toISOString);
    mret (defaultLead normalizedPhone created_at).

Definition getNextStep (lead : gmap string jsval) (userResponse : jsval)
    : Net World Step :=
  let currentIndex := js_or (lead !! "current_question_index") (JNum 0) in
  if truthy (lead !! "meeting_scheduled") then
    mret {| type := "already_handled";
            message := "Thanks for your message! Our team will be in touch shortly to confirm the meeting details." |}
  else
    asking ← answered (lift (js_lt currentIndex scriptLength));
    if (asking : bool) then
      updatedLead ← answered (lift (updateLeadField lead currentIndex userResponse));
      nextIndex ← answered (lift (js_succ currentIndex));
      let updatedLead := <["current_question_index" := nextIndex]> updatedLead in
      updatedLead ←
        (if bool_decide (nextIndex = JNum scriptLength) then
           let updatedLead := <["qualification_complete" := JBool true]> updatedLead in
           lead_score ← answered (lift (calculateLeadScore updatedLead));
           mret (<["lead_score" := JStr lead_score]> updatedLead)
         else mret updatedLead);
      _ ← saveLeadToSupabase (lead !! "phone") updatedLead;
      more ← answered (lift (js_lt nextIndex scriptLength));
      if (more : bool) then
        entry ← answered (lift (elementAt QUALIFICATION_QUESTIONS nextIndex));
        mret {| type := "question"; message := question entry |}
      else
        _ ← saveLeadToSupabase (lead !! "phone") {["asked_for_meeting" := JBool true]};
        let score := updatedLead !! "lead_score" in
        let scoreEmoji :=
          if bool_decide (score = Some (JStr "hot")) then "🔥"
          else if bool_decide (score = Some (JStr "warm")) then "☀️"
          else "❄️" in
        mret {| type := "scheduling";
                message := scoreEmoji ++ " Thanks for the information! Based on what you've shared, you're a "
                           ++ interpolate score
                           ++ " lead. Would you like to schedule a meeting with one of our agents?" |}
    else if truthy (lead !! "asked_for_meeting") && negb (truthy (lead !! "meeting_scheduled")) then
      positive ← answered (lift (isPositiveResponse (Some userResponse)));
      if (positive : bool) then
        _ ← saveLeadToSupabase (lead !! "phone")
              (<["meeting_scheduled" := JBool true]>
               (<["wants_meeting" := JBool true]>
                (<["meeting_notes" := userResponse]> ∅)));
        mret {| type := "meeting_confirmed";
                message := "🎉 Great! An agent will reach out to you within the next hour to schedule the meeting. Thank you!" |}
      else
        _ ← saveLeadToSupabase (lead !! "phone")
              (<["meeting_scheduled" := JBool true]>
               (<["wants_meeting" := JBool false]> ∅));
        mret {| type := "meeting_declined";
                message := "Thank you for your interest! We will keep your information on file and reach out if we find properties that match your criteria." |}
    else
      mret {| type := "fallback";
              message := "Thanks for your message! Our team will review your information and get back to you shortly." |}.

Definition handleConversation (phone : option jsval) (userMessage : jsval)
    : Net World string :=
  lead ← getCurrentLeadState phone;
  nextStep ← getNextStep lead userMessage;
  mret (message nextStep).

(** A computation on the lead rows and the clock, run inside a route. *)
Definition onWorld {A : Type} (m : Net World A) : Net Server A := fun s =>
  let '(r, (w', outcomes)) := m (world (fst s), snd s) in
  (r, ({| world := w'; messages := messages (fst s); outbox := outbox (fst s) |},
       outcomes)).

Definition tryCatch {A : Type} (block handler : Net Server A) : Net Server A := fun s =>
  match block s with
  | (Ok a, s') => (Ok a, s')
  | (TypeError, s') => handler s'
  | (Stuck, s') => (Stuck, s')
  end.

Definition saveMessageToSupabase (leadPhone : option jsval) (sender : string)
    (message : option jsval) : Net Server bool :=
  normalizedPhone ← answered (pure (normalizePhone leadPhone));
  message ← answered (pure (asString message));
  let data :=
    {| Msg.lead_phone := normalizedPhone;
       Msg.sender := sender;
       Msg.message := trim message |} in
  reached ← request;
  if (reached : bool) then
    _ ← answered (postMessage data);
    mret true
  else mret false.

(** The text of the error a [catch] clause reports, [error.message]. *)
Variable errorMessage : string.

Definition postLead (name phone source : option jsval) : Net Server Response :=
  tryCatch
    (if negb (truthy name) || negb (truthy phone) then
       mret {| status := 400;
               sent := Json [("error", JVal (JStr "Name and phone are required fields"))] |}
     else
       name' ← answered (pure (present name));
       saveResult ← onWorld (saveLeadToSupabase phone
                               (<["name" := name']>
                                (<["source" := js_or source (JStr "manual")]> ∅)));
       if negb saveResult then
         mret {| status := 500;
                 sent := Json [("error", JVal (JStr "Failed to save lead to database"))] |}
       else
         first ← answered (pure (elementAt QUALIFICATION_QUESTIONS (JNum 0)));
         let firstQuestion := question first in
         _ ← saveMessageToSupabase phone "ai" (Some (JStr firstQuestion));
         phone' ← answered (pure (present phone));
         mret {| status := 200;
                 sent := Json
                   [("success", JVal (JBool true));
                    ("message", JVal (JStr "Lead created successfully"));
                    ("first_question", JVal (JStr firstQuestion));
                    ("lead", JObj ([("name", name'); ("phone", phone')]
                                   ++ match source with
                                      | Some v => [("source", v)]
                                      | None => []
                                      end)%list)] |})
    (mret {| status := 500;
             sent := Json [("error", JVal (JStr "Internal server error creating lead"));
                           ("details", JVal (JStr errorMessage))] |}).

End Conversation.

Fixpoint handleAll (clock : nat -> string) (inbound : list (string * string))
    : Net World (list string) :=
  match inbound with
  | [] => mret []
  | (from, body) :: rest =>
      reply ← handleConversation clock (Some (JStr from)) (JStr body);
      replies ← handleAll clock rest;
      mret (reply :: replies)
  end.

End Outage.

(** Every request of a run is answered. *)
Definition allAnswered (outcomes : list bool) : Prop :=
  Forall (fun outcome => outcome = true) outcomes.

(** [m'] differs from [m] only in the requests it makes: when they are all
    answered it does what [m] does. *)
Definition answers {S A : Type} (m : S -> result A * S) (m' : Outage.Net S A) : Prop :=
  forall s outcomes,
    allAnswered outcomes ->
    exists outcomes',
      allAnswered outcomes'
      /\ m' (s, outcomes) = (fst (m s), (snd (m s), outcomes')).

(** ** The free-form program *)

(** The third program kept in the repository (the second program of
    [src/unnamed/part_000]): the state of a lead is extracted from the
    message history by a completion service, which also words the replies
    and scores the lead.  Its functions without a call to that service, and
    the reading of the score the service returns, are embedded here. *)
Module Freeform.

Definition normalizePhone (phone : option jsval) : result string :=
  if negb (truthy phone) then Ok ""
  else
    phone ← asString phone;
    Ok (replaceNonDigits phone).



Definition keys : list string :=
  ["location"; "budget"; "timeline"; "home_type"; "bedrooms"; "preapproval"; "motivation"].

(** [typeof v === 'string' && v.trim() !== '' && v !== 'unknown'] *)
Definition isKnown (v : option jsval) : bool :=
  match v with
  | Some (JStr s) =>
      negb (String.eqb (trim s) "") && bool_decide (JStr s <> JStr "unknown")
  | _ => false
  end.

Definition countKnownFields (state : gmap string jsval) : nat :=
  length (List.filter (fun k => isKnown (state !! k)) keys).

(** The double quote, for the texts below. *)
Definition dq : string := String (Ascii.ascii_of_nat 34) EmptyString.

Definition systemPrompt : string :=
  "
You are scoring a real estate lead for an agent.

You will receive:
- A JSON object with these fields:
  location, budget, timeline, home_type, bedrooms, preapproval, motivation
- A count of how many of the 7 fields are filled.

Your job is to classify the lead as exactly one of:
- " ++ dq ++ "hot" ++ dq ++ "
- " ++ dq ++ "warm" ++ dq ++ "
- " ++ dq ++ "cold" ++ dq ++ "

Consider:
- " ++ dq ++ "hot" ++ dq ++ ": Has budget, timeline (ASAP or near future), location, and motivation. Ready to move soon.
- " ++ dq ++ "warm" ++ dq ++ ": Has some key info but missing urgency or key details.
- " ++ dq ++ "cold" ++ dq ++ ": Very little info, vague answers, or far future timeline.

Return ONLY one word: " ++ dq ++ "hot" ++ dq ++ ", " ++ dq ++ "warm" ++ dq ++ ", or " ++ dq ++ "cold" ++ dq ++ ".
".

Definition userPrompt (knownCount : nat) (json : string) : string :=
  "
Known fields count: " ++ pretty knownCount ++ " out of 7.

Lead info as JSON:

" ++ json ++ "

Classify this lead now.
".

Section Scoring.

(** [JSON.stringify(state, null, 2)], a function of the engine. *)
Variable stringify : gmap string jsval -> string.

(** The completion service: the [content] of the first choice it returns
    for a system prompt and a user prompt. *)
Variable complete : string -> string -> option jsval.

Definition scoreLeadFromState (state : gmap string jsval) : result string :=
  let knownCount := countKnownFields state in
  raw ← asString (complete systemPrompt (userPrompt knownCount (stringify state)));
  let raw := toLowerCase (trim raw) in
  if includes raw "hot" then Ok "hot"
  else if includes raw "warm" then Ok "warm"
  else if includes raw "cold" then Ok "cold"
  else Ok "warm".

End Scoring.

Definition yesWords : list string :=
  ["yes"; "yeah"; "yep"; "sure"; "ok"; "okay"; "sounds good"; "bet";
   "that works"; "perfect"; "great"].

Definition callWords : list string :=
  ["call"; "phone"; "chat"; "talk"; "meeting"; "schedule"; "appointment"].

Definition messageIndicatesWantsCall (msg : option jsval) : result bool :=
  if negb (truthy msg) then Ok false
  else
    msg ← asString msg;
    let text := toLowerCase msg in
    let hasYes := existsb (fun w => includes text w) yesWords in
    let hasCall := existsb (fun w => includes text w) callWords in
    if hasYes && hasCall then Ok true
    else if includes text "schedule a call"
            || includes text "set up a call"
            || includes text "book a call"
            || includes text "schedule something"
            || includes text "that time works"
            || includes text "lets do it"
            || includes text "let's do it"
    then Ok true
    else Ok false.

(** [state.name && state.name !== 'unknown'] *)
Definition mentions (v : option jsval) : bool :=
  truthy v && bool_decide (v <> Some (JStr "unknown")).

(** [if (...) parts.push(`before ${state.name} after`)] *)
Definition pushPart (before : string) (v : option jsval) (after : string)
    (parts : list string) : list string :=
  if mentions v then (parts ++ [(before ++ interpolate v ++ after)%string])%list else parts.

Definition generateLeadSummary (state : gmap string jsval) : string :=
  let parts := [] in
  let parts := pushPart "looking in " (state !! "location") "" parts in
  let parts := pushPart "for a " (state !! "home_type") "" parts in
  let parts := pushPart "with " (state !! "bedrooms") " bedrooms" parts in
  let parts := pushPart "around " (state !! "budget") "" parts in
  let parts := pushPart "planning to move " (state !! "timeline") "" parts in
  let parts := pushPart "and they are " (state !! "preapproval") "" parts in
  let parts := pushPart "because " (state !! "motivation") "" parts in
  if (length parts =? 0)%nat then "We're still learning about what you're looking for."
  else "Based on what you've shared, you're " ++ String.concat ", " parts ++ ".".

End Freeform.

(** * Properties *)

(** ** Strings *)

Lemma startsWith_app (s p : string) :
  startsWith s p = true <-> exists rest, s = p ++ rest.
Proof.
  revert s. induction p as [|a p IH]; intros s; simpl.
  - split; [intros _; now exists s | reflexivity].
  - destruct s as [|b s].
    + split; [discriminate | intros [rest H]; discriminate].
    + destruct (Ascii.eqb_spec a b) as [->|Hne].
      * rewrite IH. split; intros [rest H]; exists rest.
        -- now rewrite H.
        -- now inversion H.
      * split; [discriminate | intros [rest H]; simpl in H; injection H as Hab _; congruence].
Qed.

Lemma includes_app (s p : string) :
  includes s p = true <-> exists before after, s = before ++ p ++ after.
Proof.
  induction s as [|c s IH]; simpl.
  - rewrite orb_false_r, startsWith_app. split.
    + intros [rest H]. now exists "", rest.
    + intros [[|c before] [after H]]; [now exists after | discriminate].
  - rewrite orb_true_iff, IH, startsWith_app. split.
    + intros [[rest H] | (before & after & H)].
      * now exists "", rest.
      * exists (String c before), after. simpl. now rewrite H.
    + intros ([|c' before] & after & H); simpl in H.
      * left. now exists after.
      * right. exists before, after. now inversion H.
Qed.

Lemma append_assoc (a b c : string) : (a ++ b) ++ c = a ++ b ++ c.
Proof.
  induction a as [|x a IH]; [reflexivity |].
  change (String x ((a ++ b) ++ c) = String x (a ++ b ++ c)). now rewrite IH.
Qed.

Lemma toLowerCase_app (a b : string) :
  toLowerCase (a ++ b) = toLowerCase a ++ toLowerCase b.
Proof. induction a as [|c a IH]; simpl; [reflexivity | now rewrite IH]. Qed.

Lemma toLowerCase_split (s a b : string) :
  toLowerCase s = a ++ b ->
  exists a' b', s = a' ++ b' /\ toLowerCase a' = a /\ toLowerCase b' = b.
Proof.
  revert s. induction a as [|c a IH]; intros s H; simpl in H.
  - now exists "", s.
  - destruct s as [|d s]; simpl in H; [discriminate |].
    inversion H as [[Hc Hs]]. destruct (IH s Hs) as (a' & b' & -> & Ha & Hb).
    exists (String d a'), b'. simpl. now rewrite Ha.
Qed.

Lemma lowerChar_idem (c : ascii) : lowerChar (lowerChar c) = lowerChar c.
Proof. destruct c as [[] [] [] [] [] [] [] []]; reflexivity. Qed.

Lemma toLowerCase_idem (s : string) : toLowerCase (toLowerCase s) = toLowerCase s.
Proof.
  induction s as [|c s IH]; simpl; [reflexivity |].
  now rewrite lowerChar_idem, IH.
Qed.

(** The substring test on the lower-cased text is containment up to letter
    case. *)
Lemma includes_toLowerCase (s p : string) :
  includes (toLowerCase s) (toLowerCase p) = true <-> containsIgnoringCase s p.
Proof.
  rewrite includes_app. split.
  - intros (before & after & H).
    destruct (toLowerCase_split _ _ _ H) as (a' & r & -> & Ha & Hr).
    destruct (toLowerCase_split _ _ _ Hr) as (m' & b' & -> & Hm & Hb).
    exists a', m', b'. split; [reflexivity | exact Hm].
  - intros (before & mid & after & -> & Hmid).
    exists (toLowerCase before), (toLowerCase after).
    now rewrite !toLowerCase_app, Hmid.
Qed.

Lemma replaceNonDigits_digitsOf (s : string) : replaceNonDigits s = digitsOf s.
Proof.
  unfold digitsOf. induction s as [|c s IH]; simpl; [reflexivity |].
  destruct (isDigit c); simpl; now rewrite IH.
Qed.

Lemma replaceNonDigits_idem (s : string) :
  replaceNonDigits (replaceNonDigits s) = replaceNonDigits s.
Proof.
  induction s as [|c s IH]; simpl; [reflexivity |].
  destruct (isDigit c) eqn:Hc; simpl; [rewrite Hc |]; now rewrite IH.
Qed.

Lemma normalizePhone_text (s : string) :
  normalizePhone (Some (JStr s)) = Ok (replaceNonDigits s).
Proof.
  unfold normalizePhone. destruct s as [|c s]; [reflexivity |].
  cbn -[replaceNonDigits includes]. now destruct (includes _ _).
Qed.

(** ** Phone normalizer *)

(** C9: [normalizePhone] returns the digits of its input, in their order;
    applying it to its own output returns that output; [null], an absent
    value and the empty string give the empty string. *)
Theorem normalizePhone_idempotent :
  (forall s : string,
      exists digits,
        normalizePhone (Some (JStr s)) = Ok digits
        /\ digits = digitsOf s
        /\ normalizePhone (Some (JStr digits)) = Ok digits)
  /\ normalizePhone (Some JNull) = Ok ""
  /\ normalizePhone None = Ok ""
  /\ normalizePhone (Some (JStr "")) = Ok "".
Proof.
  split; [| repeat split].
  intros s. exists (replaceNonDigits s).
  rewrite !normalizePhone_text, replaceNonDigits_idem.
  repeat split. apply replaceNonDigits_digitsOf.
Qed.

(** ** Answer classifier *)

Lemma saysUnknown_phrases (response : string) :
  saysUnknown response = true
  <-> exists phrase, In phrase unknownPhrases /\ containsIgnoringCase response phrase.
Proof.
  unfold saysUnknown. rewrite !orb_true_iff. split.
  - intros [[[[H|H]|H]|H]|H];
      [exists "not sure" | exists "don't know" | exists "unknown"
       | exists "idk" | exists "not certain"];
      (split; [simpl; tauto | apply includes_toLowerCase; exact H]).
  - intros (phrase & Hin & H). apply includes_toLowerCase in H.
    simpl in Hin.
    destruct Hin as [<-|[<-|[<-|[<-|[<-|[]]]]]];
      match type of H with
      | includes ?t (toLowerCase ?p) = true =>
          change (includes t p = true) in H
      end; tauto.
Qed.

Lemma nth_error_script (n : nat) (entry : Question) :
  nth_error QUALIFICATION_QUESTIONS n = Some entry ->
  Z.of_nat n < scriptLength.
Proof.
  intros H. assert (n < length QUALIFICATION_QUESTIONS)%nat.
  { apply nth_error_Some. congruence. }
  unfold scriptLength. lia.
Qed.

Lemma updateLeadField_interview (lead : gmap string jsval) (n : nat)
    (entry : Question) (userResponse : string) :
  nth_error QUALIFICATION_QUESTIONS n = Some entry ->
  updateLeadField lead (JNum (Z.of_nat n)) (JStr userResponse)
  = Ok (<[field entry := JStr (storedAnswer userResponse)]> lead).
Proof.
  intros Hn. pose proof (nth_error_script _ _ Hn) as Hlt.
  unfold updateLeadField, js_ge, elementAt, scriptLength in *.
  cbn [toNumber mbind result_bind asString].
  destruct (Z.leb_spec (Z.of_nat (length QUALIFICATION_QUESTIONS)) (Z.of_nat n)); [lia |].
  destruct (Z.leb_spec 0 (Z.of_nat n)); [| lia].
  rewrite Nat2Z.id, Hn. unfold storedAnswer.
  now destruct (saysUnknown (trim userResponse)).
Qed.

(** C7: below the script length, [updateLeadField] writes into the script
    field of that index the sentinel "unknown" exactly when the trimmed text
    contains, letter case ignored, one of the five phrases; otherwise it
    writes the trimmed text itself. *)
Theorem updateLeadField_unknown_sentinel (lead : gmap string jsval) (n : nat)
    (entry : Question) (userResponse : string) :
  nth_error QUALIFICATION_QUESTIONS n = Some entry ->
  exists written,
    updateLeadField lead (JNum (Z.of_nat n)) (JStr userResponse)
    = Ok (<[field entry := JStr written]> lead)
    /\ (written = "unknown"
        <-> exists phrase,
              In phrase unknownPhrases
              /\ containsIgnoringCase (trim userResponse) phrase)
    /\ (~ (exists phrase,
              In phrase unknownPhrases
              /\ containsIgnoringCase (trim userResponse) phrase)
        -> written = trim userResponse).
Proof.
  intros Hn. eexists. split; [apply (updateLeadField_interview _ _ _ _ Hn) |].
  rewrite <- saysUnknown_phrases. unfold storedAnswer.
  destruct (saysUnknown (trim userResponse)) eqn:Hs.
  - split; [tauto | intros H; now destruct H].
  - split; [| reflexivity]. split; [| discriminate].
    intros Heq. rewrite Heq in Hs. discriminate Hs.
Qed.

Lemma updateLeadField_unknown_sentinel_witness :
  nth_error QUALIFICATION_QUESTIONS 3
  = Some {| field := "budget"; question := "What's your budget or price range?" |}
  /\ exists written,
       updateLeadField answeredLead (JNum 3) (JStr "  Honestly IDK yet ")
       = Ok (<["budget" := JStr written]> answeredLead)
       /\ (written = "unknown"
           <-> exists phrase,
                 In phrase unknownPhrases
                 /\ containsIgnoringCase (trim "  Honestly IDK yet ") phrase)
       /\ (~ (exists phrase,
                 In phrase unknownPhrases
                 /\ containsIgnoringCase (trim "  Honestly IDK yet ") phrase)
           -> written = trim "  Honestly IDK yet ").
Proof.
  split; [reflexivity |].
  apply (updateLeadField_unknown_sentinel answeredLead 3
           {| field := "budget"; question := "What's your budget or price range?" |}
           "  Honestly IDK yet ").
  reflexivity.
Defined.

(** The earlier program stores "not certain" and outer white space as they
    come; the current one does not. *)
Lemma Earlier_updateLeadField_differs :
  Earlier.updateLeadField ∅ (JNum 0) (JStr " not certain ")
  = Ok (<["location" := JStr " not certain "]> ∅)
  /\ updateLeadField ∅ (JNum 0) (JStr " not certain ")
     = Ok (<["location" := JStr "unknown"]> ∅).
Proof. split; reflexivity. Qed.

(** ** Trimming keeps an occurrence of a word without outer white space *)

Lemma includes_startsWith (s p : string) :
  startsWith s p = true -> includes s p = true.
Proof. intros H. destruct s; simpl; rewrite H; reflexivity. Qed.

Lemma includes_cons (c : ascii) (s p : string) :
  includes s p = true -> includes (String c s) p = true.
Proof. intros H. simpl. rewrite H. apply orb_true_r. Qed.

Lemma includes_empty (p : string) : p <> "" -> includes "" p = false.
Proof. destruct p; [congruence | reflexivity]. Qed.

Lemma trimStart_length (s : string) :
  (String.length (trimStart s) <= String.length s)%nat.
Proof.
  induction s as [|c s IH]; simpl; [lia |].
  destruct (isWhiteSpace c); simpl; lia.
Qed.

Lemma includes_trimStart (s p : string) :
  p <> "" -> trimStart p = p ->
  includes s p = true -> includes (trimStart s) p = true.
Proof.
  intros Hp Hfix. induction s as [|c s IH]; intros H.
  - now rewrite includes_empty in H.
  - simpl trimStart. destruct (isWhiteSpace c) eqn:Hc; [| exact H].
    simpl in H. apply orb_true_iff in H as [H|H]; [| now apply IH].
    exfalso. destruct p as [|a p]; [congruence |].
    simpl in H. destruct (Ascii.eqb_spec a c) as [->|]; [| discriminate].
    simpl in Hfix. rewrite Hc in Hfix.
    pose proof (trimStart_length p) as Hlen. rewrite Hfix in Hlen.
    simpl in Hlen. lia.
Qed.

Lemma startsWith_trimEnd (s p : string) :
  p <> "" -> trimEnd p = p ->
  startsWith s p = true -> startsWith (trimEnd s) p = true.
Proof.
  revert s. induction p as [|a p IH]; intros s Hp Hfix H; [congruence |].
  destruct s as [|b s]; [discriminate |].
  simpl in H. destruct (Ascii.eqb_spec a b) as [<-|]; [| discriminate].
  simpl in Hfix. destruct p as [|a' p].
  - simpl in Hfix. destruct (isWhiteSpace a) eqn:Ha; [discriminate |].
    simpl. destruct (trimEnd s); [rewrite Ha |]; simpl; now rewrite Ascii.eqb_refl.
  - assert (Hp' : trimEnd (String a' p) = String a' p).
    { destruct (trimEnd (String a' p)) eqn:Ht.
      - destruct (isWhiteSpace a); discriminate.
      - now inversion Hfix. }
    specialize (IH s ltac:(congruence) Hp' H).
    change (trimEnd (String a s)) with
      (match trimEnd s with
       | "" => if isWhiteSpace a then "" else String a ""
       | t => String a t
       end).
    destruct (trimEnd s) eqn:Hs; [discriminate IH |].
    simpl. now rewrite Ascii.eqb_refl.
Qed.

Lemma includes_trimEnd (s p : string) :
  p <> "" -> trimEnd p = p ->
  includes s p = true -> includes (trimEnd s) p = true.
Proof.
  intros Hp Hfix. induction s as [|c s IH]; intros H.
  - now rewrite includes_empty in H.
  - simpl in H. apply orb_true_iff in H as [H|H].
    + apply includes_startsWith, startsWith_trimEnd; assumption.
    + specialize (IH H).
      change (trimEnd (String c s)) with
        (match trimEnd s with
         | "" => if isWhiteSpace c then "" else String c ""
         | t => String c t
         end).
      destruct (trimEnd s) eqn:Hs; [now rewrite includes_empty in IH |].
      now apply includes_cons.
Qed.

Lemma includes_trim (s p : string) :
  p <> "" -> trimStart p = p -> trimEnd p = p ->
  includes s p = true -> includes (trim s) p = true.
Proof.
  intros Hp Hs He H. unfold trim.
  now apply includes_trimEnd, includes_trimStart.
Qed.

(** ** Scheduling-intent classifier *)

Lemma positiveWords_solid :
  Forall (fun word => word <> "" /\ trimStart word = word /\ trimEnd word = word)
         positiveWords.
Proof. repeat constructor; discriminate. Qed.

Lemma isPositiveResponse_substring (message word : string) :
  In word positiveWords ->
  includes (toLowerCase message) word = true ->
  isPositiveResponse (Some (JStr message)) = Ok true.
Proof.
  intros Hin Hinc.
  destruct (proj1 (List.Forall_forall _ _) positiveWords_solid word Hin) as (Hne & Hs & He).
  unfold isPositiveResponse. destruct message as [|c message].
  - cbn [toLowerCase] in Hinc. now rewrite includes_empty in Hinc.
  - cbn [truthy String.eqb negb asString mbind result_bind].
    f_equal. apply existsb_exists. exists word. split; [exact Hin |].
    now apply includes_trim.
Qed.

(** C6: [isPositiveResponse] is false on [null], on an absent value and on
    the empty string; it is false on "no thanks, not now", in which no word
    of the affirmative lexicon occurs. *)
Theorem isPositiveResponse_negative :
  isPositiveResponse (Some JNull) = Ok false
  /\ isPositiveResponse None = Ok false
  /\ isPositiveResponse (Some (JStr "")) = Ok false
  /\ isPositiveResponse (Some (JStr "no thanks, not now")) = Ok false
  /\ (forall word, In word positiveWords ->
        ~ exists before after, "no thanks, not now" = before ++ word ++ after).
Proof.
  repeat split; try reflexivity.
  intros word Hin Hocc. apply includes_app in Hocc.
  simpl in Hin.
  repeat (destruct Hin as [<-|Hin]; [vm_compute in Hocc; discriminate |]).
  exact Hin.
Qed.

(** ** Lead scorer *)

Lemma filledCount_le (lead : gmap string jsval) : (filledCount lead <= 7)%nat.
Proof.
  unfold filledCount.
  etransitivity; [apply List.filter_length_le | reflexivity].
Qed.

Lemma isUrgent_total (lead : gmap string jsval) :
  holdsText (lead !! "timeline") = true -> exists urgent, isUrgent lead = Ok urgent.
Proof.
  unfold isUrgent. destruct (lead !! "timeline") as [[| | |s]|]; try discriminate;
    intros _; [| destruct s |]; eexists; reflexivity.
Qed.

Lemma hasStrongBudget_total (lead : gmap string jsval) :
  holdsText (lead !! "budget") = true -> exists strong, hasStrongBudget lead = Ok strong.
Proof.
  unfold hasStrongBudget. destruct (lead !! "budget") as [[| | |s]|]; try discriminate;
    intros _; [| destruct s |]; eexists; reflexivity.
Qed.

Lemma calculateLeadScore_total (lead : gmap string jsval) :
  holdsText (lead !! "timeline") = true ->
  holdsText (lead !! "budget") = true ->
  exists tier, calculateLeadScore lead = Ok tier.
Proof.
  intros Ht Hb.
  destruct (isUrgent_total lead Ht) as [urgent Hu].
  destruct (hasStrongBudget_total lead Hb) as [strong Hs].
  unfold calculateLeadScore. rewrite Hu, Hs. cbn [mbind result_bind].
  destruct (_ && _ && _); [| destruct (_ <=? _)%nat]; eexists; reflexivity.
Qed.

Lemma includes_occurs (s p : string) :
  includes s p = true <-> Table.occurs p s.
Proof. apply includes_app. Qed.

(** The text [isUrgent] lower-cases: that of the timeline, or the empty
    text. *)
Lemma isUrgent_reads (lead : gmap string jsval) :
  holdsText (lead !! "timeline") = true ->
  asString (Some (js_or (lead !! "timeline") (JStr "")))
  = Ok (Table.textOf (lead !! "timeline")).
Proof.
  destruct (lead !! "timeline") as [[| | |s]|]; try discriminate; intros _;
    [reflexivity | now destruct s | reflexivity].
Qed.

Lemma isUrgent_table (lead : gmap string jsval) (urgent : bool) :
  holdsText (lead !! "timeline") = true ->
  isUrgent lead = Ok urgent ->
  (urgent = true <-> Table.isUrgent lead).
Proof.
  intros Ht. unfold isUrgent, Table.isUrgent. rewrite (isUrgent_reads lead Ht).
  cbn [mbind result_bind]. intros [= <-].
  generalize (toLowerCase (Table.textOf (lead !! "timeline"))). intros timeline.
  rewrite !orb_true_iff, !includes_occurs. split.
  - intros [[[[[[H|H]|H]|H]|H]|H]|H]; eexists; (split; [| exact H]); simpl; tauto.
  - intros (keyword & Hin & H). simpl in Hin.
    repeat (destruct Hin as [<-|Hin]; [tauto |]). destruct Hin.
Qed.

Lemma hasStrongBudget_table (lead : gmap string jsval) (strong : bool) :
  holdsText (lead !! "budget") = true ->
  hasStrongBudget lead = Ok strong ->
  (strong = true <-> Table.hasStrongBudget lead).
Proof.
  unfold hasStrongBudget, Table.hasStrongBudget.
  destruct (lead !! "budget") as [[| | |budget]|]; try discriminate; intros _;
    cbn [truthy Table.textOf].
  - intros [= <-]. split; [discriminate | now intros [? _]].
  - destruct (String.eqb_spec budget "") as [->|Hne]; cbn [negb].
    + intros [= <-]. split; [discriminate | now intros [? _]].
    + cbn [asString mbind result_bind]. intros Hstrong.
      assert (strong = negb (includes budget "unknown")
                       && negb (includes budget "not sure")) as -> by congruence.
      clear Hstrong.
      rewrite andb_true_iff, !negb_true_iff.
      rewrite <- (includes_occurs budget "unknown"), <- (includes_occurs budget "not sure").
      split.
      * intros [-> ->]. repeat split; [exact Hne | discriminate ..].
      * intros (_ & Hu & Hn). split; now apply not_true_is_false.
  - intros [= <-]. split; [discriminate | now intros [? _]].
Qed.

Lemma isFilled_counted (v : option jsval) :
  holdsText v = true -> (if isFilled v then 1%nat else 0%nat) = Table.counted v.
Proof.
  destruct v as [[| | |s]|]; try discriminate; intros _; try reflexivity.
  unfold isFilled, Table.counted. cbn [truthy toString Table.textOf].
  destruct (String.eqb_spec s "unknown") as [->|Hne]; [reflexivity |].
  rewrite bool_decide_eq_true_2 by congruence.
  destruct (String.eqb_spec (trim s) "") as [Hblank|Hblank].
  - now rewrite andb_false_r.
  - destruct s; [now destruct Hblank | reflexivity].
Qed.

Lemma filledCount_table (lead : gmap string jsval) :
  (forall field, In field fields -> holdsText (lead !! field) = true) ->
  filledCount lead = Table.filledCount lead.
Proof.
  intros Htext. unfold filledCount, Table.filledCount, fields in *.
  rewrite <- !isFilled_counted by (apply Htext; simpl; tauto).
  cbn [List.filter].
  destruct (isFilled (lead !! "location")), (isFilled (lead !! "budget")),
    (isFilled (lead !! "timeline")), (isFilled (lead !! "home_type")),
    (isFilled (lead !! "bedrooms")), (isFilled (lead !! "preapproval")),
    (isFilled (lead !! "motivation")); reflexivity.
Qed.

(** The code's tier is the one the table gives. *)
Lemma calculateLeadScore_table (lead : gmap string jsval) (tier : string) :
  (forall field, In field fields -> holdsText (lead !! field) = true) ->
  calculateLeadScore lead = Ok tier <-> Table.tier lead tier.
Proof.
  intros Htext.
  assert (Ht : holdsText (lead !! "timeline") = true) by (apply Htext; simpl; tauto).
  assert (Hb : holdsText (lead !! "budget") = true) by (apply Htext; simpl; tauto).
  destruct (isUrgent_total lead Ht) as [urgent Hu].
  destruct (hasStrongBudget_total lead Hb) as [strong Hs].
  pose proof (isUrgent_table lead urgent Ht Hu) as Hut.
  pose proof (hasStrongBudget_table lead strong Hb Hs) as Hst.
  unfold calculateLeadScore. rewrite Hu, Hs, (filledCount_table lead Htext).
  cbn [mbind result_bind].
  destruct (Nat.leb_spec 5 (Table.filledCount lead)) as [H5|H5];
    destruct (Nat.leb_spec 4 (Table.filledCount lead)) as [H4|H4];
    try lia; destruct urgent, strong; cbn [andb]; split;
    try (intros [= <-]);
    try (apply Table.hot; [assumption | tauto | tauto]);
    try (apply Table.warm; [| assumption]; intros (_ & Hx & Hy);
         first [now apply Hut in Hx | now apply Hst in Hy]);
    try (apply Table.cold; assumption);
    try (apply Table.warm; [| assumption]; intros (? & _); lia);
    inversion 1; subst; try reflexivity; try lia;
    try (exfalso; tauto);
    try match goal with
        | H : Table.isUrgent lead |- _ => now apply Hut in H
        end;
    try match goal with
        | H : Table.hasStrongBudget lead |- _ => now apply Hst in H
        end.
Qed.

(** C2: [calculateLeadScore] follows the decision table of the
    specification, read top-down: 'hot' exactly when at least five fields
    are filled, the timeline is urgent and the budget is strong; otherwise
    'warm' exactly when at least four fields are filled; otherwise 'cold'.
    What the code computes as urgent and strong is what the specification
    calls so ([Table.isUrgent], [Table.hasStrongBudget]), and on fields that
    hold text or nothing its count is [Table.filledCount] and its tier the
    one of [Table.tier].  Five filled fields without urgency score 'warm'.
    Scenario E has six filled fields, an urgent timeline, no strong budget,
    and scores 'warm'. *)
Theorem calculateLeadScore_decision_table :
  (forall lead : gmap string jsval,
      holdsText (lead !! "timeline") = true ->
      holdsText (lead !! "budget") = true ->
      exists (urgent strong : bool) (tier : string),
        isUrgent lead = Ok urgent
        /\ hasStrongBudget lead = Ok strong
        /\ (urgent = true <-> Table.isUrgent lead)
        /\ (strong = true <-> Table.hasStrongBudget lead)
        /\ calculateLeadScore lead = Ok tier
        /\ (tier = "hot"
            <-> (5 <= filledCount lead)%nat /\ urgent = true /\ strong = true)
        /\ (tier = "warm"
            <-> ~ ((5 <= filledCount lead)%nat /\ urgent = true /\ strong = true)
                /\ (4 <= filledCount lead)%nat)
        /\ (tier = "cold" <-> (filledCount lead < 4)%nat)
        /\ ((5 <= filledCount lead)%nat -> urgent = false -> tier = "warm"))
  /\ (forall lead : gmap string jsval,
        (forall field, In field fields -> holdsText (lead !! field) = true) ->
        filledCount lead = Table.filledCount lead
        /\ forall tier, calculateLeadScore lead = Ok tier <-> Table.tier lead tier)
  /\ filledCount scenarioE = 6%nat
  /\ isUrgent scenarioE = Ok true
  /\ hasStrongBudget scenarioE = Ok false
  /\ calculateLeadScore scenarioE = Ok "warm"
  /\ Table.filledCount scenarioE = 6%nat
  /\ Table.isUrgent scenarioE
  /\ ~ Table.hasStrongBudget scenarioE
  /\ Table.tier scenarioE "warm".
Proof.
  assert (HE : forall field, In field fields -> holdsText (scenarioE !! field) = true).
  { intros field Hin. simpl in Hin.
    repeat (destruct Hin as [<-|Hin]; [reflexivity |]). destruct Hin. }
  split; [| split; [| repeat apply conj; try reflexivity]].
  - intros lead Ht Hb.
    destruct (isUrgent_total lead Ht) as [urgent Hu].
    destruct (hasStrongBudget_total lead Hb) as [strong Hs].
    exists urgent, strong. unfold calculateLeadScore. rewrite Hu, Hs.
    cbn [mbind result_bind].
    pose proof (isUrgent_table lead urgent Ht Hu) as Hut.
    pose proof (hasStrongBudget_table lead strong Hb Hs) as Hst.
    destruct (Nat.leb_spec 5 (filledCount lead)) as [H5|H5];
      destruct (Nat.leb_spec 4 (filledCount lead)) as [H4|H4];
      destruct urgent, strong; cbn [andb]; eexists;
      (split; [reflexivity |]); (split; [reflexivity |]);
      (split; [exact Hut |]); (split; [exact Hst |]); (split; [reflexivity |]);
      repeat split; intros; try discriminate; try lia; try tauto;
      try (intros (? & ? & ?); discriminate); try (intros (? & ? & ?); lia).
  - intros lead Htext. split; [now apply filledCount_table |].
    intros tier. now apply calculateLeadScore_table.
  - apply (isUrgent_table scenarioE true); reflexivity.
  - intros H. now apply (hasStrongBudget_table scenarioE false) in H.
  - now apply (calculateLeadScore_table scenarioE "warm" HE).
Qed.

(** A lead with text in every field meets the conditions of the table. *)
Lemma calculateLeadScore_decision_table_witness :
  exists (urgent strong : bool) (tier : string),
    isUrgent scenarioE = Ok urgent
    /\ hasStrongBudget scenarioE = Ok strong
    /\ (urgent = true <-> Table.isUrgent scenarioE)
    /\ (strong = true <-> Table.hasStrongBudget scenarioE)
    /\ calculateLeadScore scenarioE = Ok tier
    /\ (tier = "hot"
        <-> (5 <= filledCount scenarioE)%nat /\ urgent = true /\ strong = true)
    /\ (tier = "warm"
        <-> ~ ((5 <= filledCount scenarioE)%nat /\ urgent = true /\ strong = true)
            /\ (4 <= filledCount scenarioE)%nat)
    /\ (tier = "cold" <-> (filledCount scenarioE < 4)%nat)
    /\ ((5 <= filledCount scenarioE)%nat -> urgent = false -> tier = "warm").
Proof.
  apply (proj1 calculateLeadScore_decision_table scenarioE); reflexivity.
Defined.

(** The scorer of the earlier scripted program (the first program of
    [src/unnamed/part_000]) has no keyword "urgent" and lets a budget with
    "not sure" in it count as strong: it scores these two leads 'warm' and
    'hot', the current one 'hot' and 'warm'. *)
Lemma Earlier_calculateLeadScore_differs :
  Earlier.calculateLeadScore
    (<["timeline" := JStr "urgent"]> (<["budget" := JStr "500k"]> scenarioE))
  = Ok "warm"
  /\ calculateLeadScore
       (<["timeline" := JStr "urgent"]> (<["budget" := JStr "500k"]> scenarioE))
     = Ok "hot"
  /\ Earlier.calculateLeadScore (<["budget" := JStr "not sure yet"]> scenarioE) = Ok "hot"
  /\ calculateLeadScore (<["budget" := JStr "not sure yet"]> scenarioE) = Ok "warm".
Proof. repeat split; reflexivity. Qed.

(** ** Running the store monad *)

Lemma bind_run {A B : Type} (m : M A) (f : A -> M B) (a : A) (w w' : World) :
  m w = (Ok a, w') -> (m ≫= f) w = f a w'.
Proof. intros H. unfold mbind, M_bind. now rewrite H. Qed.

Lemma bind_lift {A B : Type} (r : result A) (f : A -> M B) (a : A) (w : World) :
  r = Ok a -> (lift r ≫= f) w = f a w.
Proof. intros ->. reflexivity. Qed.

Lemma union_singleton_absorb (m : gmap string jsval) (k : string) (v v' : jsval) :
  m !! k = Some v -> m ∪ {[k := v']} = m.
Proof.
  intros H. apply map_eq. intros i.
  destruct (m !! i) as [x|] eqn:Hi.
  - now apply lookup_union_Some_l.
  - rewrite lookup_union_r by done. apply lookup_singleton_ne. congruence.
Qed.

(** A save of an object that carries its own [phone] posts that object,
    stamped, under that key. *)
Lemma saveLeadToSupabase_own_key (clock : nat -> string) (phone : option jsval)
    (updates : gmap string jsval) (norm key : string) (w : World) :
  normalizePhone phone = Ok norm ->
  updates !! "phone" = Some (JStr key) ->
  saveLeadToSupabase clock phone updates w
  = (Ok true,
     {| leads :=
          <[key := <["updated_at" := JStr (clock (time w))]> updates
                   ∪ default ∅ (leads w !! key)]> (leads w);
        time := S (time w) |}).
Proof.
  intros Hn Hk. unfold saveLeadToSupabase, mbind, M_bind, lift, now, upsertLead.
  rewrite Hn. cbn [leads time].
  rewrite (union_singleton_absorb _ _ _ _ Hk).
  rewrite lookup_insert_ne by done. rewrite Hk. reflexivity.
Qed.

(** A save of a partial object posts it, stamped, under the normalized
    phone. *)
Lemma saveLeadToSupabase_partial (clock : nat -> string) (phone : option jsval)
    (updates : gmap string jsval) (norm : string) (w : World) :
  normalizePhone phone = Ok norm ->
  updates !! "phone" = None ->
  saveLeadToSupabase clock phone updates w
  = (Ok true,
     {| leads :=
          <[norm := <["updated_at" := JStr (clock (time w))]>
                      (updates ∪ {["phone" := JStr norm]})
                    ∪ default ∅ (leads w !! norm)]> (leads w);
        time := S (time w) |}).
Proof.
  intros Hn Hk. unfold saveLeadToSupabase, mbind, M_bind, lift, now, upsertLead.
  rewrite Hn. cbn [leads time].
  rewrite lookup_insert_ne by done.
  rewrite lookup_union_r by done. rewrite lookup_singleton_eq. reflexivity.
Qed.

Lemma script_field (n : nat) (entry : Question) :
  nth_error QUALIFICATION_QUESTIONS n = Some entry -> In (field entry) fields.
Proof.
  intros H. do 7 (destruct n as [|n]; [inversion H; simpl; tauto |]).
  destruct n; discriminate.
Qed.

Ltac script_cases H :=
  apply script_field in H; simpl in H;
  repeat (destruct H as [H|H]; [rewrite <- H |]); [.. | destruct H].

Lemma JNum_inj (a b : Z) : JNum a = JNum b -> a = b.
Proof. now intros [=]. Qed.

Lemma getNextStep_question (clock : nat -> string) (lead : gmap string jsval)
    (n : nat) (entry next : Question) (userResponse p : string) (w : World) :
  js_or (lead !! "current_question_index") (JNum 0) = JNum (Z.of_nat n) ->
  truthy (lead !! "meeting_scheduled") = false ->
  nth_error QUALIFICATION_QUESTIONS n = Some entry ->
  nth_error QUALIFICATION_QUESTIONS (S n) = Some next ->
  lead !! "phone" = Some (JStr p) ->
  getNextStep clock lead (JStr userResponse) w
  = (Ok {| type := "question"; message := question next |},
     {| leads :=
          <[p := <["updated_at" := JStr (clock (time w))]>
                   (<["current_question_index" := JNum (Z.of_nat (S n))]>
                      (<[field entry := JStr (storedAnswer userResponse)]> lead))
                 ∪ default ∅ (leads w !! p)]> (leads w);
        time := S (time w) |}).
Proof.
  intros Hidx Hms Hn Hnext Hp.
  pose proof (nth_error_script _ _ Hnext) as Hlt.
  unfold getNextStep. rewrite Hms, Hidx.
  erewrite bind_lift; [| unfold js_lt; cbn [toNumber mbind result_bind]; reflexivity].
  destruct (Z.ltb_spec (Z.of_nat n) scriptLength) as [_|]; [| lia].
  erewrite bind_lift; [| apply (updateLeadField_interview _ _ _ _ Hn)].
  erewrite bind_lift; [| reflexivity].
  replace (Z.of_nat n + 1) with (Z.of_nat (S n)) by lia.
  rewrite bool_decide_eq_false_2 by (intros H%JNum_inj; lia).
  erewrite bind_run; [| reflexivity].
  erewrite bind_run; cycle 1.
  { rewrite Hp. apply saveLeadToSupabase_own_key with (norm := replaceNonDigits p).
    - apply normalizePhone_text.
    - rewrite lookup_insert_ne by done.
      rewrite lookup_insert_ne; [exact Hp |].
      clear -Hn. script_cases Hn; done. }
  erewrite bind_lift; [| unfold js_lt; cbn [toNumber mbind result_bind]; reflexivity].
  destruct (Z.ltb_spec (Z.of_nat (S n)) scriptLength) as [_|]; [| lia].
  erewrite bind_lift; cycle 1.
  { unfold elementAt. destruct (Z.leb_spec 0 (Z.of_nat (S n))); [| lia].
    rewrite Nat2Z.id, Hnext. reflexivity. }
  reflexivity.
Qed.

Lemma calculateLeadScore_ext (lead lead' : gmap string jsval) :
  (forall name, In name fields -> lead !! name = lead' !! name) ->
  calculateLeadScore lead = calculateLeadScore lead'.
Proof.
  intros H. unfold calculateLeadScore, filledCount, isUrgent, hasStrongBudget.
  rewrite (H "timeline"), (H "budget") by (simpl; tauto).
  rewrite (List.filter_ext_in (fun name => isFilled (lead !! name))
             (fun name => isFilled (lead' !! name)) fields); [reflexivity |].
  intros name Hin. now rewrite H.
Qed.

Lemma schedulingOffer_includes (tier : string) :
  includes (schedulingOffer tier) tier = true.
Proof.
  apply includes_app. unfold schedulingOffer.
  eexists (_ ++ " Thanks for the information! Based on what you've shared, you're a "), _.
  rewrite append_assoc. reflexivity.
Qed.

(** The turn that answers the last question: the lead is saved with its
    score, then [asked_for_meeting] is saved under the normalized phone. *)
Lemma getNextStep_last (clock : nat -> string) (lead : gmap string jsval)
    (userResponse p tier : string) (w : World) :
  js_or (lead !! "current_question_index") (JNum 0) = JNum 6 ->
  truthy (lead !! "meeting_scheduled") = false ->
  lead !! "phone" = Some (JStr p) ->
  calculateLeadScore (<["motivation" := JStr (storedAnswer userResponse)]> lead) = Ok tier ->
  let saved :=
    <["updated_at" := JStr (clock (time w))]>
      (<["lead_score" := JStr tier]>
         (<["qualification_complete" := JBool true]>
            (<["current_question_index" := JNum 7]>
               (<["motivation" := JStr (storedAnswer userResponse)]> lead)))) in
  let w1 :=
    {| leads := <[p := saved ∪ default ∅ (leads w !! p)]> (leads w);
       time := S (time w) |} in
  let asked :=
    <["updated_at" := JStr (clock (S (time w)))]>
      ({["asked_for_meeting" := JBool true]} ∪ {["phone" := JStr (replaceNonDigits p)]}) in
  getNextStep clock lead (JStr userResponse) w
  = (Ok {| type := "scheduling"; message := schedulingOffer tier |},
     {| leads :=
          <[replaceNonDigits p :=
              asked ∪ default ∅ (leads w1 !! replaceNonDigits p)]> (leads w1);
        time := S (S (time w)) |}).
Proof.
  intros Hidx Hms Hp Hscore saved w1 asked.
  unfold getNextStep. rewrite Hms, Hidx.
  erewrite bind_lift; [| reflexivity].
  change (6 <? scriptLength) with true. cbv iota.
  erewrite bind_lift; [| apply (updateLeadField_interview lead 6); reflexivity].
  erewrite bind_lift; [| reflexivity].
  change (6 + 1) with 7. change scriptLength with 7.
  rewrite bool_decide_eq_true_2 by reflexivity.
  cbn [field].
  erewrite bind_run; cycle 1.
  { erewrite bind_lift; [reflexivity |].
    rewrite <- Hscore. apply calculateLeadScore_ext. intros name Hin.
    simpl in Hin.
    repeat (destruct Hin as [<-|Hin]; [now rewrite !lookup_insert_ne by done |]).
    destruct Hin. }
  erewrite bind_run; cycle 1.
  { rewrite Hp. apply saveLeadToSupabase_own_key with (norm := replaceNonDigits p).
    - apply normalizePhone_text.
    - rewrite !lookup_insert_ne by done. exact Hp. }
  erewrite bind_lift; [| reflexivity].
  change (7 <? 7) with false. cbv iota.
  erewrite bind_run; cycle 1.
  { rewrite Hp. apply saveLeadToSupabase_partial with (norm := replaceNonDigits p).
    - apply normalizePhone_text.
    - reflexivity. }
  rewrite lookup_insert_eq. reflexivity.
Qed.

(** The turn that answers the scheduling offer. *)
Lemma getNextStep_scheduling (clock : nat -> string) (lead : gmap string jsval)
    (n : Z) (userResponse key : string) (positive : bool) (w : World) :
  js_or (lead !! "current_question_index") (JNum 0) = JNum n ->
  scriptLength <= n ->
  truthy (lead !! "meeting_scheduled") = false ->
  truthy (lead !! "asked_for_meeting") = true ->
  normalizePhone (lead !! "phone") = Ok key ->
  isPositiveResponse (Some (JStr userResponse)) = Ok positive ->
  let answer :=
    if positive then
      <["meeting_scheduled" := JBool true]>
        (<["wants_meeting" := JBool true]>
           (<["meeting_notes" := JStr userResponse]> ∅))
    else
      <["meeting_scheduled" := JBool true]>
        (<["wants_meeting" := JBool false]> ∅) in
  getNextStep clock lead (JStr userResponse) w
  = (Ok (if positive then
           {| type := "meeting_confirmed";
              message := "🎉 Great! An agent will reach out to you within the next hour to schedule the meeting. Thank you!" |}
         else
           {| type := "meeting_declined";
              message := "Thank you for your interest! We will keep your information on file and reach out if we find properties that match your criteria." |}),
     {| leads :=
          <[key := <["updated_at" := JStr (clock (time w))]>
                     (answer ∪ {["phone" := JStr key]})
                   ∪ default ∅ (leads w !! key)]> (leads w);
        time := S (time w) |}).
Proof.
  intros Hidx Hn Hms Hasked Hkey Hpos answer.
  unfold getNextStep. rewrite Hms, Hidx, Hasked.
  erewrite bind_lift; [| reflexivity].
  destruct (Z.ltb_spec n scriptLength) as [|_]; [lia |].
  cbn [andb negb].
  erewrite bind_lift; [| exact Hpos].
  subst answer. destruct positive.
  - erewrite bind_run; [reflexivity |].
    now apply saveLeadToSupabase_partial.
  - erewrite bind_run; [reflexivity |].
    now apply saveLeadToSupabase_partial.
Qed.

(** A lead whose [meeting_scheduled] is truthy gets the acknowledgement and
    the world stays as it is. *)
Lemma getNextStep_acknowledges (clock : nat -> string) (lead : gmap string jsval)
    (userResponse : jsval) (w : World) :
  truthy (lead !! "meeting_scheduled") = true ->
  getNextStep clock lead userResponse w
  = (Ok {| type := "already_handled";
           message := "Thanks for your message! Our team will be in touch shortly to confirm the meeting details." |},
     w).
Proof. intros H. unfold getNextStep. rewrite H. reflexivity. Qed.

Lemma isPositiveResponse_total (userResponse : string) :
  exists positive, isPositiveResponse (Some (JStr userResponse)) = Ok positive.
Proof.
  unfold isPositiveResponse. destruct userResponse; eexists; reflexivity.
Qed.

(** ** Conversation state machine *)

(** C1: with [meeting_scheduled] true, [getNextStep] answers any message
    with the fixed acknowledgement, writes nothing and reads no clock: the
    world after is the world before. *)
Theorem getNextStep_terminal (clock : nat -> string) (lead : gmap string jsval)
    (userResponse : jsval) (w : World) :
  lead !! "meeting_scheduled" = Some (JBool true) ->
  getNextStep clock lead userResponse w
  = (Ok {| type := "already_handled";
           message := "Thanks for your message! Our team will be in touch shortly to confirm the meeting details." |},
     w).
Proof. intros H. apply getNextStep_acknowledges. now rewrite H. Qed.

Lemma getNextStep_terminal_witness :
  scheduledLead !! "meeting_scheduled" = Some (JBool true)
  /\ getNextStep sampleClock scheduledLead (JStr "are you there?") emptyWorld
     = (Ok {| type := "already_handled";
              message := "Thanks for your message! Our team will be in touch shortly to confirm the meeting details." |},
        emptyWorld).
Proof.
  split; [reflexivity |].
  apply (getNextStep_terminal sampleClock scheduledLead (JStr "are you there?") emptyWorld).
  reflexivity.
Defined.

Lemma js_or_number (lead : gmap string jsval) (n : Z) :
  lead !! "current_question_index" = Some (JNum n) ->
  js_or (lead !! "current_question_index") (JNum 0) = JNum n.
Proof.
  intros ->. unfold js_or, truthy. destruct (Z.eqb_spec n 0) as [->|]; reflexivity.
Qed.

(** C8: a lead at index 0 whose meeting is not scheduled sends "Phoenix":
    the reply is the prompt of the script entry at index 1, the one for
    [home_type]; the saved row has [location] "Phoenix", whatever the lead
    held there, and index 1; every other column but the time stamp is the
    lead's, and no other row changes. *)
Theorem getNextStep_first_answer (clock : nat -> string) (lead : gmap string jsval)
    (p : string) (w : World) :
  lead !! "current_question_index" = Some (JNum 0) ->
  lead !! "meeting_scheduled" = Some (JBool false) ->
  lead !! "phone" = Some (JStr p) ->
  exists (row : gmap string jsval) (w' : World),
    getNextStep clock lead (JStr "Phoenix") w
    = (Ok {| type := "question";
             message := "What type of home are you looking for? (house, condo, apartment, etc.)" |},
       w')
    /\ nth_error QUALIFICATION_QUESTIONS 1
       = Some {| field := "home_type";
                 question := "What type of home are you looking for? (house, condo, apartment, etc.)" |}
    /\ leads w' !! p = Some row
    /\ row !! "location" = Some (JStr "Phoenix")
    /\ row !! "current_question_index" = Some (JNum 1)
    /\ (forall name,
          name <> "location" -> name <> "current_question_index" ->
          name <> "updated_at" ->
          row !! name = (lead ∪ default ∅ (leads w !! p)) !! name)
    /\ (forall key, key <> p -> leads w' !! key = leads w !! key).
Proof.
  intros Hidx Hms Hp.
  assert (Hfalse : truthy (lead !! "meeting_scheduled") = false) by now rewrite Hms.
  pose proof (getNextStep_question clock lead 0 _ _ "Phoenix" p w
                (js_or_number _ _ Hidx) Hfalse eq_refl eq_refl Hp) as Hrun.
  eexists _, _. split; [exact Hrun |].
  cbn [leads field question]. split; [reflexivity |].
  split; [apply lookup_insert_eq |].
  split; [apply lookup_union_Some_l; now rewrite !lookup_insert_ne, lookup_insert_eq by done |].
  split; [apply lookup_union_Some_l; now rewrite !lookup_insert_ne, lookup_insert_eq by done |].
  split.
  - intros name H1 H2 H3. rewrite !lookup_union.
    now rewrite !lookup_insert_ne by done.
  - intros key Hkey. now rewrite lookup_insert_ne.
Qed.

Lemma getNextStep_first_answer_witness :
  exists (row : gmap string jsval) (w' : World),
    getNextStep sampleClock (defaultLead "15551234567" (sampleClock 0)) (JStr "Phoenix")
      emptyWorld
    = (Ok {| type := "question";
             message := "What type of home are you looking for? (house, condo, apartment, etc.)" |},
       w')
    /\ nth_error QUALIFICATION_QUESTIONS 1
       = Some {| field := "home_type";
                 question := "What type of home are you looking for? (house, condo, apartment, etc.)" |}
    /\ leads w' !! "15551234567" = Some row
    /\ row !! "location" = Some (JStr "Phoenix")
    /\ row !! "current_question_index" = Some (JNum 1)
    /\ (forall name,
          name <> "location" -> name <> "current_question_index" ->
          name <> "updated_at" ->
          row !! name
          = (defaultLead "15551234567" (sampleClock 0)
             ∪ default ∅ (leads emptyWorld !! "15551234567")) !! name)
    /\ (forall key, key <> "15551234567" -> leads w' !! key = leads emptyWorld !! key).
Proof.
  apply (getNextStep_first_answer sampleClock
           (defaultLead "15551234567" (sampleClock 0)) "15551234567" emptyWorld);
    reflexivity.
Defined.

Lemma calculateLeadScore_tier (lead : gmap string jsval) (tier : string) :
  calculateLeadScore lead = Ok tier -> In tier ["hot"; "warm"; "cold"].
Proof.
  unfold calculateLeadScore.
  destruct (isUrgent lead) as [urgent| |]; try discriminate.
  destruct (hasStrongBudget lead) as [strong| |]; try discriminate.
  cbn [mbind result_bind].
  destruct (_ && _ && _); [| destruct (_ <=? _)%nat];
    intros [= <-]; simpl; tauto.
Qed.

(** C4: a lead at index 6 whose meeting is not scheduled answers "not
    sure": the saved row has [motivation] "unknown", index 7,
    [qualification_complete] true, the tier the scorer gives for the lead's
    fields with that answer as [lead_score], and [asked_for_meeting] true;
    the reply is the scheduling offer and contains the tier word. *)
Theorem getNextStep_last_answer (clock : nat -> string) (lead : gmap string jsval)
    (p : string) (w : World) :
  lead !! "current_question_index" = Some (JNum 6) ->
  lead !! "meeting_scheduled" = Some (JBool false) ->
  lead !! "phone" = Some (JStr p) ->
  normalizePhone (Some (JStr p)) = Ok p ->
  holdsText (lead !! "timeline") = true ->
  holdsText (lead !! "budget") = true ->
  exists (tier : string) (step : Step) (row : gmap string jsval) (w' : World),
    calculateLeadScore (<["motivation" := JStr "unknown"]> lead) = Ok tier
    /\ In tier ["hot"; "warm"; "cold"]
    /\ getNextStep clock lead (JStr "not sure") w = (Ok step, w')
    /\ type step = "scheduling"
    /\ includes (message step) tier = true
    /\ leads w' !! p = Some row
    /\ row !! "motivation" = Some (JStr "unknown")
    /\ row !! "current_question_index" = Some (JNum 7)
    /\ row !! "qualification_complete" = Some (JBool true)
    /\ row !! "lead_score" = Some (JStr tier)
    /\ row !! "asked_for_meeting" = Some (JBool true).
Proof.
  intros Hidx Hms Hp Hnorm Ht Hb.
  rewrite normalizePhone_text in Hnorm. injection Hnorm as Hnorm.
  destruct (calculateLeadScore_total
              (<["motivation" := JStr "unknown"]> lead)) as [tier Htier].
  { now rewrite lookup_insert_ne. }
  { now rewrite lookup_insert_ne. }
  assert (Hfalse : truthy (lead !! "meeting_scheduled") = false) by now rewrite Hms.
  pose proof (getNextStep_last clock lead "not sure" p tier w
                (js_or_number _ _ Hidx) Hfalse Hp Htier) as Hrun.
  cbv zeta in Hrun. rewrite Hnorm in Hrun.
  exists tier. eexists _, _, _.
  split; [exact Htier |].
  split; [exact (calculateLeadScore_tier _ _ Htier) |].
  split; [exact Hrun |].
  cbn [type message leads].
  split; [reflexivity |].
  split; [apply schedulingOffer_includes |].
  split; [apply lookup_insert_eq |].
  rewrite lookup_insert_eq. cbn [default].
  repeat split.
  - rewrite lookup_union_r by done. apply lookup_union_Some_l.
    now rewrite !lookup_insert_ne, lookup_insert_eq by done.
  - rewrite lookup_union_r by done. apply lookup_union_Some_l.
    now rewrite !lookup_insert_ne, lookup_insert_eq by done.
  - rewrite lookup_union_r by done. apply lookup_union_Some_l.
    now rewrite !lookup_insert_ne, lookup_insert_eq by done.
  - rewrite lookup_union_r by done. apply lookup_union_Some_l.
    now rewrite !lookup_insert_ne, lookup_insert_eq by done.
  - apply lookup_union_Some_l. done.
Qed.

Lemma getNextStep_last_answer_witness :
  exists (tier : string) (step : Step) (row : gmap string jsval) (w' : World),
    calculateLeadScore (<["motivation" := JStr "unknown"]> answeredLead) = Ok tier
    /\ In tier ["hot"; "warm"; "cold"]
    /\ getNextStep sampleClock answeredLead (JStr "not sure") emptyWorld = (Ok step, w')
    /\ type step = "scheduling"
    /\ includes (message step) tier = true
    /\ leads w' !! "15551234567" = Some row
    /\ row !! "motivation" = Some (JStr "unknown")
    /\ row !! "current_question_index" = Some (JNum 7)
    /\ row !! "qualification_complete" = Some (JBool true)
    /\ row !! "lead_score" = Some (JStr tier)
    /\ row !! "asked_for_meeting" = Some (JBool true).
Proof.
  apply (getNextStep_last_answer sampleClock answeredLead "15551234567" emptyWorld);
    reflexivity.
Defined.

(** C5: a lead that was offered a meeting, has none scheduled and is past
    the script answers the offer.  An affirmative message saves
    [meeting_scheduled] true, [wants_meeting] true and the raw text as
    [meeting_notes], and the reply is the confirmation; any other message
    saves [meeting_scheduled] true and [wants_meeting] false, leaves
    [meeting_notes] as it was, and the reply is the decline acknowledgement.
    No column other than these, the key and the time stamp changes.
    "yeah let's do it" is affirmative. *)
Theorem getNextStep_scheduling_response :
  (forall (clock : nat -> string) (lead : gmap string jsval) (n : Z)
          (userResponse key : string) (w : World),
      lead !! "asked_for_meeting" = Some (JBool true) ->
      lead !! "meeting_scheduled" = Some (JBool false) ->
      lead !! "current_question_index" = Some (JNum n) ->
      scriptLength <= n ->
      normalizePhone (lead !! "phone") = Ok key ->
      exists (positive : bool) (row : gmap string jsval) (w' : World),
        isPositiveResponse (Some (JStr userResponse)) = Ok positive
        /\ getNextStep clock lead (JStr userResponse) w
           = (Ok (if positive then
                    {| type := "meeting_confirmed";
                       message := "🎉 Great! An agent will reach out to you within the next hour to schedule the meeting. Thank you!" |}
                  else
                    {| type := "meeting_declined";
                       message := "Thank you for your interest! We will keep your information on file and reach out if we find properties that match your criteria." |}),
              w')
        /\ leads w' !! key = Some row
        /\ row !! "meeting_scheduled" = Some (JBool true)
        /\ row !! "wants_meeting" = Some (JBool positive)
        /\ row !! "meeting_notes"
           = (if positive then Some (JStr userResponse)
              else default ∅ (leads w !! key) !! "meeting_notes")
        /\ (forall name,
              name <> "meeting_scheduled" -> name <> "wants_meeting" ->
              name <> "meeting_notes" -> name <> "phone" -> name <> "updated_at" ->
              row !! name = default ∅ (leads w !! key) !! name))
  /\ isPositiveResponse (Some (JStr "yeah let's do it")) = Ok true.
Proof.
  split; [| reflexivity].
  intros clock lead n userResponse key w Hasked Hms Hidx Hn Hkey.
  destruct (isPositiveResponse_total userResponse) as [positive Hpos].
  assert (Hfalse : truthy (lead !! "meeting_scheduled") = false) by now rewrite Hms.
  assert (Htrue : truthy (lead !! "asked_for_meeting") = true) by now rewrite Hasked.
  pose proof (getNextStep_scheduling clock lead n userResponse key positive w
                (js_or_number _ _ Hidx) Hn Hfalse Htrue Hkey Hpos) as Hrun.
  cbv zeta in Hrun.
  exists positive. eexists _, _.
  split; [exact Hpos |]. split; [exact Hrun |].
  cbn [leads]. split; [apply lookup_insert_eq |].
  destruct positive.
  - repeat split.
    + apply lookup_union_Some_l. done.
    + apply lookup_union_Some_l. done.
    + apply lookup_union_Some_l. done.
    + intros name H1 H2 H3 H4 H5. rewrite lookup_union_r; [reflexivity |].
      rewrite lookup_insert_ne by done. rewrite lookup_union_r.
      * now apply lookup_singleton_ne.
      * now rewrite !lookup_insert_ne by done.
  - repeat split.
    + apply lookup_union_Some_l. done.
    + apply lookup_union_Some_l. done.
    + rewrite lookup_union_r; [reflexivity | done].
    + intros name H1 H2 H3 H4 H5. rewrite lookup_union_r; [reflexivity |].
      rewrite lookup_insert_ne by done. rewrite lookup_union_r.
      * now apply lookup_singleton_ne.
      * now rewrite !lookup_insert_ne by done.
Qed.

Lemma getNextStep_scheduling_response_witness :
  exists (row : gmap string jsval) (w' : World),
    getNextStep sampleClock offeredLead (JStr "yeah let's do it") emptyWorld
    = (Ok {| type := "meeting_confirmed";
             message := "🎉 Great! An agent will reach out to you within the next hour to schedule the meeting. Thank you!" |},
       w')
    /\ leads w' !! "15551234567" = Some row
    /\ row !! "meeting_scheduled" = Some (JBool true)
    /\ row !! "wants_meeting" = Some (JBool true)
    /\ row !! "meeting_notes" = Some (JStr "yeah let's do it").
Proof.
  destruct (proj1 getNextStep_scheduling_response sampleClock offeredLead 7
              "yeah let's do it" "15551234567" emptyWorld
              eq_refl eq_refl eq_refl ltac:(discriminate) eq_refl)
    as (positive & row & w' & Hpos & Hrun & Hrow & Hms & Hwants & Hnotes & _).
  assert (positive = true) as -> by (vm_compute in Hpos; congruence).
  exists row, w'. repeat split; assumption.
Defined.

(** C10: a message whose lower-cased text contains a word of the
    affirmative lexicon is affirmative, whatever surrounds the word.  "not
    sure" is affirmative through "sure": answering the scheduling offer with
    it saves [meeting_scheduled] true, [wants_meeting] true and
    [meeting_notes] "not sure", while the same text as an interview answer
    is stored as "unknown". *)
Theorem isPositiveResponse_ignores_negation :
  (forall message word : string,
      In word positiveWords ->
      (exists before after, toLowerCase message = before ++ word ++ after) ->
      isPositiveResponse (Some (JStr message)) = Ok true)
  /\ In "sure" positiveWords
  /\ toLowerCase "not sure" = "not " ++ "sure" ++ ""
  /\ isPositiveResponse (Some (JStr "not sure")) = Ok true
  /\ (forall (clock : nat -> string) (lead : gmap string jsval) (n : Z)
             (key : string) (w : World),
        lead !! "asked_for_meeting" = Some (JBool true) ->
        lead !! "meeting_scheduled" = Some (JBool false) ->
        lead !! "current_question_index" = Some (JNum n) ->
        scriptLength <= n ->
        normalizePhone (lead !! "phone") = Ok key ->
        exists (row : gmap string jsval) (w' : World),
          getNextStep clock lead (JStr "not sure") w
          = (Ok {| type := "meeting_confirmed";
                   message := "🎉 Great! An agent will reach out to you within the next hour to schedule the meeting. Thank you!" |},
             w')
          /\ leads w' !! key = Some row
          /\ row !! "meeting_scheduled" = Some (JBool true)
          /\ row !! "wants_meeting" = Some (JBool true)
          /\ row !! "meeting_notes" = Some (JStr "not sure"))
  /\ (forall (lead : gmap string jsval) (n : nat) (entry : Question),
        nth_error QUALIFICATION_QUESTIONS n = Some entry ->
        updateLeadField lead (JNum (Z.of_nat n)) (JStr "not sure")
        = Ok (<[field entry := JStr "unknown"]> lead)).
Proof.
  split.
  { intros message word Hin Hocc. apply includes_app in Hocc.
    now apply (isPositiveResponse_substring message word). }
  split; [simpl; tauto |].
  split; [reflexivity |].
  split; [reflexivity |].
  split.
  - intros clock lead n key w Hasked Hms Hidx Hn Hkey.
    assert (Hfalse : truthy (lead !! "meeting_scheduled") = false) by now rewrite Hms.
    assert (Htrue : truthy (lead !! "asked_for_meeting") = true) by now rewrite Hasked.
    pose proof (getNextStep_scheduling clock lead n "not sure" key true w
                  (js_or_number _ _ Hidx) Hn Hfalse Htrue Hkey eq_refl) as Hrun.
    cbv zeta in Hrun. eexists _, _. split; [exact Hrun |].
    cbn [leads]. split; [apply lookup_insert_eq |].
    repeat split; apply lookup_union_Some_l; done.
  - intros lead n entry Hn. apply (updateLeadField_interview lead n entry "not sure" Hn).
Qed.

Lemma isPositiveResponse_ignores_negation_witness :
  isPositiveResponse (Some (JStr "I am NOT SURE about that")) = Ok true
  /\ exists (row : gmap string jsval) (w' : World),
       getNextStep sampleClock offeredLead (JStr "not sure") emptyWorld
       = (Ok {| type := "meeting_confirmed";
                message := "🎉 Great! An agent will reach out to you within the next hour to schedule the meeting. Thank you!" |},
          w')
       /\ leads w' !! "15551234567" = Some row
       /\ row !! "meeting_scheduled" = Some (JBool true)
       /\ row !! "wants_meeting" = Some (JBool true)
       /\ row !! "meeting_notes" = Some (JStr "not sure").
Proof.
  split.
  - apply (proj1 isPositiveResponse_ignores_negation "I am NOT SURE about that" "sure").
    + simpl; tauto.
    + exists "i am not ", " about that". reflexivity.
  - apply (proj1 (proj2 (proj2 (proj2 (proj2 isPositiveResponse_ignores_negation))))
             sampleClock offeredLead 7 "15551234567" emptyWorld);
      first [reflexivity | discriminate].
Defined.

(** ** Reachable lead states *)

Lemma script_next (n : nat) :
  (n < 6)%nat ->
  exists entry next,
    nth_error QUALIFICATION_QUESTIONS n = Some entry
    /\ nth_error QUALIFICATION_QUESTIONS (S n) = Some next.
Proof.
  intros H. do 6 (destruct n as [|n]; [eexists _, _; split; reflexivity |]). lia.
Qed.

Lemma storesText_holdsText (v : option jsval) :
  storesText v = true -> holdsText v = true.
Proof. now destruct v as [[]|]. Qed.

Lemma storesText_saved (row : gmap string jsval) (name written : string) (v : string) :
  storesText (row !! name) = true ->
  storesText (<[written := JStr v]> row !! name) = true.
Proof.
  intros H. destruct (decide (written = name)) as [->|Hne].
  - now rewrite lookup_insert_eq.
  - now rewrite lookup_insert_ne.
Qed.

Lemma storesText_union (a b : gmap string jsval) (name : string) :
  storesText (a !! name) = true -> storesText ((a ∪ b) !! name) = true.
Proof.
  intros H. destruct (a !! name) as [v|] eqn:Hv; [| discriminate].
  now rewrite (lookup_union_Some_l a b name v Hv).
Qed.

(** An interview turn before the last question moves a lead to the next
    phase. *)
Lemma getNextStep_phase_question (clock : nat -> string) (lead : gmap string jsval)
    (n : nat) (key body : string) (w : World) :
  (n < 6)%nat ->
  replaceNonDigits key = key ->
  lead !! "phone" = Some (JStr key) ->
  lead !! "current_question_index" = Some (JNum (Z.of_nat n)) ->
  lead !! "meeting_scheduled" = Some (JBool false) ->
  lead !! "qualification_complete" = Some (JBool false) ->
  lead !! "asked_for_meeting" = Some (JBool false) ->
  storesText (lead !! "budget") = true ->
  storesText (lead !! "timeline") = true ->
  exists step row',
    getNextStep clock lead (JStr body) w
    = (Ok step,
       {| leads := <[key := row']> (leads w); time := S (time w) |})
    /\ phase (S n) key row'.
Proof.
  intros Hn Hkey Hp Hidx Hms Hqc Hasked Hb Ht.
  destruct (script_next n Hn) as (entry & next & Hentry & Hnext).
  assert (Hfalse : truthy (lead !! "meeting_scheduled") = false) by now rewrite Hms.
  pose proof (getNextStep_question clock lead n entry next body key w
                (js_or_number _ _ Hidx) Hfalse Hentry Hnext Hp) as Hrun.
  eexists _, _. split; [exact Hrun |].
  assert (Hne : forall name, In name ["phone"; "current_question_index"; "meeting_scheduled";
                                      "qualification_complete"; "asked_for_meeting"; "updated_at"] ->
                             field entry <> name).
  { clear -Hentry. intros name Hin. script_cases Hentry;
      simpl in Hin; intuition congruence. }
  assert (H7 : (7 <=? S n)%nat = false) by (apply Nat.leb_gt; lia).
  assert (H8 : (8 <=? S n)%nat = false) by (apply Nat.leb_gt; lia).
  unfold phase. rewrite H7, H8. repeat split.
  - lia.
  - exact Hkey.
  - apply lookup_union_Some_l. rewrite !lookup_insert_ne by done.
    rewrite lookup_insert_ne; [exact Hp | apply Hne; simpl; tauto].
  - apply lookup_union_Some_l. rewrite lookup_insert_ne by done.
    rewrite lookup_insert_eq. do 2 f_equal. unfold scriptLength. simpl length. lia.
  - apply lookup_union_Some_l. rewrite !lookup_insert_ne by done.
    rewrite lookup_insert_ne; [exact Hms | apply Hne; simpl; tauto].
  - apply lookup_union_Some_l. rewrite !lookup_insert_ne by done.
    rewrite lookup_insert_ne; [exact Hqc | apply Hne; simpl; tauto].
  - apply lookup_union_Some_l. rewrite !lookup_insert_ne by done.
    rewrite lookup_insert_ne; [exact Hasked | apply Hne; simpl; tauto].
  - apply storesText_union. rewrite !lookup_insert_ne by done.
    now apply storesText_saved.
  - apply storesText_union. rewrite !lookup_insert_ne by done.
    now apply storesText_saved.
Qed.

(** The turn that answers the last question moves a lead to phase 7. *)
Lemma getNextStep_phase_last (clock : nat -> string) (lead : gmap string jsval)
    (key body : string) (w : World) :
  replaceNonDigits key = key ->
  lead !! "phone" = Some (JStr key) ->
  lead !! "current_question_index" = Some (JNum 6) ->
  lead !! "meeting_scheduled" = Some (JBool false) ->
  storesText (lead !! "budget") = true ->
  storesText (lead !! "timeline") = true ->
  exists step row',
    getNextStep clock lead (JStr body) w
    = (Ok step,
       {| leads := <[key := row']> (leads w); time := S (S (time w)) |})
    /\ phase 7 key row'.
Proof.
  intros Hkey Hp Hidx Hms Hb Ht.
  destruct (calculateLeadScore_total
              (<["motivation" := JStr (storedAnswer body)]> lead)) as [tier Htier].
  { rewrite lookup_insert_ne by done. now apply storesText_holdsText. }
  { rewrite lookup_insert_ne by done. now apply storesText_holdsText. }
  assert (Hfalse : truthy (lead !! "meeting_scheduled") = false) by now rewrite Hms.
  pose proof (getNextStep_last clock lead body key tier w
                (js_or_number _ _ Hidx) Hfalse Hp Htier) as Hrun.
  cbv zeta in Hrun. rewrite Hkey in Hrun. cbn [leads] in Hrun.
  rewrite lookup_insert_eq, insert_insert_eq in Hrun. cbn [default] in Hrun.
  eexists _, _. split; [exact Hrun |].
  unfold phase. change (7 <=? 7)%nat with true. change (8 <=? 7)%nat with false.
  repeat split.
  - lia.
  - exact Hkey.
  - apply lookup_union_Some_l. done.
  - rewrite lookup_union_r by done. apply lookup_union_Some_l.
    now rewrite !lookup_insert_ne, lookup_insert_eq by done.
  - rewrite lookup_union_r by done. apply lookup_union_Some_l.
    rewrite !lookup_insert_ne by done. exact Hms.
  - rewrite lookup_union_r by done. apply lookup_union_Some_l.
    now rewrite !lookup_insert_ne, lookup_insert_eq by done.
  - apply lookup_union_Some_l. done.
  - rewrite lookup_union_r by done. apply storesText_union.
    now rewrite !lookup_insert_ne by done.
  - rewrite lookup_union_r by done. apply storesText_union.
    now rewrite !lookup_insert_ne by done.
Qed.

(** The answer to the scheduling offer moves a row to phase 8. *)
Lemma getNextStep_phase_scheduling (clock : nat -> string) (row : gmap string jsval)
    (key body : string) (w : World) :
  phase 7 key row ->
  leads w !! key = Some row ->
  exists step row',
    getNextStep clock row (JStr body) w
    = (Ok step,
       {| leads := <[key := row']> (leads w); time := S (time w) |})
    /\ phase 8 key row'.
Proof.
  intros (_ & Hkey & Hp & Hidx & Hms & Hqc & Hasked & Hb & Ht) Hrow.
  destruct (isPositiveResponse_total body) as [positive Hpos].
  assert (Hfalse : truthy (row !! "meeting_scheduled") = false) by now rewrite Hms.
  assert (Htrue : truthy (row !! "asked_for_meeting") = true) by now rewrite Hasked.
  assert (Hnorm : normalizePhone (row !! "phone") = Ok key).
  { rewrite Hp, normalizePhone_text. now rewrite Hkey. }
  pose proof (getNextStep_scheduling clock row 7 body key positive w
                (js_or_number _ _ Hidx) ltac:(reflexivity) Hfalse Htrue Hnorm Hpos) as Hrun.
  cbv zeta in Hrun. rewrite Hrow in Hrun. cbn [default] in Hrun.
  eexists _, _. split; [exact Hrun |].
  unfold phase. change (7 <=? 8)%nat with true. change (8 <=? 8)%nat with true.
  change (Z.min (Z.of_nat 8) scriptLength) with 7.
  change (Z.min (Z.of_nat 7) scriptLength) with 7 in Hidx.
  change (7 <=? 7)%nat with true in *.
  destruct positive; repeat split; try lia; try exact Hkey;
    try (apply lookup_union_Some_l; done);
    try (rewrite lookup_union_r by done; assumption).
Qed.

(** A later message leaves a row of phase 8 or more where it is. *)
Lemma getNextStep_phase_terminal (clock : nat -> string) (row : gmap string jsval)
    (N : nat) (key : string) (body : jsval) (w : World) :
  (8 <= N)%nat ->
  phase N key row ->
  exists step, getNextStep clock row body w = (Ok step, w) /\ phase (S N) key row.
Proof.
  intros HN (_ & Hkey & Hp & Hidx & Hms & Hqc & Hasked & Hb & Ht).
  assert (H8 : (8 <=? N)%nat = true) by (apply Nat.leb_le; lia).
  assert (H7 : (7 <=? N)%nat = true) by (apply Nat.leb_le; lia).
  assert (H8' : (8 <=? S N)%nat = true) by (apply Nat.leb_le; lia).
  assert (H7' : (7 <=? S N)%nat = true) by (apply Nat.leb_le; lia).
  rewrite H8 in Hms. rewrite H7 in Hqc, Hasked.
  eexists. split; [apply getNextStep_acknowledges; now rewrite Hms |].
  unfold phase. rewrite H7', H8'. repeat split; try assumption; try lia.
  rewrite Hidx. do 2 f_equal. unfold scriptLength. simpl length. lia.
Qed.

Lemma getCurrentLeadState_found (clock : nat -> string) (from : string)
    (row : gmap string jsval) (w : World) :
  leads w !! replaceNonDigits from = Some row ->
  getCurrentLeadState clock (Some (JStr from)) w = (Ok row, w).
Proof.
  intros H. unfold getCurrentLeadState.
  erewrite bind_lift; [| apply normalizePhone_text].
  erewrite bind_run; [| reflexivity]. now rewrite H.
Qed.

Lemma getCurrentLeadState_fresh (clock : nat -> string) (from : string) (w : World) :
  leads w !! replaceNonDigits from = None ->
  getCurrentLeadState clock (Some (JStr from)) w
  = (Ok (defaultLead (replaceNonDigits from) (clock (time w))),
     {| leads := leads w; time := S (time w) |}).
Proof.
  intros H. unfold getCurrentLeadState.
  erewrite bind_lift; [| apply normalizePhone_text].
  erewrite bind_run; [| reflexivity]. now rewrite H.
Qed.

Lemma inPhase_insert (count : string -> nat) (w : World) (key : string)
    (row' : gmap string jsval) (t : nat) :
  inPhase count w ->
  phase (S (count key)) key row' ->
  inPhase (oneMore key count) {| leads := <[key := row']> (leads w); time := t |}.
Proof.
  intros Hinv Hrow k. unfold oneMore. cbn [leads]. case_bool_decide as Hk.
  - subst k. now rewrite lookup_insert_eq.
  - rewrite lookup_insert_ne by done. apply Hinv.
Qed.

(** Handling a message keeps every row in the phase of its count. *)
Lemma handleConversation_phase (clock : nat -> string) (from body : string)
    (count : string -> nat) (w : World) :
  inPhase count w ->
  exists reply w',
    handleConversation clock (Some (JStr from)) (JStr body) w = (Ok reply, w')
    /\ inPhase (oneMore (replaceNonDigits from) count) w'.
Proof.
  intros Hinv. set (key := replaceNonDigits from).
  assert (Hkey : replaceNonDigits key = key) by apply replaceNonDigits_idem.
  unfold handleConversation. pose proof (Hinv key) as Hrow.
  destruct (leads w !! key) as [row|] eqn:Hlook.
  - erewrite bind_run; [| apply getCurrentLeadState_found; exact Hlook].
    destruct Hrow as (H1 & _ & Hp & Hidx & Hms & Hqc & Hasked & Hb & Ht).
    destruct (le_lt_dec 8 (count key)) as [H8|H8];
      [| destruct (le_lt_dec 7 (count key)) as [H7|H7];
         [| destruct (le_lt_dec 6 (count key)) as [H6|H6]]].
    + destruct (getNextStep_phase_terminal clock row (count key) key (JStr body) w H8)
        as (step & Hrun & Hphase).
      { unfold phase. tauto. }
      erewrite bind_run; [| exact Hrun].
      eexists _, _. split; [reflexivity |].
      intros k. unfold oneMore. case_bool_decide as Hk.
      * subst k. now rewrite Hlook.
      * apply Hinv.
    + assert (Hc : count key = 7%nat) by lia.
      destruct (getNextStep_phase_scheduling clock row key body w)
        as (step & row' & Hrun & Hphase); [| exact Hlook |].
      { rewrite <- Hc. unfold phase. tauto. }
      erewrite bind_run; [| exact Hrun].
      eexists _, _. split; [reflexivity |].
      apply inPhase_insert; [exact Hinv | now rewrite Hc].
    + assert (Hc : count key = 6%nat) by lia. rewrite Hc in *.
      destruct (getNextStep_phase_last clock row key body w Hkey Hp Hidx Hms Hb Ht)
        as (step & row' & Hrun & Hphase).
      erewrite bind_run; [| exact Hrun].
      eexists _, _. split; [reflexivity |].
      apply inPhase_insert; [exact Hinv | now rewrite Hc].
    + assert (Hlt7 : (7 <=? count key)%nat = false) by (apply Nat.leb_gt; lia).
      assert (Hlt8 : (8 <=? count key)%nat = false) by (apply Nat.leb_gt; lia).
      rewrite Hlt7 in Hqc, Hasked. rewrite Hlt8 in Hms.
      replace (Z.min (Z.of_nat (count key)) scriptLength) with (Z.of_nat (count key)) in Hidx
        by (unfold scriptLength; simpl length; lia).
      destruct (getNextStep_phase_question clock row (count key) key body w
                  H6 Hkey Hp Hidx Hms Hqc Hasked Hb Ht)
        as (step & row' & Hrun & Hphase).
      erewrite bind_run; [| exact Hrun].
      eexists _, _. split; [reflexivity |].
      now apply inPhase_insert.
  - erewrite bind_run; [| apply getCurrentLeadState_fresh; exact Hlook].
    destruct (getNextStep_phase_question clock
                (defaultLead key (clock (time w))) 0 key body
                {| leads := leads w; time := S (time w) |})
      as (step & row' & Hrun & Hphase); try reflexivity; [lia | exact Hkey |].
    erewrite bind_run; [| exact Hrun].
    eexists _, _. split; [reflexivity |]. cbn [leads time].
    apply (inPhase_insert count w key row' _ Hinv). now rewrite Hrow.
Qed.

Lemma inPhase_ext (count count' : string -> nat) (w : World) :
  (forall key, count key = count' key) -> inPhase count w -> inPhase count' w.
Proof. intros Heq H key. rewrite <- Heq. apply H. Qed.

Lemma handleAll_phase (clock : nat -> string) (inbound : list (string * string)) :
  forall (count : string -> nat) (w : World),
    inPhase count w ->
    exists replies w',
      handleAll clock inbound w = (Ok replies, w')
      /\ inPhase (fun key => (count key + turnsUnder key inbound)%nat) w'.
Proof.
  induction inbound as [|[sender body] rest IH]; intros count w Hinv.
  - exists [], w. split; [reflexivity |].
    apply (inPhase_ext count); [intros key; unfold turnsUnder; simpl; lia | exact Hinv].
  - destruct (handleConversation_phase clock sender body count w Hinv)
      as (reply & w1 & Hrun & Hinv1).
    destruct (IH _ w1 Hinv1) as (replies & w' & Hrest & Hinv').
    exists (reply :: replies), w'. split.
    + cbn [handleAll]. erewrite bind_run; [| exact Hrun].
      erewrite bind_run; [| exact Hrest]. reflexivity.
    + eapply inPhase_ext; [| exact Hinv']. intros key. unfold oneMore, turnsUnder.
      cbn [List.filter fst].
      rewrite (bool_decide_ext (replaceNonDigits sender = key) (key = replaceNonDigits sender))
        by (split; congruence).
      case_bool_decide; simpl; lia.
Qed.

Lemma turnsOf_turnsUnder (from : string) (inbound : list (string * string)) :
  turnsOf from inbound = turnsUnder (replaceNonDigits from) inbound.
Proof.
  unfold turnsOf, turnsUnder. f_equal. apply List.filter_ext. intros [sender body].
  unfold sameLead. rewrite !normalizePhone_text. cbn [fst].
  apply bool_decide_ext. split; congruence.
Qed.

(** C3: from the empty store, after any inbound messages, the state loaded
    for a lead with [N] messages handled has [current_question_index] equal
    to the smaller of [N] and the script length, which is 7, and
    [qualification_complete] true exactly when the index is the script
    length. *)
Theorem interview_progress (clock : nat -> string) (inbound : list (string * string))
    (from : string) (w0 : World) :
  leads w0 = ∅ ->
  exists (replies : list string) (w : World) (lead : gmap string jsval) (w' : World),
    handleAll clock inbound w0 = (Ok replies, w)
    /\ getCurrentLeadState clock (Some (JStr from)) w = (Ok lead, w')
    /\ lead !! "current_question_index"
       = Some (JNum (Z.min (Z.of_nat (turnsOf from inbound)) scriptLength))
    /\ Z.min (Z.of_nat (turnsOf from inbound)) scriptLength <= scriptLength
    /\ scriptLength = 7
    /\ (lead !! "qualification_complete" = Some (JBool true)
        <-> lead !! "current_question_index" = Some (JNum scriptLength)).
Proof.
  intros Hempty.
  destruct (handleAll_phase clock inbound (fun _ => 0%nat) w0) as (replies & w & Hrun & Hinv).
  { intros key. now rewrite Hempty, lookup_empty. }
  specialize (Hinv (replaceNonDigits from)). cbn beta in Hinv.
  rewrite Nat.add_0_l, <- turnsOf_turnsUnder in Hinv.
  exists replies, w.
  destruct (leads w !! replaceNonDigits from) as [row|] eqn:Hlook.
  - exists row, w. split; [exact Hrun |].
    split; [now apply getCurrentLeadState_found |].
    destruct Hinv as (_ & _ & _ & Hidx & _ & Hqc & _).
    split; [exact Hidx |]. split; [lia |]. split; [reflexivity |].
    rewrite Hidx, Hqc. split.
    + intros H0. assert (H : (7 <=? turnsOf from inbound)%nat = true) by congruence.
      apply Nat.leb_le in H. do 2 f_equal.
      unfold scriptLength. simpl length. lia.
    + intros H%(inj Some)%JNum_inj. do 2 f_equal. apply Nat.leb_le.
      unfold scriptLength in H. simpl length in H. lia.
  - eexists _, _. split; [exact Hrun |].
    split; [now apply getCurrentLeadState_fresh |].
    rewrite Hinv. repeat split; try reflexivity; discriminate.
Qed.

Lemma interview_progress_witness :
  leads emptyWorld = ∅
  /\ turnsOf "whatsapp:+15551234567" sampleInbound = 9%nat
  /\ exists (replies : list string) (w : World) (lead : gmap string jsval) (w' : World),
       handleAll sampleClock sampleInbound emptyWorld = (Ok replies, w)
       /\ getCurrentLeadState sampleClock (Some (JStr "whatsapp:+15551234567")) w
          = (Ok lead, w')
       /\ lead !! "current_question_index"
          = Some (JNum (Z.min (Z.of_nat (turnsOf "whatsapp:+15551234567" sampleInbound))
                              scriptLength))
       /\ Z.min (Z.of_nat (turnsOf "whatsapp:+15551234567" sampleInbound)) scriptLength
          <= scriptLength
       /\ scriptLength = 7
       /\ (lead !! "qualification_complete" = Some (JBool true)
           <-> lead !! "current_question_index" = Some (JNum scriptLength)).
Proof.
  split; [reflexivity |]. split; [reflexivity |].
  apply (interview_progress sampleClock sampleInbound "whatsapp:+15551234567" emptyWorld).
  reflexivity.
Defined.

(** * Further properties of the state machine *)

(** ** Failure writes nothing *)

Lemma saveLeadToSupabase_fails (clock : nat -> string) (phone : option jsval)
    (updates : gmap string jsval) (w : World) :
  (forall norm, normalizePhone phone <> Ok norm) ->
  exists r, (forall b, r <> Ok b) /\ saveLeadToSupabase clock phone updates w = (r, w).
Proof.
  intros H. unfold saveLeadToSupabase, mbind, M_bind, lift.
  destruct (normalizePhone phone) as [norm| |].
  - now destruct (H norm).
  - exists TypeError. split; [discriminate | reflexivity].
  - exists Stuck. split; [discriminate | reflexivity].
Qed.

Lemma saveLeadToSupabase_succeeds (clock : nat -> string) (phone : option jsval)
    (updates : gmap string jsval) (norm : string) (w : World) :
  normalizePhone phone = Ok norm ->
  exists b w1, saveLeadToSupabase clock phone updates w = (Ok b, w1).
Proof.
  intros H. unfold saveLeadToSupabase, mbind, M_bind, lift, now, upsertLead.
  rewrite H. cbn [leads time].
  destruct (_ !! "phone") as [[| | |key]|]; eexists _, _; reflexivity.
Qed.

Lemma normalizePhone_cases (phone : option jsval) :
  (exists norm, normalizePhone phone = Ok norm)
  \/ (forall norm, normalizePhone phone <> Ok norm).
Proof. destruct (normalizePhone phone); [left; eauto | right; discriminate ..]. Qed.

Lemma bind_fails {A B : Type} (m : M A) (f : A -> M B) (r : result A) (w w' : World) :
  m w = (r, w') -> (forall a, r <> Ok a) ->
  exists r', (forall b, r' <> Ok b) /\ (m ≫= f) w = (r', w').
Proof.
  intros H Hr. unfold mbind, M_bind. rewrite H. destruct r as [a| |].
  - now destruct (Hr a).
  - exists TypeError. split; [discriminate | reflexivity].
  - exists Stuck. split; [discriminate | reflexivity].
Qed.

Lemma bind_lift_fails {A B : Type} (r : result A) (f : A -> M B) (w : World) :
  (forall a, r <> Ok a) ->
  exists r', (forall b, r' <> Ok b) /\ (lift r ≫= f) w = (r', w).
Proof. intros Hr. now apply (bind_fails (lift r) f r w w). Qed.

(** Either a step is returned, or the world is the one before the call. *)
Lemma getNextStep_outcome (clock : nat -> string) (lead : gmap string jsval)
    (userResponse : jsval) (w : World) :
  (exists step w', getNextStep clock lead userResponse w = (Ok step, w'))
  \/ (exists r, (forall step, r <> Ok step)
                /\ getNextStep clock lead userResponse w = (r, w)).
Proof.
  unfold getNextStep.
  destruct (truthy (lead !! "meeting_scheduled")); [left; eexists _, _; reflexivity |].
  generalize (js_or (lead !! "current_question_index") (JNum 0)). intros currentIndex.
  destruct (js_lt currentIndex scriptLength) as [asking| |] eqn:Hlt;
    [| right; apply bind_lift_fails; discriminate ..].
  erewrite bind_lift; [| reflexivity].
  destruct asking.
  - destruct (updateLeadField lead currentIndex userResponse) as [updated| |] eqn:Hupd;
      [| right; apply bind_lift_fails; discriminate ..].
    erewrite bind_lift; [| reflexivity].
    (* the index is a number inside the script *)
    assert (Hnum : exists n, currentIndex = JNum (Z.of_nat n)
                             /\ (n < length QUALIFICATION_QUESTIONS)%nat).
    { unfold updateLeadField, js_ge in Hupd. unfold js_lt in Hlt.
      destruct currentIndex as [|b|n|s]; cbn in Hlt, Hupd; try discriminate.
      - destruct b; discriminate.
      - assert (Hlt' : (n <? scriptLength) = true) by congruence.
        apply Z.ltb_lt in Hlt'. change scriptLength with 7 in Hlt'.
        change (Z.of_nat 7) with 7 in Hupd.
        destruct (Z.leb_spec 7 n) as [|_]; [lia |].
        destruct (Z.leb_spec 0 n) as [Hn|]; [| discriminate].
        exists (Z.to_nat n). split; [now rewrite Z2Nat.id |].
        simpl length. lia. }
    destruct Hnum as (n & Hidx & Hn). rewrite Hidx.
    erewrite bind_lift; [| reflexivity].
    set (next := JNum (Z.of_nat n + 1)).
    match goal with
    | |- context [(?scored ≫= ?k) w] =>
        assert (Hscored :
          (exists final, scored w = (Ok final, w))
          \/ (exists r, (forall a, r <> Ok a) /\ scored w = (r, w)))
    end.
    { case_bool_decide.
      - destruct (calculateLeadScore _) as [tier| |] eqn:Hs.
        + left. eexists. reflexivity.
        + right. apply bind_lift_fails. discriminate.
        + right. apply bind_lift_fails. discriminate.
      - left. eexists. reflexivity. }
    destruct Hscored as [[final Hfinal] | (r & Hr & Hfail)]; cycle 1.
    { right. eapply bind_fails; eassumption. }
    erewrite bind_run; [| exact Hfinal].
    destruct (normalizePhone_cases (lead !! "phone")) as [[norm Hnorm] | Hbad]; cycle 1.
    { right. destruct (saveLeadToSupabase_fails clock _ final w Hbad) as (r & Hr & Hsave).
      eapply bind_fails; eassumption. }
    left.
    destruct (saveLeadToSupabase_succeeds clock _ final norm w Hnorm) as (b & w1 & Hsave).
    erewrite bind_run; [| exact Hsave].
    erewrite bind_lift; [| reflexivity].
    destruct (Z.ltb_spec (Z.of_nat n + 1) scriptLength) as [Hmore|Hdone].
    + assert (Hentry : exists entry,
                 nth_error QUALIFICATION_QUESTIONS (S n) = Some entry).
      { destruct (nth_error QUALIFICATION_QUESTIONS (S n)) eqn:He; [eauto |].
        apply nth_error_None in He. unfold scriptLength in Hmore. lia. }
      destruct Hentry as [entry Hentry].
      erewrite bind_lift; cycle 1.
      { unfold next, elementAt. destruct (Z.leb_spec 0 (Z.of_nat n + 1)); [| lia].
        replace (Z.to_nat (Z.of_nat n + 1)) with (S n) by lia.
        rewrite Hentry. reflexivity. }
      eexists _, _. reflexivity.
    + destruct (saveLeadToSupabase_succeeds clock (lead !! "phone")
                  {["asked_for_meeting" := JBool true]} norm w1 Hnorm)
        as (b2 & w2 & Hsave2).
      erewrite bind_run; [| exact Hsave2].
      eexists _, _. reflexivity.
  - destruct (truthy (lead !! "asked_for_meeting") && negb false);
      [| left; eexists _, _; reflexivity].
    destruct (isPositiveResponse (Some userResponse)) as [positive| |] eqn:Hpos;
      [| right; apply bind_lift_fails; discriminate ..].
    erewrite bind_lift; [| reflexivity].
    destruct (normalizePhone_cases (lead !! "phone")) as [[norm Hnorm] | Hbad].
    + left. destruct positive.
      * edestruct (saveLeadToSupabase_succeeds clock (lead !! "phone")) as (b & w1 & Hsave);
          [exact Hnorm |].
        erewrite bind_run; [| exact Hsave]. eexists _, _. reflexivity.
      * edestruct (saveLeadToSupabase_succeeds clock (lead !! "phone")) as (b & w1 & Hsave);
          [exact Hnorm |].
        erewrite bind_run; [| exact Hsave]. eexists _, _. reflexivity.
    + right. destruct positive.
      * edestruct (saveLeadToSupabase_fails clock (lead !! "phone")) as (r & Hr & Hsave);
          [exact Hbad |].
        eapply bind_fails; eassumption.
      * edestruct (saveLeadToSupabase_fails clock (lead !! "phone")) as (r & Hr & Hsave);
          [exact Hbad |].
        eapply bind_fails; eassumption.
Qed.

Lemma neverStuck_ret {A : Type} (a : A) : neverStuck (mret a).
Proof. intros w. discriminate. Qed.

Lemma neverStuck_bind {A B : Type} (m : M A) (f : A -> M B) :
  neverStuck m -> (forall a, neverStuck (f a)) -> neverStuck (m ≫= f).
Proof.
  intros Hm Hf w. unfold mbind, M_bind. specialize (Hm w).
  destruct (m w) as [[a| |] w1]; [apply Hf | discriminate | now destruct Hm].
Qed.

Lemma neverStuck_bind_lift {A B : Type} (r : result A) (f : A -> M B) :
  r <> Stuck -> (forall a, r = Ok a -> neverStuck (f a)) -> neverStuck (lift r ≫= f).
Proof.
  intros Hr Hf w. unfold mbind, M_bind, lift.
  destruct r as [a| |]; [now apply Hf | discriminate | now destruct Hr].
Qed.

Lemma normalizePhone_not_stuck (phone : option jsval) : normalizePhone phone <> Stuck.
Proof.
  unfold normalizePhone. destruct (negb (truthy phone)); [discriminate |].
  destruct phone as [[| | |p]|]; cbn; try discriminate.
  now destruct (includes p "whatsapp:+").
Qed.

Lemma saveLeadToSupabase_neverStuck (clock : nat -> string) (phone : option jsval)
    (updates : gmap string jsval) :
  neverStuck (saveLeadToSupabase clock phone updates).
Proof.
  unfold saveLeadToSupabase.
  apply neverStuck_bind_lift; [apply normalizePhone_not_stuck | intros norm _].
  apply neverStuck_bind; [intros w; discriminate | intros updated_at].
  intros w. unfold upsertLead. now destruct (_ !! "phone") as [[| | |key]|].
Qed.

Lemma asString_not_stuck (v : option jsval) : asString v <> Stuck.
Proof. now destruct v as [[| | |s]|]. Qed.

Lemma calculateLeadScore_not_stuck (lead : gmap string jsval) :
  calculateLeadScore lead <> Stuck.
Proof.
  assert (Hu : isUrgent lead <> Stuck).
  { unfold isUrgent.
    pose proof (asString_not_stuck (Some (js_or (lead !! "timeline") (JStr "")))) as H.
    now destruct (asString _). }
  assert (Hs : hasStrongBudget lead <> Stuck).
  { unfold hasStrongBudget. destruct (truthy _); [| discriminate].
    pose proof (asString_not_stuck (lead !! "budget")) as H.
    now destruct (asString _). }
  unfold calculateLeadScore.
  destruct (isUrgent lead) as [urgent| |]; cbn [mbind result_bind];
    [| discriminate | now destruct Hu].
  destruct (hasStrongBudget lead) as [strong| |]; cbn [mbind result_bind];
    [| discriminate | now destruct Hs].
  destruct ((5 <=? filledCount lead)%nat && urgent && strong); [discriminate |].
  now destruct (4 <=? filledCount lead)%nat.
Qed.

Lemma isPositiveResponse_not_stuck (message : option jsval) :
  isPositiveResponse message <> Stuck.
Proof.
  unfold isPositiveResponse. destruct (negb (truthy message)); [discriminate |].
  now destruct message as [[| | |text]|].
Qed.

Lemma updateLeadField_not_stuck (lead : gmap string jsval)
    (currentQuestionIndex userResponse : jsval) :
  (forall s, currentQuestionIndex <> JStr s) ->
  updateLeadField lead currentQuestionIndex userResponse <> Stuck.
Proof.
  intros Hidx. unfold updateLeadField, js_ge, elementAt.
  destruct currentQuestionIndex as [|b|n|s]; cbn [toNumber mbind result_bind];
    [| | | now destruct (Hidx s)].
  - now destruct (_ <=? _).
  - now destruct (_ <=? _).
  - destruct (_ <=? n); [discriminate |].
    destruct (0 <=? n); [| discriminate].
    destruct (nth_error _ _); [| discriminate].
    destruct userResponse; cbn; try discriminate.
    now destruct (saysUnknown _).
Qed.

(** With a question index that is not a text, [getNextStep] coerces no text
    to a number. *)
Lemma getNextStep_neverStuck (clock : nat -> string) (lead : gmap string jsval)
    (userResponse : jsval) :
  (forall s, lead !! "current_question_index" <> Some (JStr s)) ->
  neverStuck (getNextStep clock lead userResponse).
Proof.
  intros Hlead. unfold getNextStep.
  destruct (truthy (lead !! "meeting_scheduled")); [apply neverStuck_ret |].
  assert (Hidx : forall s, js_or (lead !! "current_question_index") (JNum 0) <> JStr s).
  { intros s. destruct (lead !! "current_question_index") as [[| |n|t]|];
      cbn; try discriminate.
    - now destruct b.
    - now destruct (negb (n =? 0)).
    - now destruct (Hlead t). }
  revert Hidx. generalize (js_or (lead !! "current_question_index") (JNum 0)).
  intros currentIndex Hidx.
  assert (Hnum : exists n, toNumber currentIndex = Ok n).
  { destruct currentIndex as [|b|n|s]; cbn; eauto. now destruct (Hidx s). }
  destruct Hnum as [n Hnum].
  apply neverStuck_bind_lift; [unfold js_lt; now rewrite Hnum | intros asking _].
  destruct asking.
  - apply neverStuck_bind_lift; [now apply updateLeadField_not_stuck | intros updated _].
    unfold js_succ. rewrite Hnum. cbn [mbind result_bind].
    apply neverStuck_bind_lift; [discriminate | intros nextIndex [= <-]].
    apply neverStuck_bind.
    { case_bool_decide; [| apply neverStuck_ret].
      apply neverStuck_bind_lift; [apply calculateLeadScore_not_stuck | intros tier _].
      apply neverStuck_ret. }
    intros final.
    apply neverStuck_bind; [apply saveLeadToSupabase_neverStuck | intros _].
    apply neverStuck_bind_lift; [discriminate | intros more _].
    destruct more.
    + apply neverStuck_bind_lift; [| intros entry _; apply neverStuck_ret].
      unfold elementAt. destruct (0 <=? n + 1); [| discriminate].
      now destruct (nth_error _ _).
    + apply neverStuck_bind; [apply saveLeadToSupabase_neverStuck | intros _].
      apply neverStuck_ret.
  - destruct (_ && _); [| apply neverStuck_ret].
    apply neverStuck_bind_lift; [apply isPositiveResponse_not_stuck | intros positive _].
    destruct positive;
      (apply neverStuck_bind; [apply saveLeadToSupabase_neverStuck | intros _]);
      apply neverStuck_ret.
Qed.

(** X1: for a lead whose question index is not a text, [getNextStep]
    either returns a step or raises a [TypeError], and when it raises nothing
    has been written and no clock has been read. *)
Theorem getNextStep_failure_writes_nothing (clock : nat -> string)
    (lead : gmap string jsval) (userResponse : jsval) (w w' : World)
    (r : result Step) :
  (forall s, lead !! "current_question_index" <> Some (JStr s)) ->
  getNextStep clock lead userResponse w = (r, w') ->
  (forall step, r <> Ok step) ->
  r = TypeError /\ w' = w.
Proof.
  intros Hidx Hrun Hr.
  pose proof (getNextStep_neverStuck clock lead userResponse Hidx w) as Hstuck.
  rewrite Hrun in Hstuck. cbn [fst] in Hstuck.
  split.
  - destruct r as [step| |]; [now destruct (Hr step) | reflexivity | now destruct Hstuck].
  - destruct (getNextStep_outcome clock lead userResponse w)
      as [(step & w1 & H) | (r0 & _ & H)]; rewrite H in Hrun.
    + injection Hrun as <- _. now destruct (Hr step).
    + now injection Hrun as _ <-.
Qed.

Lemma getNextStep_failure_writes_nothing_witness :
  fst (getNextStep sampleClock answeredLead (JNum 3) emptyWorld) = TypeError
  /\ snd (getNextStep sampleClock answeredLead (JNum 3) emptyWorld) = emptyWorld.
Proof.
  apply (getNextStep_failure_writes_nothing sampleClock answeredLead (JNum 3) emptyWorld).
  - intros s H. vm_compute in H. discriminate.
  - now destruct (getNextStep sampleClock answeredLead (JNum 3) emptyWorld).
  - intros step. vm_compute. discriminate.
Defined.

(** ** The replies follow the script *)

Lemma handleAll_app (clock : nat -> string) (a b : list (string * string))
    (ra rb : list string) (w w1 w2 : World) :
  handleAll clock a w = (Ok ra, w1) ->
  handleAll clock b w1 = (Ok rb, w2) ->
  handleAll clock (a ++ b)%list w = (Ok (ra ++ rb)%list, w2).
Proof.
  revert ra w. induction a as [|[sender body] a IH]; intros ra w Ha Hb.
  - injection Ha as <- <-. exact Hb.
  - cbn [handleAll app] in *.
    unfold mbind, M_bind in Ha |- *.
    destruct (handleConversation clock (Some (JStr sender)) (JStr body) w)
      as [[reply| |] w0]; try discriminate.
    fold (@mbind M _) in *.
    destruct (handleAll clock a w0) as [[replies| |] w0'] eqn:Hrest; try discriminate.
    injection Ha as <- <-.
    rewrite (IH replies w0 Hrest Hb). reflexivity.
Qed.

Lemma handleAll_length (clock : nat -> string) (inbound : list (string * string))
    (replies : list string) (w w' : World) :
  handleAll clock inbound w = (Ok replies, w') -> length replies = length inbound.
Proof.
  revert replies w. induction inbound as [|[s b] inbound IH]; intros replies w Hrun.
  - now injection Hrun as <- _.
  - cbn [handleAll] in Hrun. unfold mbind, M_bind in Hrun.
    destruct (handleConversation clock (Some (JStr s)) (JStr b) w)
      as [[r| |] w2]; try discriminate.
    fold (@mbind M _) in Hrun.
    destruct (handleAll clock inbound w2) as [[rs| |] w3] eqn:Hrest; try discriminate.
    injection Hrun as <- <-. simpl. f_equal. exact (IH rs w2 Hrest).
Qed.

Lemma handleConversation_reply (clock : nat -> string) (from body : string)
    (count : string -> nat) (w : World) :
  inPhase count w ->
  exists reply w',
    handleConversation clock (Some (JStr from)) (JStr body) w = (Ok reply, w')
    /\ scriptedReply (count (replaceNonDigits from)) body reply.
Proof.
  intros Hinv. set (key := replaceNonDigits from).
  assert (Hkey : replaceNonDigits key = key) by apply replaceNonDigits_idem.
  unfold handleConversation. pose proof (Hinv key) as Hrow.
  destruct (leads w !! key) as [row|] eqn:Hlook.
  - erewrite bind_run; [| apply getCurrentLeadState_found; exact Hlook].
    destruct Hrow as (H1 & _ & Hp & Hidx & Hms & Hqc & Hasked & Hb & Ht).
    destruct (le_lt_dec 8 (count key)) as [H8|H8];
      [| destruct (le_lt_dec 7 (count key)) as [H7|H7];
         [| destruct (le_lt_dec 6 (count key)) as [H6|H6]]].
    + assert (E8 : (8 <=? count key)%nat = true) by (apply Nat.leb_le; lia).
      rewrite E8 in Hms.
      erewrite bind_run; [| apply getNextStep_acknowledges; now rewrite Hms].
      eexists _, _. split; [reflexivity |].
      unfold scriptedReply. repeat apply conj; intros Hcase; try lia. reflexivity.
    + assert (Hc : count key = 7%nat) by lia. rewrite Hc in *.
      destruct (isPositiveResponse_total body) as [positive Hpos].
      erewrite bind_run; cycle 1.
      { apply (getNextStep_scheduling clock row 7 body key positive w).
        - now apply js_or_number.
        - reflexivity.
        - now rewrite Hms.
        - now rewrite Hasked.
        - rewrite Hp, normalizePhone_text. now rewrite Hkey.
        - exact Hpos. }
      eexists _, _. split; [reflexivity |].
      unfold scriptedReply. repeat apply conj; intros Hcase; try lia.
      exists positive. split; [exact Hpos |]. now destruct positive.
    + assert (Hc : count key = 6%nat) by lia. rewrite Hc in *.
      destruct (calculateLeadScore_total
                  (<["motivation" := JStr (storedAnswer body)]> row)) as [tier Htier].
      { rewrite lookup_insert_ne by done. now apply storesText_holdsText. }
      { rewrite lookup_insert_ne by done. now apply storesText_holdsText. }
      erewrite bind_run; cycle 1.
      { apply (getNextStep_last clock row body key tier w).
        - now apply js_or_number.
        - now rewrite Hms.
        - exact Hp.
        - exact Htier. }
      eexists _, _. split; [reflexivity |].
      unfold scriptedReply. repeat apply conj; intros Hcase; try lia.
      exists tier. split; [exact (calculateLeadScore_tier _ _ Htier) | reflexivity].
    + destruct (script_next (count key) H6) as (entry & next & Hentry & Hnext).
      assert (E8 : (8 <=? count key)%nat = false) by (apply Nat.leb_gt; lia).
      rewrite E8 in Hms.
      replace (Z.min (Z.of_nat (count key)) scriptLength) with (Z.of_nat (count key)) in Hidx
        by (unfold scriptLength; simpl length; lia).
      erewrite bind_run; cycle 1.
      { apply (getNextStep_question clock row (count key) entry next body key w).
        - now apply js_or_number.
        - now rewrite Hms.
        - exact Hentry.
        - exact Hnext.
        - exact Hp. }
      eexists _, _. split; [reflexivity |].
      unfold scriptedReply. repeat apply conj; intros Hcase; try lia.
      exists next. split; [exact Hnext | reflexivity].
  - erewrite bind_run; [| apply getCurrentLeadState_fresh; exact Hlook].
    erewrite bind_run; cycle 1.
    { eapply (getNextStep_question clock _ 0) with (p := key); reflexivity. }
    eexists _, _. split; [reflexivity |]. fold key. rewrite Hrow.
    unfold scriptedReply. repeat apply conj; intros Hcase; try lia.
    eexists. split; reflexivity.
Qed.

(** With every request answered: in any sequence of inbound messages
    handled from the empty store, the reply to a message is fixed by the
    number of earlier messages of the same lead. *)
Lemma handleAll_replies (clock : nat -> string)
    (earlier : list (string * string)) (from body : string) (w0 : World) :
  leads w0 = ∅ ->
  exists (replies : list string) (reply : string) (w : World),
    handleAll clock (earlier ++ [(from, body)])%list w0 = (Ok (replies ++ [reply])%list, w)
    /\ length replies = length earlier
    /\ scriptedReply (turnsOf from earlier) body reply
    /\ reply <> fallbackReply
    /\ reply <> "What area or city are you looking in?".
Proof.
  intros Hempty.
  destruct (handleAll_phase clock earlier (fun _ => 0%nat) w0) as (replies & w1 & Hrun & Hinv).
  { intros key. now rewrite Hempty, lookup_empty. }
  destruct (handleConversation_reply clock from body _ w1 Hinv) as (reply & w & Hlast & Hreply).
  cbn beta in Hreply. rewrite Nat.add_0_l, <- turnsOf_turnsUnder in Hreply.
  exists replies, reply, w. split.
  { apply (handleAll_app clock earlier [(from, body)] replies [reply] w0 w1 w Hrun).
    cbn [handleAll]. erewrite bind_run; [| exact Hlast]. reflexivity. }
  split.
  { exact (handleAll_length clock earlier replies w0 w1 Hrun). }
  split; [exact Hreply |].
  destruct Hreply as (Hq & Hoffer & Hanswer & Hack).
  destruct (le_lt_dec 8 (turnsOf from earlier)) as [H8|H8];
    [| destruct (le_lt_dec 7 (turnsOf from earlier)) as [H7|H7];
       [| destruct (le_lt_dec 6 (turnsOf from earlier)) as [H6|H6]]].
  - rewrite (Hack H8). split; discriminate.
  - destruct (Hanswer ltac:(lia)) as ([] & _ & ->); split; discriminate.
  - destruct (Hoffer ltac:(lia)) as (tier & Hin & ->). simpl in Hin.
    destruct Hin as [<-|[<-|[<-|[]]]]; split; discriminate.
  - destruct (Hq H6) as (entry & Hentry & ->).
    clear -H6 Hentry. revert H6 Hentry. generalize (turnsOf from earlier) as N.
    intros N H6 Hentry.
    do 6 (destruct N as [|N]; [simplify_eq/=; split; discriminate |]).
    lia.
Qed.

(** ** Counting filled fields *)

Lemma filter_length_change {A : Type} (P P' : A -> bool) (x : A) (l : list A) :
  List.NoDup l -> In x l ->
  (forall y, y <> x -> P' y = P y) ->
  (length (List.filter P' l) + (if P x then 1 else 0)
   = length (List.filter P l) + (if P' x then 1 else 0))%nat.
Proof.
  intros Hnd Hin Hsame. induction Hnd as [|y l Hy Hnd IH]; [destruct Hin |].
  assert (Hrest : ~ In x l -> length (List.filter P' l) = length (List.filter P l)).
  { clear -Hsame. intros Hx. induction l as [|z l IH]; [reflexivity |].
    cbn [List.filter]. rewrite (Hsame z) by (intros ->; apply Hx; now left).
    assert (Hl : length (List.filter P' l) = length (List.filter P l))
      by (apply IH; intros H; apply Hx; now right).
    destruct (P z); simpl; now rewrite Hl. }
  cbn [List.filter]. destruct Hin as [->|Hin].
  - specialize (Hrest Hy). destruct (P x), (P' x); simpl; lia.
  - specialize (IH Hin). rewrite (Hsame y) by (intros ->; contradiction).
    destruct (P y); simpl; lia.
Qed.

Lemma fields_NoDup : List.NoDup fields.
Proof.
  unfold fields. repeat constructor; simpl; intuition discriminate.
Qed.

(** X3: writing a value into one of the seven fields changes [filledCount]
    by that field alone: the count goes up by one when an unfilled field
    becomes filled, down by one when a filled field is blanked or set to
    "unknown", and stays otherwise; it never exceeds seven. *)
Theorem filledCount_after_write (lead : gmap string jsval) (name : string) (v : jsval) :
  In name fields ->
  (filledCount (<[name := v]> lead) + (if isFilled (lead !! name) then 1 else 0)
   = filledCount lead + (if isFilled (Some v) then 1 else 0))%nat
  /\ (filledCount (<[name := v]> lead) <= 7)%nat.
Proof.
  intros Hin. split; [| apply filledCount_le].
  unfold filledCount.
  pose proof (filter_length_change
                (fun f => isFilled (lead !! f))
                (fun f => isFilled (<[name := v]> lead !! f))
                name fields fields_NoDup Hin) as H.
  cbn beta in H. rewrite lookup_insert_eq in H. apply H.
  intros y Hy. now rewrite lookup_insert_ne.
Qed.

Lemma filledCount_after_write_witness :
  In "budget" fields
  /\ (filledCount (<["budget" := JStr "500k"]> scenarioE)
      + (if isFilled (scenarioE !! "budget") then 1 else 0)
      = filledCount scenarioE + (if isFilled (Some (JStr "500k")) then 1 else 0))%nat
  /\ (filledCount (<["budget" := JStr "500k"]> scenarioE) <= 7)%nat.
Proof.
  split; [simpl; tauto |].
  apply (filledCount_after_write scenarioE "budget" (JStr "500k")). simpl; tauto.
Defined.

(** ** The budget an interview turn stores *)

Lemma includes_lower (s p : string) :
  includes s p = true -> includes (toLowerCase s) (toLowerCase p) = true.
Proof.
  intros H. apply includes_toLowerCase. apply includes_app in H as (before & after & ->).
  now exists before, p, after.
Qed.

(** X4: after the budget question is answered, [hasStrongBudget] holds
    exactly when the answer is not blank and is not one of the "unknown"
    phrases: on budgets written by [updateLeadField] the two substring tests
    of [hasStrongBudget] add nothing to the sentinel. *)
Theorem hasStrongBudget_after_answer (lead : gmap string jsval) (userResponse : string) :
  exists lead',
    updateLeadField lead (JNum 3) (JStr userResponse) = Ok lead'
    /\ hasStrongBudget lead'
       = Ok (negb (saysUnknown (trim userResponse))
             && negb (String.eqb (trim userResponse) "")).
Proof.
  eexists. split; [apply (updateLeadField_interview lead 3); reflexivity |].
  cbn [field]. unfold hasStrongBudget, storedAnswer.
  rewrite lookup_insert_eq.
  destruct (saysUnknown (trim userResponse)) eqn:Hs; [reflexivity |].
  destruct (trim userResponse) as [|c t] eqn:Ht; [reflexivity |].
  cbn [truthy String.eqb negb asString mbind result_bind andb].
  unfold saysUnknown in Hs. rewrite !orb_false_iff in Hs.
  destruct Hs as ((((Hsure & _) & Hunknown) & _) & _).
  destruct (includes (String c t) "unknown") eqn:H1.
  { apply includes_lower in H1. change (toLowerCase "unknown") with "unknown" in H1.
    congruence. }
  destruct (includes (String c t) "not sure") eqn:H2.
  { apply includes_lower in H2. change (toLowerCase "not sure") with "not sure" in H2.
    congruence. }
  reflexivity.
Qed.

(** ** Sender addresses *)

Lemma replaceNonDigits_app (a b : string) :
  replaceNonDigits (a ++ b) = replaceNonDigits a ++ replaceNonDigits b.
Proof.
  induction a as [|c a IH]; [reflexivity |].
  change (String c a ++ b) with (String c (a ++ b)). cbn [replaceNonDigits].
  destruct (isDigit c); [| exact IH].
  change (String c (replaceNonDigits a) ++ replaceNonDigits b)
    with (String c (replaceNonDigits a ++ replaceNonDigits b)).
  now rewrite IH.
Qed.

(** X5: [normalizePhone] works piece by piece: the result for a
    concatenation is the concatenation of the results, so text without
    digits anywhere in the address changes nothing.  An address with the
    prefix "whatsapp:+" names the same lead as the address without it. *)
Theorem normalizePhone_piecewise (a b : string) :
  (exists da db,
      normalizePhone (Some (JStr a)) = Ok da
      /\ normalizePhone (Some (JStr b)) = Ok db
      /\ normalizePhone (Some (JStr (a ++ b))) = Ok (da ++ db))
  /\ (normalizePhone (Some (JStr a)) = Ok "" ->
      normalizePhone (Some (JStr (a ++ b))) = normalizePhone (Some (JStr b))
      /\ normalizePhone (Some (JStr (b ++ a))) = normalizePhone (Some (JStr b)))
  /\ normalizePhone (Some (JStr ("whatsapp:+" ++ b))) = normalizePhone (Some (JStr b))
  /\ sameLead ("whatsapp:+" ++ b) b = true.
Proof.
  rewrite !normalizePhone_text. split.
  { eexists _, _. repeat split. now rewrite replaceNonDigits_app. }
  split.
  { intros [= Ha]. rewrite !replaceNonDigits_app, Ha. split; [reflexivity |].
    f_equal. clear. induction (replaceNonDigits b) as [|c s IH]; [reflexivity |].
    change (String c s ++ "") with (String c (s ++ "")). now rewrite IH. }
  assert (H : replaceNonDigits ("whatsapp:+" ++ b) = replaceNonDigits b).
  { now rewrite replaceNonDigits_app. }
  split; [now rewrite H |].
  unfold sameLead. rewrite !normalizePhone_text, H. now apply bool_decide_eq_true_2.
Qed.

(** ** Where a save lands *)



(** ** A settled lead *)

(** With every request answered: a settled lead stays as it is. *)
Lemma handleAll_settled (clock : nat -> string) (from key : string)
    (row : gmap string jsval) (bodies : list string) (w : World) :
  normalizePhone (Some (JStr from)) = Ok key ->
  leads w !! key = Some row ->
  row !! "meeting_scheduled" = Some (JBool true) ->
  handleAll clock (map (fun body => (from, body)) bodies) w
  = (Ok (map (fun _ => acknowledgement) bodies), w).
Proof.
  intros Hkey Hrow Hms. rewrite normalizePhone_text in Hkey. injection Hkey as <-.
  induction bodies as [|body bodies IH]; [reflexivity |].
  cbn [map handleAll].
  erewrite bind_run; cycle 1.
  { unfold handleConversation.
    erewrite bind_run; [| apply getCurrentLeadState_found; exact Hrow].
    erewrite bind_run; [| apply getNextStep_acknowledges; now rewrite Hms].
    reflexivity. }
  erewrite bind_run; [| exact IH]. reflexivity.
Qed.

(** * The routes *)

(** ** Running a route *)

Lemma io_bind_run {A B : Type} (m : IO A) (f : A -> IO B) (a : A) (s s' : Server) :
  m s = (Ok a, s') -> (m ≫= f) s = f a s'.
Proof. intros H. unfold mbind, IO_bind. now rewrite H. Qed.

Lemma io_bind_pure {A B : Type} (r : result A) (f : A -> IO B) (a : A) (s : Server) :
  r = Ok a -> (pure r ≫= f) s = f a s.
Proof. intros ->. reflexivity. Qed.

Lemma io_bind_raise {A B : Type} (m : IO A) (f : A -> IO B) (s s' : Server) :
  m s = (TypeError, s') -> (m ≫= f) s = (TypeError, s').
Proof. intros H. unfold mbind, IO_bind. now rewrite H. Qed.

Lemma io_bind_stuck {A B : Type} (m : IO A) (f : A -> IO B) (s s' : Server) :
  m s = (Stuck, s') -> (m ≫= f) s = (Stuck, s').
Proof. intros H. unfold mbind, IO_bind. now rewrite H. Qed.

Lemma onWorld_run {A : Type} (m : M A) (r : result A) (w' : World) (s : Server) :
  m (world s) = (r, w') ->
  onWorld m s = (r, {| world := w'; messages := messages s; outbox := outbox s |}).
Proof. intros H. unfold onWorld. now rewrite H. Qed.

Lemma saveMessageToSupabase_run (leadPhone : option jsval) (sender norm text : string)
    (s : Server) :
  normalizePhone leadPhone = Ok norm ->
  saveMessageToSupabase leadPhone sender (Some (JStr text)) s
  = (Ok true,
     {| world := world s;
        messages := (messages s
                     ++ [{| Msg.lead_phone := norm; Msg.sender := sender;
                            Msg.message := trim text |}])%list;
        outbox := outbox s |}).
Proof.
  intros H. unfold saveMessageToSupabase.
  erewrite io_bind_pure; [| exact H].
  erewrite io_bind_pure; [| reflexivity]. reflexivity.
Qed.

Lemma normalizePhone_never_stuck (phone : option jsval) : normalizePhone phone <> Stuck.
Proof.
  unfold normalizePhone. destruct (negb (truthy phone)); [discriminate |].
  destruct phone as [[| | |p]|]; cbn; try discriminate.
  now destruct (includes p "whatsapp:+").
Qed.

(** A message that is not text, or an address that is neither text nor
    falsy, makes [saveMessageToSupabase] raise before anything is posted. *)
Lemma saveMessageToSupabase_raises (leadPhone : option jsval) (sender : string)
    (message : option jsval) (s : Server) :
  normalizePhone leadPhone = TypeError \/ asString message = TypeError ->
  saveMessageToSupabase leadPhone sender message s = (TypeError, s).
Proof.
  intros H. unfold saveMessageToSupabase, mbind, IO_bind, pure.
  destruct (normalizePhone leadPhone) as [norm| |] eqn:Hn.
  - destruct H as [H|H]; [discriminate | now rewrite H].
  - reflexivity.
  - now destruct (normalizePhone_never_stuck leadPhone).
Qed.

Lemma asString_cases (v : option jsval) :
  (exists text, v = Some (JStr text)) \/ asString v = TypeError.
Proof. destruct v as [[| | |text]|]; eauto. Qed.

(** ** The webhook *)

Lemma getCurrentLeadState_run (clock : nat -> string) (From : option jsval)
    (key : string) (w : World) :
  normalizePhone From = Ok key ->
  getCurrentLeadState clock From w
  = match leads w !! key with
    | Some row => (Ok row, w)
    | None => (Ok (defaultLead key (clock (time w))),
               {| leads := leads w; time := S (time w) |})
    end.
Proof.
  intros H. unfold getCurrentLeadState.
  erewrite bind_lift; [| exact H].
  erewrite bind_run; [| reflexivity]. now destruct (leads w !! key).
Qed.

(** When the conversation step raises, the lead rows and the clock are as
    before. *)
Lemma handleConversation_failure (clock : nat -> string) (From : option jsval)
    (key text : string) (w w' : World) (r : result string) :
  normalizePhone From = Ok key ->
  handleConversation clock From (JStr text) w = (r, w') ->
  (forall reply, r <> Ok reply) ->
  w' = w.
Proof.
  intros Hkey Hrun Hr. unfold handleConversation in Hrun.
  pose proof (getCurrentLeadState_run clock From key w Hkey) as Hload.
  destruct (leads w !! key) as [row|] eqn:Hlook.
  - erewrite bind_run in Hrun; [| exact Hload].
    destruct (getNextStep_outcome clock row (JStr text) w)
      as [(step & w1 & H) | (r0 & Hr0 & H)].
    + unfold mbind, M_bind, mret, M_ret in Hrun. rewrite H in Hrun.
      injection Hrun as <- _. now destruct (Hr (message step)).
    + unfold mbind, M_bind, mret, M_ret in Hrun. rewrite H in Hrun.
      destruct r0 as [step| |]; [now destruct (Hr0 step) | |]; now injection Hrun as _ <-.
  - exfalso. erewrite bind_run in Hrun; [| exact Hload].
    erewrite bind_run in Hrun; cycle 1.
    { eapply (getNextStep_question clock _ 0) with (p := key); reflexivity. }
    injection Hrun as <- _. now eapply Hr.
Qed.




(** X9: when the webhook answers 500, no lead row has changed, no clock has
    been read, nothing has been sent, and the log has grown by at most the
    inbound message. *)
Theorem whatsappWebhook_error_effects (clock : nat -> string) (number : string)
    (delivers : Twilio.t -> bool) (From Body : option jsval) (s s' : Server)
    (response : Response) :
  whatsappWebhook clock number delivers From Body s = (Ok response, s') ->
  status response = 500 ->
  world s' = world s
  /\ outbox s' = outbox s
  /\ (messages s' = messages s
      \/ exists key text,
           normalizePhone From = Ok key /\ Body = Some (JStr text)
           /\ messages s'
              = (messages s
                 ++ [{| Msg.lead_phone := key; Msg.sender := "lead";
                        Msg.message := trim text |}])%list).
Proof.
  intros Hrun Hstatus. unfold whatsappWebhook, tryCatch in Hrun.
  destruct (normalizePhone From) as [key| |] eqn:Hkey; cycle 1.
  { erewrite io_bind_raise in Hrun; [| apply saveMessageToSupabase_raises; now left].
    injection Hrun as _ <-. auto. }
  { now destruct (normalizePhone_never_stuck From). }
  destruct (asString_cases Body) as [[text ->] | Hbody]; cycle 1.
  { erewrite io_bind_raise in Hrun; [| apply saveMessageToSupabase_raises; now right].
    injection Hrun as _ <-. auto. }
  erewrite io_bind_run in Hrun; [| apply saveMessageToSupabase_run; exact Hkey].
  erewrite io_bind_pure in Hrun; [| reflexivity].
  destruct (handleConversation clock From (JStr text) (world s)) as [r w1] eqn:Hconv.
  destruct r as [reply| |].
  - exfalso.
    erewrite io_bind_run in Hrun; [| apply onWorld_run; exact Hconv].
    erewrite io_bind_run in Hrun; [| apply saveMessageToSupabase_run; exact Hkey].
    unfold mbind, IO_bind, sendTwilioMessage, mret, IO_ret in Hrun.
    injection Hrun as <- _. discriminate Hstatus.
  - assert (w1 = world s) as ->.
    { apply (handleConversation_failure clock From key text (world s) w1 TypeError Hkey Hconv).
      discriminate. }
    erewrite io_bind_raise in Hrun; [| apply onWorld_run; exact Hconv].
    injection Hrun as _ <-. cbn [world messages outbox].
    repeat split. right. now exists key, text.
  - exfalso.
    erewrite io_bind_stuck in Hrun; [| apply onWorld_run; exact Hconv].
    discriminate Hrun.
Qed.

Lemma whatsappWebhook_error_effects_witness :
  let s := {| world := emptyWorld; messages := []; outbox := [] |} in
  whatsappWebhook sampleClock "+14155238886" (fun _ => true)
    (Some (JStr "whatsapp:+15551234567")) None s
  = (Ok {| status := 500; sent := Text "text/xml" "" |}, s)
  /\ world s = world s
  /\ outbox s = outbox s
  /\ (messages s = messages s
      \/ exists key text,
           normalizePhone (Some (JStr "whatsapp:+15551234567")) = Ok key
           /\ None = Some (JStr text)
           /\ messages s
              = (messages s
                 ++ [{| Msg.lead_phone := key; Msg.sender := "lead";
                        Msg.message := trim text |}])%list).
Proof.
  intros s. split; [reflexivity |].
  apply (whatsappWebhook_error_effects sampleClock "+14155238886" (fun _ => true)
           (Some (JStr "whatsapp:+15551234567")) None s s
           {| status := 500; sent := Text "text/xml" "" |});
    reflexivity.
Defined.

(** X10: whether the messenger accepts the reply changes neither the
    response of the webhook or of the agent reply nor anything they store
    or send. *)
Theorem delivery_outcome_is_ignored (clock : nat -> string) (number errorText : string)
    (delivers delivers' : Twilio.t -> bool) (s : Server) :
  (forall From Body,
      whatsappWebhook clock number delivers From Body s
      = whatsappWebhook clock number delivers' From Body s)
  /\ (forall phone message,
        postReply number delivers errorText phone message s
        = postReply number delivers' errorText phone message s).
Proof.
  split.
  - intros From Body. unfold whatsappWebhook, tryCatch, mbind, IO_bind.
    destruct (saveMessageToSupabase From "lead" Body s) as [[?| |] s1]; reflexivity.
  - intros phone message. unfold postReply, tryCatch, mbind, IO_bind.
    destruct (pure (trimsToText message) s) as [[given| |] s1]; reflexivity.
Qed.

(** ** The agent's reply *)



(** ** Manual creation *)


(** ** Manual creation, then the first message *)



(** ** The log is append-only *)

Lemma continues_refl (s : Server) : continues s s.
Proof. split; exists []; now rewrite app_nil_r. Qed.

Lemma continues_trans (s1 s2 s3 : Server) :
  continues s1 s2 -> continues s2 s3 -> continues s1 s3.
Proof.
  intros [[l1 H1] [o1 H1']] [[l2 H2] [o2 H2']]. split.
  - exists (l1 ++ l2)%list. now rewrite H2, H1, app_assoc.
  - exists (o1 ++ o2)%list. now rewrite H2', H1', app_assoc.
Qed.

Lemma appendOnly_mret {A : Type} (a : A) : appendOnly (mret a : IO A).
Proof. intros s r s' [= _ <-]. apply continues_refl. Qed.

Lemma appendOnly_pure {A : Type} (r : result A) : appendOnly (pure r).
Proof. intros s r' s' [= _ <-]. apply continues_refl. Qed.

Lemma appendOnly_onWorld {A : Type} (m : M A) : appendOnly (onWorld m).
Proof.
  intros s r s'. unfold onWorld. destruct (m (world s)) as [r0 w'].
  intros [= _ <-]. split; exists []; cbn; now rewrite app_nil_r.
Qed.

Lemma appendOnly_bind {A B : Type} (m : IO A) (f : A -> IO B) :
  appendOnly m -> (forall a, appendOnly (f a)) -> appendOnly (m ≫= f).
Proof.
  intros Hm Hf s r s'. unfold mbind, IO_bind.
  destruct (m s) as [[a| |] s1] eqn:H1.
  - intros H2. exact (continues_trans _ _ _ (Hm _ _ _ H1) (Hf a _ _ _ H2)).
  - intros [= _ <-]. exact (Hm _ _ _ H1).
  - intros [= _ <-]. exact (Hm _ _ _ H1).
Qed.

Lemma appendOnly_tryCatch {A : Type} (block handler : IO A) :
  appendOnly block -> appendOnly handler -> appendOnly (tryCatch block handler).
Proof.
  intros Hb Hh s r s'. unfold tryCatch.
  destruct (block s) as [[a| |] s1] eqn:H1.
  - intros [= _ <-]. exact (Hb _ _ _ H1).
  - intros H2. exact (continues_trans _ _ _ (Hb _ _ _ H1) (Hh _ _ _ H2)).
  - intros [= _ <-]. exact (Hb _ _ _ H1).
Qed.

Lemma appendOnly_postMessage (data : Msg.t) : appendOnly (postMessage data).
Proof.
  intros s r s' [= _ <-]. split; cbn; [now exists [data] | exists []; now rewrite app_nil_r].
Qed.

Lemma appendOnly_saveMessageToSupabase (leadPhone : option jsval) (sender : string)
    (message : option jsval) :
  appendOnly (saveMessageToSupabase leadPhone sender message).
Proof.
  unfold saveMessageToSupabase.
  apply appendOnly_bind; [apply appendOnly_pure | intros norm].
  apply appendOnly_bind; [apply appendOnly_pure | intros text].
  apply appendOnly_bind; [apply appendOnly_postMessage | intros _].
  apply appendOnly_mret.
Qed.

Lemma appendOnly_sendTwilioMessage (number : string) (delivers : Twilio.t -> bool)
    (to : option jsval) (body : string) :
  appendOnly (sendTwilioMessage number delivers to body).
Proof.
  intros s r s' [= _ <-]. split; cbn; [exists []; now rewrite app_nil_r | eauto].
Qed.

(** X14: whatever the request and whatever the outcome, no route removes or
    alters a logged message or a request already made to the messenger: the
    log and the outbox after a call begin with those before it. *)
Theorem routes_append_only (clock : nat -> string) (number errorText : string)
    (delivers : Twilio.t -> bool) :
  (forall From Body, appendOnly (whatsappWebhook clock number delivers From Body))
  /\ (forall phone message, appendOnly (postReply number delivers errorText phone message))
  /\ (forall name phone source, appendOnly (postLead clock errorText name phone source)).
Proof.
  split; [| split].
  - intros From Body. unfold whatsappWebhook.
    apply appendOnly_tryCatch; [| apply appendOnly_mret].
    apply appendOnly_bind; [apply appendOnly_saveMessageToSupabase | intros _].
    apply appendOnly_bind; [apply appendOnly_pure | intros body].
    apply appendOnly_bind; [apply appendOnly_onWorld | intros reply].
    apply appendOnly_bind; [apply appendOnly_saveMessageToSupabase | intros _].
    apply appendOnly_bind; [apply appendOnly_sendTwilioMessage | intros _].
    apply appendOnly_mret.
  - intros phone message. unfold postReply.
    apply appendOnly_tryCatch; [| apply appendOnly_mret].
    apply appendOnly_bind; [apply appendOnly_pure | intros given].
    destruct (negb given); [apply appendOnly_mret |].
    apply appendOnly_bind; [apply appendOnly_pure | intros norm].
    apply appendOnly_bind; [apply appendOnly_saveMessageToSupabase | intros _].
    apply appendOnly_bind; [apply appendOnly_pure | intros text].
    apply appendOnly_bind; [apply appendOnly_sendTwilioMessage | intros _].
    apply appendOnly_mret.
  - intros name phone source. unfold postLead.
    apply appendOnly_tryCatch; [| apply appendOnly_mret].
    destruct (negb (truthy name) || negb (truthy phone)); [apply appendOnly_mret |].
    apply appendOnly_bind; [apply appendOnly_pure | intros name'].
    apply appendOnly_bind; [apply appendOnly_onWorld | intros saved].
    destruct (negb saved); [apply appendOnly_mret |].
    apply appendOnly_bind; [apply appendOnly_pure | intros first].
    apply appendOnly_bind; [apply appendOnly_saveMessageToSupabase | intros _].
    apply appendOnly_bind; [apply appendOnly_pure | intros phone'].
    apply appendOnly_mret.
Qed.

(** * When the store does not answer *)

(** ** Answered requests *)

Lemma allAnswered_tail (outcome : bool) (outcomes : list bool) :
  allAnswered (outcome :: outcomes) -> outcome = true /\ allAnswered outcomes.
Proof. intros H. inversion H; subst. now split. Qed.

Lemma answers_ret {S A : Type} (a : A) :
  answers (fun s : S => (Ok a, s)) (mret a).
Proof. intros s outcomes H. exists outcomes. now split. Qed.

Lemma answers_answered {S A : Type} (m : S -> result A * S) :
  answers m (Outage.answered m).
Proof.
  intros s outcomes H. exists outcomes. split; [exact H |].
  unfold Outage.answered. cbn [fst snd]. now destruct (m s).
Qed.

Lemma answers_request {S A : Type} (m : S -> result A * S) (m' other : Outage.Net S A) :
  answers m m' ->
  answers m (reached ← Outage.request; if (reached : bool) then m' else other).
Proof.
  intros Hm s outcomes H. unfold mbind, Outage.Net_bind, Outage.request. cbn [snd fst].
  destruct outcomes as [|outcome outcomes].
  - apply (Hm s [] H).
  - apply allAnswered_tail in H as [-> H]. apply (Hm s outcomes H).
Qed.

Lemma answers_bind {A B : Type} (m : M A) (f : A -> M B)
    (m' : Outage.Net World A) (f' : A -> Outage.Net World B) :
  answers m m' -> (forall a, answers (f a) (f' a)) -> answers (m ≫= f) (m' ≫= f').
Proof.
  intros Hm Hf w outcomes H.
  destruct (Hm w outcomes H) as (outcomes1 & H1 & E).
  unfold mbind, M_bind, Outage.Net_bind. rewrite E.
  destruct (m w) as [[a| |] w1]; cbn [fst snd].
  - apply (Hf a w1 outcomes1 H1).
  - now exists outcomes1.
  - now exists outcomes1.
Qed.

Lemma answers_io_bind {A B : Type} (m : IO A) (f : A -> IO B)
    (m' : Outage.Net Server A) (f' : A -> Outage.Net Server B) :
  answers m m' -> (forall a, answers (f a) (f' a)) -> answers (m ≫= f) (m' ≫= f').
Proof.
  intros Hm Hf s outcomes H.
  destruct (Hm s outcomes H) as (outcomes1 & H1 & E).
  unfold mbind, IO_bind, Outage.Net_bind. rewrite E.
  destruct (m s) as [[a| |] s1]; cbn [fst snd].
  - apply (Hf a s1 outcomes1 H1).
  - now exists outcomes1.
  - now exists outcomes1.
Qed.

Lemma saveLeadToSupabase_answers (clock : nat -> string) (phone : option jsval)
    (updates : gmap string jsval) :
  answers (saveLeadToSupabase clock phone updates)
          (Outage.saveLeadToSupabase clock phone updates).
Proof.
  unfold saveLeadToSupabase, Outage.saveLeadToSupabase.
  apply answers_bind; [apply answers_answered | intros normalizedPhone].
  apply answers_bind; [apply answers_answered | intros updated_at].
  apply answers_request, answers_answered.
Qed.

Lemma getCurrentLeadState_answers (clock : nat -> string) (phone : option jsval) :
  answers (getCurrentLeadState clock phone) (Outage.getCurrentLeadState clock phone).
Proof.
  unfold getCurrentLeadState, Outage.getCurrentLeadState.
  apply answers_bind; [apply answers_answered | intros normalizedPhone].
  apply answers_request.
  apply answers_bind; [apply answers_answered | intros [row|]].
  - apply (answers_ret (S := World)).
  - apply answers_bind; [apply answers_answered | intros created_at].
    apply (answers_ret (S := World)).
Qed.

Ltac answers_step :=
  first
    [ apply (answers_ret (S := World))
    | apply answers_answered
    | apply saveLeadToSupabase_answers
    | apply answers_bind; [| intros ?]
    | match goal with
      | |- answers (if ?c then _ else _) _ => destruct c
      end ].

Lemma getNextStep_answers (clock : nat -> string) (lead : gmap string jsval)
    (userResponse : jsval) :
  answers (getNextStep clock lead userResponse)
          (Outage.getNextStep clock lead userResponse).
Proof.
  unfold getNextStep, Outage.getNextStep. cbv zeta.
  repeat answers_step.
Qed.

Lemma handleConversation_answers (clock : nat -> string) (phone : option jsval)
    (userMessage : jsval) :
  answers (handleConversation clock phone userMessage)
          (Outage.handleConversation clock phone userMessage).
Proof.
  unfold handleConversation, Outage.handleConversation.
  apply answers_bind; [apply getCurrentLeadState_answers | intros lead].
  apply answers_bind; [apply getNextStep_answers | intros nextStep].
  apply (answers_ret (S := World)).
Qed.

Lemma handleAll_answers (clock : nat -> string) (inbound : list (string * string)) :
  answers (handleAll clock inbound) (Outage.handleAll clock inbound).
Proof.
  induction inbound as [|[from body] inbound IH].
  - apply (answers_ret (S := World)).
  - cbn [handleAll Outage.handleAll].
    apply answers_bind; [apply handleConversation_answers | intros reply].
    apply answers_bind; [exact IH | intros replies].
    apply (answers_ret (S := World)).
Qed.

(** What [answers] says of one run. *)
Lemma answers_run {S A : Type} (m : S -> result A * S) (m' : Outage.Net S A)
    (s s' : S) (r : result A) (outcomes : list bool) :
  answers m m' -> allAnswered outcomes -> m s = (r, s') ->
  exists outcomes', allAnswered outcomes' /\ m' (s, outcomes) = (r, (s', outcomes')).
Proof.
  intros Hm H E. destruct (Hm s outcomes H) as (outcomes' & H' & E').
  exists outcomes'. split; [exact H' |]. now rewrite E', E.
Qed.

(** ** Running with outcomes *)

Lemma net_bind_run {S A B : Type} (m : Outage.Net S A) (f : A -> Outage.Net S B)
    (a : A) (s s' : S * list bool) :
  m s = (Ok a, s') -> (m ≫= f) s = f a s'.
Proof. intros H. unfold mbind, Outage.Net_bind. now rewrite H. Qed.

Lemma net_answered_run {S A : Type} (m : S -> result A * S) (r : result A)
    (s s' : S) (outcomes : list bool) :
  m s = (r, s') -> Outage.answered m (s, outcomes) = (r, (s', outcomes)).
Proof. intros H. unfold Outage.answered. cbn [fst snd]. now rewrite H. Qed.

Lemma net_request_run {S : Type} (s : S) (outcomes : list bool) :
  Outage.request (s, outcomes) = (Ok (hd true outcomes), (s, tl outcomes)).
Proof. now destruct outcomes. Qed.

(** A save of a partial object: the clock is read, and the object lands
    when the request is answered. *)
Lemma Outage_saveLeadToSupabase_partial (clock : nat -> string) (phone : option jsval)
    (updates : gmap string jsval) (norm : string) (w : World) (outcomes : list bool) :
  normalizePhone phone = Ok norm ->
  updates !! "phone" = None ->
  Outage.saveLeadToSupabase clock phone updates (w, outcomes)
  = (Ok (hd true outcomes),
     ({| leads :=
           if hd true outcomes
           then <[norm := <["updated_at" := JStr (clock (time w))]>
                            (updates ∪ {["phone" := JStr norm]})
                          ∪ default ∅ (leads w !! norm)]> (leads w)
           else leads w;
         time := S (time w) |},
      tl outcomes)).
Proof.
  intros Hn Hk. unfold Outage.saveLeadToSupabase.
  erewrite net_bind_run; [| apply net_answered_run; unfold lift; now rewrite Hn].
  erewrite net_bind_run; [| apply net_answered_run; reflexivity].
  erewrite net_bind_run; [| apply net_request_run].
  destruct (hd true outcomes); [| reflexivity].
  apply net_answered_run. unfold upsertLead. cbn [leads time].
  rewrite lookup_insert_ne by done.
  rewrite lookup_union_r by done. rewrite lookup_singleton_eq. reflexivity.
Qed.

(** A message is logged when the request is answered. *)
Lemma Outage_saveMessageToSupabase_run (leadPhone : option jsval)
    (sender norm text : string) (s : Server) (outcomes : list bool) :
  normalizePhone leadPhone = Ok norm ->
  Outage.saveMessageToSupabase leadPhone sender (Some (JStr text)) (s, outcomes)
  = (Ok (hd true outcomes),
     ({| world := world s;
         messages :=
           (messages s
            ++ (if hd true outcomes
                then [{| Msg.lead_phone := norm; Msg.sender := sender;
                         Msg.message := trim text |}]
                else []))%list;
         outbox := outbox s |},
      tl outcomes)).
Proof.
  intros Hn. unfold Outage.saveMessageToSupabase.
  erewrite net_bind_run; [| apply net_answered_run; unfold pure; now rewrite Hn].
  erewrite net_bind_run; [| apply net_answered_run; reflexivity].
  erewrite net_bind_run; [| apply net_request_run].
  destruct (hd true outcomes).
  - erewrite net_bind_run; [| apply net_answered_run; reflexivity]. reflexivity.
  - rewrite app_nil_r. now destruct s.
Qed.

(** ** The script, with every request answered *)

(** X2: in any sequence of inbound messages handled from the empty store,
    as long as every request to the store is answered, the reply to a
    message is fixed by the number [N] of earlier messages of the same lead:
    the prompt of script entry [N + 1] for [N] below 6 (so the first reply
    is the second question and the first question is never asked), the
    scheduling offer with a tier for [N = 6], the confirmation or the
    decline note for [N = 7], the acknowledgement after that; the fallback
    reply is not sent. *)
Theorem replies_follow_script (clock : nat -> string)
    (earlier : list (string * string)) (from body : string) (w0 : World)
    (outcomes : list bool) :
  leads w0 = ∅ ->
  allAnswered outcomes ->
  exists (replies : list string) (reply : string) (w : World) (outcomes' : list bool),
    Outage.handleAll clock (earlier ++ [(from, body)])%list (w0, outcomes)
    = (Ok (replies ++ [reply])%list, (w, outcomes'))
    /\ length replies = length earlier
    /\ scriptedReply (turnsOf from earlier) body reply
    /\ reply <> fallbackReply
    /\ reply <> "What area or city are you looking in?".
Proof.
  intros Hempty Hanswered.
  destruct (handleAll_replies clock earlier from body w0 Hempty)
    as (replies & reply & w & Hrun & Hrest).
  destruct (answers_run _ _ _ _ _ outcomes (handleAll_answers clock _) Hanswered Hrun)
    as (outcomes' & _ & Hrun').
  now exists replies, reply, w, outcomes'.
Qed.

Lemma replies_follow_script_witness :
  exists (replies : list string) (reply : string) (w : World) (outcomes' : list bool),
    Outage.handleAll sampleClock (sampleInbound ++ [("+15551234567", "anyone?")])%list
      (emptyWorld, [true; true; true])
    = (Ok (replies ++ [reply])%list, (w, outcomes'))
    /\ length replies = length sampleInbound
    /\ scriptedReply (turnsOf "+15551234567" sampleInbound) "anyone?" reply
    /\ reply <> fallbackReply
    /\ reply <> "What area or city are you looking in?".
Proof.
  apply (replies_follow_script sampleClock sampleInbound "+15551234567" "anyone?"
           emptyWorld [true; true; true]).
  - reflexivity.
  - repeat constructor.
Defined.

(** ** A settled lead, with every read answered *)

(** X7: once the stored row of a lead has [meeting_scheduled] true, and as
    long as every request to the store is answered, any number of further
    messages from that lead are each answered with the acknowledgement and
    leave the store and the clock as they are. *)
Theorem settled_lead_stays (clock : nat -> string) (from key : string)
    (row : gmap string jsval) (bodies : list string) (w : World)
    (outcomes : list bool) :
  normalizePhone (Some (JStr from)) = Ok key ->
  leads w !! key = Some row ->
  row !! "meeting_scheduled" = Some (JBool true) ->
  allAnswered outcomes ->
  exists outcomes',
    Outage.handleAll clock (map (fun body => (from, body)) bodies) (w, outcomes)
    = (Ok (map (fun _ => acknowledgement) bodies), (w, outcomes')).
Proof.
  intros Hkey Hrow Hms Hanswered.
  pose proof (handleAll_settled clock from key row bodies w Hkey Hrow Hms) as Hrun.
  destruct (answers_run _ _ _ _ _ outcomes (handleAll_answers clock _) Hanswered Hrun)
    as (outcomes' & _ & Hrun').
  now exists outcomes'.
Qed.

Lemma settled_lead_stays_witness :
  exists outcomes',
    Outage.handleAll sampleClock
      (map (fun body => ("whatsapp:+15551234567", body)) ["hi"; "hello?"; "yes"])
      ({| leads := {["15551234567" := scheduledLead]}; time := 5 |}, [true; true])
    = (Ok (map (fun _ => acknowledgement) ["hi"; "hello?"; "yes"]),
       ({| leads := {["15551234567" := scheduledLead]}; time := 5 |}, outcomes')).
Proof.
  apply (settled_lead_stays sampleClock "whatsapp:+15551234567" "15551234567"
           scheduledLead);
    [reflexivity | reflexivity | reflexivity | repeat constructor].
Defined.

(** ** A read that is not answered *)

(** X23: when the read of a lead is not answered, [getCurrentLeadState]
    hands out the state of a new lead, and the message is taken as the
    answer to the first question: the reply is the second question, and the
    save that follows puts the new state over the stored row, whatever it
    held: the index is 1, the three flags are false, the location is the
    answer and the other six fields and the score are [null].  A lead whose
    meeting was settled is asked the second question. *)
Theorem failed_read_restarts (clock : nat -> string) (from key body : string)
    (row : gmap string jsval) (w : World) (outcomes : list bool) :
  normalizePhone (Some (JStr from)) = Ok key ->
  leads w !! key = Some row ->
  allAnswered outcomes ->
  exists (row' : gmap string jsval) (w' : World) (outcomes' : list bool),
    Outage.handleConversation clock (Some (JStr from)) (JStr body) (w, false :: outcomes)
    = (Ok "What type of home are you looking for? (house, condo, apartment, etc.)",
       (w', outcomes'))
    /\ leads w' !! key = Some row'
    /\ row' !! "current_question_index" = Some (JNum 1)
    /\ row' !! "meeting_scheduled" = Some (JBool false)
    /\ row' !! "asked_for_meeting" = Some (JBool false)
    /\ row' !! "qualification_complete" = Some (JBool false)
    /\ row' !! "location" = Some (JStr (storedAnswer body))
    /\ (forall column,
          In column ["home_type"; "bedrooms"; "budget"; "timeline"; "preapproval";
                     "motivation"; "lead_score"] ->
          row' !! column = Some JNull)
    /\ (forall column,
          In column ["name"; "source"; "notes"; "wants_meeting"; "meeting_notes"] ->
          row' !! column = row !! column).
Proof.
  intros Hkey Hrow Hanswered.
  rewrite normalizePhone_text in Hkey. injection Hkey as <-.
  set (key := replaceNonDigits from) in *.
  set (w1 := {| leads := leads w; time := S (time w) |}).
  set (lead := defaultLead key (clock (time w))).
  assert (Hstep :
    getNextStep clock lead (JStr body) w1
    = (Ok {| type := "question";
             message := "What type of home are you looking for? (house, condo, apartment, etc.)" |},
       {| leads :=
            <[key := <["updated_at" := JStr (clock (time w1))]>
                       (<["current_question_index" := JNum (Z.of_nat 1)]>
                          (<["location" := JStr (storedAnswer body)]> lead))
                     ∪ default ∅ (leads w1 !! key)]> (leads w1);
          time := S (time w1) |})).
  { apply (getNextStep_question clock lead 0
             {| field := "location"; question := "What area or city are you looking in?" |}
             {| field := "home_type";
                question := "What type of home are you looking for? (house, condo, apartment, etc.)" |});
      reflexivity. }
  destruct (answers_run _ _ _ _ _ outcomes (getNextStep_answers clock lead (JStr body))
              Hanswered Hstep) as (outcomes' & _ & Hstep').
  eexists _, _, outcomes'. split.
  { unfold Outage.handleConversation, Outage.getCurrentLeadState.
    erewrite net_bind_run; cycle 1.
    { erewrite net_bind_run;
        [| apply net_answered_run; unfold lift; now rewrite normalizePhone_text].
      erewrite net_bind_run; [| apply net_request_run].
      cbn [hd tl].
      erewrite net_bind_run; [| apply net_answered_run; reflexivity].
      reflexivity. }
    fold key w1 lead.
    erewrite net_bind_run; [| exact Hstep']. reflexivity. }
  cbn [leads]. rewrite lookup_insert_eq.
  split; [reflexivity |].
  split; [now apply lookup_union_Some_l |].
  split; [now apply lookup_union_Some_l |].
  split; [now apply lookup_union_Some_l |].
  split; [now apply lookup_union_Some_l |].
  split; [now apply lookup_union_Some_l |].
  split.
  - intros column Hin. simpl in Hin.
    repeat (destruct Hin as [<-|Hin]; [now apply lookup_union_Some_l |]).
    destruct Hin.
  - intros column Hin. subst w1. cbn [leads]. rewrite Hrow. cbn [default].
    simpl in Hin.
    repeat (destruct Hin as [<-|Hin]; [now rewrite lookup_union_r |]).
    destruct Hin.
Qed.

Lemma failed_read_restarts_witness :
  exists (row' : gmap string jsval) (w' : World) (outcomes' : list bool),
    Outage.handleConversation sampleClock (Some (JStr "whatsapp:+15551234567")) (JStr "hello?")
      ({| leads := {["15551234567" := scheduledLead]}; time := 5 |}, [false; true])
    = (Ok "What type of home are you looking for? (house, condo, apartment, etc.)",
       (w', outcomes'))
    /\ leads w' !! "15551234567" = Some row'
    /\ row' !! "current_question_index" = Some (JNum 1)
    /\ row' !! "meeting_scheduled" = Some (JBool false)
    /\ row' !! "asked_for_meeting" = Some (JBool false)
    /\ row' !! "qualification_complete" = Some (JBool false)
    /\ row' !! "location" = Some (JStr (storedAnswer "hello?"))
    /\ (forall column,
          In column ["home_type"; "bedrooms"; "budget"; "timeline"; "preapproval";
                     "motivation"; "lead_score"] ->
          row' !! column = Some JNull)
    /\ (forall column,
          In column ["name"; "source"; "notes"; "wants_meeting"; "meeting_notes"] ->
          row' !! column = scheduledLead !! column).
Proof.
  apply (failed_read_restarts sampleClock "whatsapp:+15551234567" "15551234567" "hello?"
           scheduledLead {| leads := {["15551234567" := scheduledLead]}; time := 5 |} [true]);
    [reflexivity | reflexivity | repeat constructor].
Defined.

(** ** An offer that is not recorded *)

Lemma net_bind_lift {A B : Type} (r : result A) (f : A -> Outage.Net World B)
    (a : A) (s : World * list bool) :
  r = Ok a -> (Outage.answered (lift r) ≫= f) s = f a s.
Proof.
  intros ->. apply net_bind_run. destruct s as [w outcomes].
  now apply net_answered_run.
Qed.

(** A save of an object that carries its own [phone]: the clock is read,
    and the object lands when the request is answered. *)
Lemma Outage_saveLeadToSupabase_own_key (clock : nat -> string) (phone : option jsval)
    (updates : gmap string jsval) (norm key : string) (w : World)
    (outcomes : list bool) :
  normalizePhone phone = Ok norm ->
  updates !! "phone" = Some (JStr key) ->
  Outage.saveLeadToSupabase clock phone updates (w, outcomes)
  = (Ok (hd true outcomes),
     ({| leads :=
           if hd true outcomes
           then <[key := <["updated_at" := JStr (clock (time w))]> updates
                         ∪ default ∅ (leads w !! key)]> (leads w)
           else leads w;
         time := S (time w) |},
      tl outcomes)).
Proof.
  intros Hn Hk. unfold Outage.saveLeadToSupabase.
  erewrite net_bind_lift; [| exact Hn].
  erewrite net_bind_run; [| apply net_answered_run; reflexivity].
  erewrite net_bind_run; [| apply net_request_run].
  destruct (hd true outcomes); [| reflexivity].
  apply net_answered_run. unfold upsertLead. cbn [leads time].
  rewrite (union_singleton_absorb _ _ _ _ Hk).
  rewrite lookup_insert_ne by done. rewrite Hk. reflexivity.
Qed.

(** The last answer of the interview, when the first save is answered and
    the second is not. *)
Lemma Outage_getNextStep_offer_lost (clock : nat -> string) (lead : gmap string jsval)
    (userResponse p tier : string) (w : World) (outcomes : list bool) :
  js_or (lead !! "current_question_index") (JNum 0) = JNum 6 ->
  truthy (lead !! "meeting_scheduled") = false ->
  lead !! "phone" = Some (JStr p) ->
  calculateLeadScore (<["motivation" := JStr (storedAnswer userResponse)]> lead) = Ok tier ->
  Outage.getNextStep clock lead (JStr userResponse) (w, true :: false :: outcomes)
  = (Ok {| type := "scheduling"; message := schedulingOffer tier |},
     ({| leads :=
           <[p := <["updated_at" := JStr (clock (time w))]>
                    (<["lead_score" := JStr tier]>
                       (<["qualification_complete" := JBool true]>
                          (<["current_question_index" := JNum 7]>
                             (<["motivation" := JStr (storedAnswer userResponse)]> lead))))
                  ∪ default ∅ (leads w !! p)]> (leads w);
         time := S (S (time w)) |},
      outcomes)).
Proof.
  intros Hidx Hms Hp Hscore.
  unfold Outage.getNextStep. rewrite Hms, Hidx.
  erewrite net_bind_lift; [| reflexivity].
  change (6 <? scriptLength) with true. cbv iota.
  erewrite net_bind_lift; [| apply (updateLeadField_interview lead 6); reflexivity].
  erewrite net_bind_lift; [| reflexivity].
  change (6 + 1) with 7. change scriptLength with 7.
  rewrite bool_decide_eq_true_2 by reflexivity.
  cbn [field].
  erewrite net_bind_run; cycle 1.
  { erewrite net_bind_lift; [reflexivity |].
    rewrite <- Hscore. apply calculateLeadScore_ext. intros name Hin.
    simpl in Hin.
    repeat (destruct Hin as [<-|Hin]; [now rewrite !lookup_insert_ne by done |]).
    destruct Hin. }
  erewrite net_bind_run; cycle 1.
  { rewrite Hp. apply Outage_saveLeadToSupabase_own_key with (norm := replaceNonDigits p).
    - apply normalizePhone_text.
    - rewrite !lookup_insert_ne by done. exact Hp. }
  cbn [hd tl].
  erewrite net_bind_lift; [| reflexivity].
  change (7 <? 7) with false. cbv iota.
  erewrite net_bind_run; cycle 1.
  { rewrite Hp. apply Outage_saveLeadToSupabase_partial with (norm := replaceNonDigits p).
    - apply normalizePhone_text.
    - reflexivity. }
  cbn [hd tl leads time].
  rewrite lookup_insert_eq. reflexivity.
Qed.

(** Past the script, with no offer recorded and no meeting settled, the
    reply is the fallback and nothing is written. *)
Lemma getNextStep_fallback (clock : nat -> string) (lead : gmap string jsval)
    (n : Z) (userResponse : jsval) (w : World) :
  js_or (lead !! "current_question_index") (JNum 0) = JNum n ->
  scriptLength <= n ->
  truthy (lead !! "asked_for_meeting") = false ->
  truthy (lead !! "meeting_scheduled") = false ->
  getNextStep clock lead userResponse w
  = (Ok {| type := "fallback"; message := fallbackReply |}, w).
Proof.
  intros Hidx Hn Hasked Hms. unfold getNextStep. rewrite Hms, Hidx, Hasked.
  erewrite bind_lift; [| unfold js_lt; cbn [toNumber mbind result_bind]; reflexivity].
  destruct (Z.ltb_spec n scriptLength) as [|_]; [lia |]. reflexivity.
Qed.

Lemma handleAll_stalled (clock : nat -> string) (from key : string)
    (row : gmap string jsval) (n : Z) (bodies : list string) (w : World) :
  normalizePhone (Some (JStr from)) = Ok key ->
  leads w !! key = Some row ->
  row !! "current_question_index" = Some (JNum n) ->
  scriptLength <= n ->
  truthy (row !! "asked_for_meeting") = false ->
  truthy (row !! "meeting_scheduled") = false ->
  handleAll clock (map (fun body => (from, body)) bodies) w
  = (Ok (map (fun _ => fallbackReply) bodies), w).
Proof.
  intros Hkey Hrow Hidx Hn Hasked Hms.
  rewrite normalizePhone_text in Hkey. injection Hkey as <-.
  induction bodies as [|body bodies IH]; [reflexivity |].
  cbn [map handleAll].
  erewrite bind_run; cycle 1.
  { unfold handleConversation.
    erewrite bind_run; [| apply getCurrentLeadState_found; exact Hrow].
    erewrite bind_run; cycle 1.
    { apply (getNextStep_fallback clock row n); try assumption.
      rewrite Hidx. cbn. unfold scriptLength in Hn. simpl in Hn.
      destruct (Z.eqb_spec n 0); [lia | reflexivity]. }
    reflexivity. }
  erewrite bind_run; [| exact IH]. reflexivity.
Qed.

(** X24: when the last answer of the interview is saved and the save of
    [asked_for_meeting] that follows is not answered, the lead is offered a
    meeting, but the stored row has the interview complete and no offer
    recorded; every later message of the lead, its answer to the offer
    included, gets the fallback reply and changes nothing. *)
Theorem lost_offer_stalls (clock : nat -> string) (from key body tier : string)
    (row : gmap string jsval) (bodies : list string) (w : World)
    (outcomes : list bool) :
  normalizePhone (Some (JStr from)) = Ok key ->
  leads w !! key = Some row ->
  row !! "phone" = Some (JStr key) ->
  row !! "current_question_index" = Some (JNum 6) ->
  truthy (row !! "meeting_scheduled") = false ->
  truthy (row !! "asked_for_meeting") = false ->
  calculateLeadScore (<["motivation" := JStr (storedAnswer body)]> row) = Ok tier ->
  allAnswered outcomes ->
  exists (row' : gmap string jsval) (w' : World) (outcomes' : list bool),
    Outage.handleAll clock ((from, body) :: map (fun later => (from, later)) bodies)
      (w, true :: true :: false :: outcomes)
    = (Ok (schedulingOffer tier :: map (fun _ => fallbackReply) bodies), (w', outcomes'))
    /\ leads w' !! key = Some row'
    /\ row' !! "current_question_index" = Some (JNum 7)
    /\ row' !! "qualification_complete" = Some (JBool true)
    /\ row' !! "lead_score" = Some (JStr tier)
    /\ truthy (row' !! "asked_for_meeting") = false
    /\ truthy (row' !! "meeting_scheduled") = false.
Proof.
  intros Hkey Hrow Hp Hidx Hms Hasked Hscore Hanswered.
  pose proof Hkey as Hkey'. rewrite normalizePhone_text in Hkey'. injection Hkey' as Hdigits.
  set (saved :=
    <["updated_at" := JStr (clock (time w))]>
      (<["lead_score" := JStr tier]>
         (<["qualification_complete" := JBool true]>
            (<["current_question_index" := JNum 7]>
               (<["motivation" := JStr (storedAnswer body)]> row))))).
  set (row' := saved ∪ row).
  set (w' := {| leads := <[key := row']> (leads w); time := S (S (time w)) |}).
  assert (Hkeep : forall column,
             column <> "updated_at" -> column <> "lead_score" ->
             column <> "qualification_complete" -> column <> "current_question_index" ->
             column <> "motivation" ->
             row' !! column = row !! column).
  { intros column H1 H2 H3 H4 H5. unfold row', saved.
    destruct (row !! column) as [v|] eqn:Hv.
    - apply lookup_union_Some_l. now rewrite !lookup_insert_ne by done.
    - rewrite lookup_union_r; [exact Hv |]. now rewrite !lookup_insert_ne by done. }
  assert (Hfirst :
    Outage.handleConversation clock (Some (JStr from)) (JStr body)
      (w, true :: true :: false :: outcomes)
    = (Ok (schedulingOffer tier), (w', outcomes))).
  { unfold Outage.handleConversation, Outage.getCurrentLeadState.
    erewrite net_bind_run; cycle 1.
    { erewrite net_bind_lift; [| exact Hkey].
      erewrite net_bind_run; [| apply net_request_run].
      cbn [hd tl].
      erewrite net_bind_run; [| apply net_answered_run; reflexivity].
      cbn [leads]. rewrite Hrow. reflexivity. }
    erewrite net_bind_run; cycle 1.
    { apply (Outage_getNextStep_offer_lost clock row body key tier w outcomes);
        try assumption.
      now rewrite Hidx. }
    rewrite Hrow. reflexivity. }
  assert (Hlater :
    handleAll clock (map (fun later => (from, later)) bodies) w'
    = (Ok (map (fun _ => fallbackReply) bodies), w')).
  { apply (handleAll_stalled clock from key row' 7); try assumption.
    - unfold w'. cbn [leads]. apply lookup_insert_eq.
    - apply lookup_union_Some_l. unfold saved.
      rewrite !lookup_insert_ne by done. apply lookup_insert_eq.
    - reflexivity.
    - now rewrite Hkeep by done.
    - now rewrite Hkeep by done. }
  destruct (answers_run _ _ _ _ _ outcomes (handleAll_answers clock _) Hanswered Hlater)
    as (outcomes' & _ & Hlater').
  exists row', w', outcomes'. split.
  { cbn [Outage.handleAll].
    erewrite net_bind_run; [| exact Hfirst].
    erewrite net_bind_run; [| exact Hlater']. reflexivity. }
  split; [unfold w'; cbn [leads]; apply lookup_insert_eq |].
  split.
  { apply lookup_union_Some_l. unfold saved.
    rewrite !lookup_insert_ne by done. apply lookup_insert_eq. }
  split.
  { apply lookup_union_Some_l. unfold saved.
    rewrite !lookup_insert_ne by done. apply lookup_insert_eq. }
  split.
  { apply lookup_union_Some_l. unfold saved.
    rewrite !lookup_insert_ne by done. apply lookup_insert_eq. }
  split; now rewrite Hkeep by done.
Qed.

Lemma lost_offer_stalls_witness :
  exists (row' : gmap string jsval) (w' : World) (outcomes' : list bool),
    Outage.handleAll sampleClock
      (("whatsapp:+15551234567", "new job")
       :: map (fun later => ("whatsapp:+15551234567", later)) ["yes please"; "hello?"])
      ({| leads := {["15551234567" := answeredLead]}; time := 9 |},
       [true; true; false; true])
    = (Ok (schedulingOffer "hot" :: map (fun _ => fallbackReply) ["yes please"; "hello?"]),
       (w', outcomes'))
    /\ leads w' !! "15551234567" = Some row'
    /\ row' !! "current_question_index" = Some (JNum 7)
    /\ row' !! "qualification_complete" = Some (JBool true)
    /\ row' !! "lead_score" = Some (JStr "hot")
    /\ truthy (row' !! "asked_for_meeting") = false
    /\ truthy (row' !! "meeting_scheduled") = false.
Proof.
  apply (lost_offer_stalls sampleClock "whatsapp:+15551234567" "15551234567" "new job" "hot"
           answeredLead ["yes please"; "hello?"]
           {| leads := {["15551234567" := answeredLead]}; time := 9 |} [true]);
    [reflexivity | reflexivity | reflexivity | reflexivity | reflexivity | reflexivity
    | reflexivity | repeat constructor].
Defined.

(** ** Manual creation *)

Lemma Outage_onWorld_run {A : Type} (m : Outage.Net World A) (r : result A)
    (w' : World) (s : Server) (outcomes outcomes' : list bool) :
  m (world s, outcomes) = (r, (w', outcomes')) ->
  Outage.onWorld m (s, outcomes)
  = (r, ({| world := w'; messages := messages s; outbox := outbox s |}, outcomes')).
Proof. intros H. unfold Outage.onWorld. cbn [fst snd]. now rewrite H. Qed.

(** X12: [POST /lead] without a name or without a phone answers 400 and
    does nothing.  With a name and a phone text, what it does depends on
    whether the save of the lead is answered.  If it is, the route answers
    200, the name and the source (the text "manual" when none is given) are
    in the row of the normalized phone with every other column that row
    had, and the first question is logged as the bot's message when that
    request is answered too.  If it is not, the route answers 500 with
    "Failed to save lead to database", and no row and no message is
    written.  In both cases nothing is sent to the messenger and no other
    row changes. *)
Theorem postLead_effects (clock : nat -> string) (errorText : string)
    (name phone source : option jsval) (s : Server) (outcomes : list bool) :
  (truthy name = false \/ truthy phone = false ->
   Outage.postLead clock errorText name phone source (s, outcomes)
   = (Ok {| status := 400;
            sent := Json [("error", JVal (JStr "Name and phone are required fields"))] |},
      (s, outcomes)))
  /\ (forall (n : jsval) (p : string),
        name = Some n -> truthy name = true -> phone = Some (JStr p) -> p <> "" ->
        exists (response : Response) (s' : Server) (outcomes' : list bool),
          Outage.postLead clock errorText name phone source (s, outcomes)
          = (Ok response, (s', outcomes'))
          /\ outbox s' = outbox s
          /\ (forall key, key <> digitsOf p ->
                leads (world s') !! key = leads (world s) !! key)
          /\ (hd true outcomes = false ->
                response
                = {| status := 500;
                     sent := Json [("error", JVal (JStr "Failed to save lead to database"))] |}
                /\ leads (world s') = leads (world s)
                /\ messages s' = messages s)
          /\ (hd true outcomes = true ->
                status response = 200
                /\ (exists row : gmap string jsval,
                      leads (world s') !! digitsOf p = Some row
                      /\ row !! "name" = Some n
                      /\ row !! "source" = Some (js_or source (JStr "manual"))
                      /\ row !! "phone" = Some (JStr (digitsOf p))
                      /\ (forall column,
                            column <> "name" -> column <> "source" -> column <> "phone" ->
                            column <> "updated_at" ->
                            row !! column
                            = default ∅ (leads (world s) !! digitsOf p) !! column))
                /\ messages s'
                   = (messages s
                      ++ (if hd true (tl outcomes)
                          then [{| Msg.lead_phone := digitsOf p; Msg.sender := "ai";
                                   Msg.message := "What area or city are you looking in?" |}]
                          else []))%list)).
Proof.
  split.
  - intros H. unfold Outage.postLead, Outage.tryCatch.
    assert (Hor : negb (truthy name) || negb (truthy phone) = true).
    { destruct H as [-> | ->]; [reflexivity | apply orb_true_r]. }
    now rewrite Hor.
  - intros n p -> Hname -> Hp. rewrite <- replaceNonDigits_digitsOf.
    assert (Hphone : truthy (Some (JStr p)) = true) by now destruct p.
    unfold Outage.postLead, Outage.tryCatch. rewrite Hname, Hphone. cbn [negb orb].
    erewrite net_bind_run; [| apply net_answered_run; reflexivity].
    erewrite net_bind_run; cycle 1.
    { apply Outage_onWorld_run. apply Outage_saveLeadToSupabase_partial.
      - apply normalizePhone_text.
      - reflexivity. }
    destruct (hd true outcomes) eqn:Hsaved; cbn [negb].
    + erewrite net_bind_run; [| apply net_answered_run; reflexivity].
      erewrite net_bind_run;
        [| apply Outage_saveMessageToSupabase_run, normalizePhone_text].
      erewrite net_bind_run; [| apply net_answered_run; reflexivity].
      eexists _, _, _. split; [reflexivity |].
      cbn [status world leads messages outbox].
      split; [reflexivity |].
      split; [intros key Hkey; now rewrite lookup_insert_ne |].
      split; [discriminate |]. intros _.
      split; [reflexivity |].
      split; [| reflexivity].
      eexists. split; [apply lookup_insert_eq |].
      split; [apply lookup_union_Some_l; now rewrite lookup_insert_ne by done |].
      split.
      { apply lookup_union_Some_l. rewrite lookup_insert_ne by done.
        apply lookup_union_Some_l. now rewrite lookup_insert_ne by done. }
      split.
      { apply lookup_union_Some_l. rewrite lookup_insert_ne by done.
        rewrite lookup_union_r by done. apply lookup_singleton_eq. }
      intros column H1 H2 H3 H4. rewrite lookup_union_r; [reflexivity |].
      rewrite lookup_insert_ne by done. rewrite lookup_union_r.
      * apply lookup_singleton_ne. congruence.
      * now rewrite !lookup_insert_ne by done.
    + eexists _, _, _. split; [reflexivity |].
      cbn [status world leads messages outbox].
      split; [reflexivity |].
      split; [reflexivity |].
      split; [| discriminate].
      intros _. repeat split.
Qed.

Lemma postLead_effects_witness :
  exists (response : Response) (s' : Server) (outcomes' : list bool),
    Outage.postLead sampleClock "not a function" (Some (JStr "Ann"))
      (Some (JStr "+1 555 1234567")) None
      ({| world := emptyWorld; messages := []; outbox := [] |}, [false])
    = (Ok response, (s', outcomes'))
    /\ response
       = {| status := 500;
            sent := Json [("error", JVal (JStr "Failed to save lead to database"))] |}
    /\ leads (world s') = ∅
    /\ messages s' = [].
Proof.
  destruct (proj2 (postLead_effects sampleClock "not a function" (Some (JStr "Ann"))
                     (Some (JStr "+1 555 1234567")) None
                     {| world := emptyWorld; messages := []; outbox := [] |} [false])
              (JStr "Ann") "+1 555 1234567" eq_refl eq_refl eq_refl ltac:(discriminate))
    as (response & s' & outcomes' & Hrun & _ & _ & Hfail & _).
  exists response, s', outcomes'. split; [exact Hrun |].
  exact (Hfail eq_refl).
Defined.

(** * The other programs of the repository *)

(** ** Trimming and letter case *)

Lemma isWhiteSpace_lowerChar (c : ascii) : isWhiteSpace (lowerChar c) = isWhiteSpace c.
Proof. destruct c as [[] [] [] [] [] [] [] []]; reflexivity. Qed.

Lemma trimStart_toLowerCase (s : string) :
  trimStart (toLowerCase s) = toLowerCase (trimStart s).
Proof.
  induction s as [|c s IH]; [reflexivity |].
  cbn [toLowerCase trimStart]. rewrite isWhiteSpace_lowerChar.
  now destruct (isWhiteSpace c).
Qed.

Lemma trimEnd_toLowerCase (s : string) :
  trimEnd (toLowerCase s) = toLowerCase (trimEnd s).
Proof.
  induction s as [|c s IH]; [reflexivity |].
  cbn [toLowerCase trimEnd]. rewrite IH, isWhiteSpace_lowerChar.
  destruct (trimEnd s); [now destruct (isWhiteSpace c) | reflexivity].
Qed.

Lemma trim_toLowerCase (s : string) : trim (toLowerCase s) = toLowerCase (trim s).
Proof. unfold trim. now rewrite trimStart_toLowerCase, trimEnd_toLowerCase. Qed.

Lemma trimStart_suffix (s : string) : exists a, s = a ++ trimStart s.
Proof.
  induction s as [|c s [a IH]]; [now exists "" |].
  cbn [trimStart]. destruct (isWhiteSpace c); [| now exists ""].
  exists (String c a). change (String c s = String c (a ++ trimStart s)). now f_equal.
Qed.

Lemma trimEnd_prefix (s : string) : exists b, s = trimEnd s ++ b.
Proof.
  induction s as [|c s [b IH]]; [now exists "" |].
  cbn [trimEnd]. destruct (trimEnd s) as [|d t] eqn:Ht.
  - destruct (isWhiteSpace c).
    + now exists (String c s).
    + exists s. reflexivity.
  - exists b. change (String c s = String c (String d t ++ b)). now f_equal.
Qed.

Lemma includes_of_trim (s p : string) :
  includes (trim s) p = true -> includes s p = true.
Proof.
  intros H. apply includes_app in H as (before & after & H).
  destruct (trimStart_suffix s) as [a Ha]. destruct (trimEnd_prefix (trimStart s)) as [b Hb].
  apply includes_app. exists (a ++ before), (after ++ b).
  rewrite Ha, Hb. fold (trim s). rewrite H.
  now rewrite !append_assoc.
Qed.

(** For a word without outer white space, trimming the text does not change
    whether the word occurs in it. *)
Lemma includes_trim_iff (s p : string) :
  p <> "" -> trimStart p = p -> trimEnd p = p ->
  includes (trim s) p = includes s p.
Proof.
  intros Hp Hs He. destruct (includes s p) eqn:H.
  - now apply includes_trim.
  - destruct (includes (trim s) p) eqn:H'; [| reflexivity].
    apply includes_of_trim in H'. congruence.
Qed.

(** ** Counting known fields *)

Lemma filter_length_le_pointwise {A : Type} (P Q : A -> bool) (l : list A) :
  (forall x, In x l -> P x = true -> Q x = true) ->
  (length (List.filter P l) <= length (List.filter Q l))%nat.
Proof.
  induction l as [|x l IH]; intros H; [reflexivity |].
  cbn [List.filter]. specialize (IH (fun y Hy => H y (or_intror Hy))).
  pose proof (H x (or_introl eq_refl)) as Hx.
  destruct (P x), (Q x); simpl; first [lia | now specialize (Hx eq_refl)].
Qed.

Lemma isKnown_isFilled (v : option jsval) :
  Freeform.isKnown v = true -> isFilled v = true.
Proof.
  destruct v as [[| | |s]|]; try discriminate. cbn [Freeform.isKnown isFilled truthy toString].
  intros H. apply andb_true_iff in H as [Ht Hu]. rewrite Ht, Hu.
  destruct s; [discriminate Ht | reflexivity].
Qed.

Lemma isFilled_isKnown (v : option jsval) :
  holdsText v = true -> isFilled v = Freeform.isKnown v.
Proof.
  destruct v as [[| | |s]|]; try discriminate; intros _; try reflexivity.
  cbn [Freeform.isKnown isFilled truthy toString].
  destruct s; [reflexivity |]. cbn [String.eqb negb andb].
  apply andb_comm.
Qed.

(** X15: [countKnownFields] of the free-form program never counts more
    than [filledCount] of the scripted one, and the two agree on every state
    whose seven fields hold text or nothing; they differ only on numbers and
    booleans, which [filledCount] counts and [countKnownFields] does not. *)
Theorem countKnownFields_filledCount (state : gmap string jsval) :
  (Freeform.countKnownFields state <= filledCount state)%nat
  /\ ((forall name, In name fields -> holdsText (state !! name) = true) ->
      Freeform.countKnownFields state = filledCount state)
  /\ Freeform.countKnownFields (<["bedrooms" := JNum 3]> ∅) = 0%nat
  /\ filledCount (<["bedrooms" := JNum 3]> ∅) = 1%nat.
Proof.
  split; [| split; [| split; reflexivity]].
  - apply filter_length_le_pointwise. intros name _. apply isKnown_isFilled.
  - intros H. unfold Freeform.countKnownFields, filledCount. f_equal.
    apply List.filter_ext_in. intros name Hin. symmetry. now apply isFilled_isKnown, H.
Qed.

(** ** What an upsert from an extracted state keeps *)




(** ** Reading the score *)

(** X17: [scoreLeadFromState] reads the reply of the completion service
    without regard to case or outer white space: the lead is hot exactly
    when the reply mentions "hot", cold exactly when it mentions "cold" and
    neither "hot" nor "warm", and warm in every other case; a reply that is
    not a text raises a TypeError.  The counted fields and the lead state
    enter the prompt only. *)
Theorem scoreLeadFromState_reading (stringify : gmap string jsval -> string)
    (complete : string -> string -> option jsval) (state : gmap string jsval) :
  let score := Freeform.scoreLeadFromState stringify complete state in
  match complete Freeform.systemPrompt
          (Freeform.userPrompt (Freeform.countKnownFields state) (stringify state)) with
  | Some (JStr reply) =>
      (score = Ok "hot" <-> containsIgnoringCase reply "hot")
      /\ (score = Ok "cold"
          <-> containsIgnoringCase reply "cold"
              /\ ~ containsIgnoringCase reply "hot"
              /\ ~ containsIgnoringCase reply "warm")
      /\ (score <> Ok "hot" -> score <> Ok "cold" -> score = Ok "warm")
  | _ => score = TypeError
  end.
Proof.
  intros score. subst score. unfold Freeform.scoreLeadFromState.
  destruct (complete _ _) as [[| | |reply]|]; try reflexivity.
  cbn [asString mbind result_bind].
  rewrite <- trim_toLowerCase.
  rewrite !includes_trim_iff by (discriminate || reflexivity).
  rewrite <- !(includes_toLowerCase reply).
  change (toLowerCase "hot") with "hot". change (toLowerCase "warm") with "warm".
  change (toLowerCase "cold") with "cold".
  destruct (includes (toLowerCase reply) "hot"),
           (includes (toLowerCase reply) "warm"),
           (includes (toLowerCase reply) "cold");
    repeat apply conj; try tauto; try congruence;
    intros; try discriminate; try (intuition congruence).
Qed.

(** ** The summary *)

Lemma isKnown_mentions (v : option jsval) :
  Freeform.isKnown v = true -> Freeform.mentions v = true.
Proof.
  destruct v as [[| | |s]|]; try discriminate.
  unfold Freeform.isKnown, Freeform.mentions. intros H.
  apply andb_true_iff in H as [Hs Hu]. apply andb_true_iff. split.
  - destruct s; [discriminate Hs | reflexivity].
  - apply bool_decide_eq_true in Hu. apply bool_decide_eq_true. congruence.
Qed.

Lemma pushPart_In_keep (before after p : string) (v : option jsval)
    (parts : list string) :
  In p parts -> In p (Freeform.pushPart before v after parts).
Proof.
  intros H. unfold Freeform.pushPart. destruct (Freeform.mentions v); [| exact H].
  apply in_or_app. now left.
Qed.

Lemma pushPart_In_new (before after : string) (v : option jsval)
    (parts : list string) :
  Freeform.mentions v = true ->
  In (before ++ interpolate v ++ after) (Freeform.pushPart before v after parts).
Proof.
  intros H. unfold Freeform.pushPart. rewrite H. apply in_or_app. right. now left.
Qed.

Lemma generateLeadSummary_parts (state : gmap string jsval) :
  exists parts : list string,
    Freeform.generateLeadSummary state
    = (if (length parts =? 0)%nat
       then "We're still learning about what you're looking for."
       else "Based on what you've shared, you're " ++ String.concat ", " parts ++ ".")
    /\ (forall k, In k Freeform.keys -> Freeform.mentions (state !! k) = true ->
          exists b a, In (b ++ interpolate (state !! k) ++ a) parts)
    /\ ((forall k, In k Freeform.keys -> Freeform.mentions (state !! k) = false) ->
        parts = []).
Proof.
  eexists. split; [reflexivity |]. split.
  - intros k Hk Hm. simpl in Hk.
    repeat (destruct Hk as [<-|Hk];
            [eexists _, _;
             repeat first [apply pushPart_In_new; exact Hm | apply pushPart_In_keep] |]).
    destruct Hk.
  - intros Hnone. unfold Freeform.pushPart.
    rewrite !Hnone by (simpl; tauto). reflexivity.
Qed.

Lemma generateLeadSummary_shape (state : gmap string jsval) :
  ((forall k, In k Freeform.keys -> Freeform.mentions (state !! k) = false)
   /\ Freeform.generateLeadSummary state
      = "We're still learning about what you're looking for.")
  \/ ((exists k, In k Freeform.keys /\ Freeform.mentions (state !! k) = true)
      /\ exists rest,
           Freeform.generateLeadSummary state
           = "Based on what you've shared, you're " ++ rest).
Proof.
  destruct (generateLeadSummary_parts state) as (parts & -> & Hin & Hnil).
  destruct (forallb (fun k => negb (Freeform.mentions (state !! k))) Freeform.keys)
    eqn:Hall.
  - left. assert (forall k, In k Freeform.keys -> Freeform.mentions (state !! k) = false)
      as Hnone.
    { intros k Hk. rewrite forallb_forall in Hall. specialize (Hall k Hk).
      now destruct (Freeform.mentions (state !! k)). }
    split; [exact Hnone |]. now rewrite (Hnil Hnone).
  - right. assert (exists k, In k Freeform.keys /\ Freeform.mentions (state !! k) = true)
      as (k & Hk & Hm).
    { destruct (existsb (fun k => Freeform.mentions (state !! k)) Freeform.keys) eqn:Hex.
      - apply existsb_exists in Hex. exact Hex.
      - exfalso. rewrite <- Hall in Hex. revert Hex. clear.
        induction Freeform.keys as [|k l IH]; [discriminate |].
        cbn [existsb forallb].
        destruct (Freeform.mentions (state !! k)); cbn [negb orb andb];
          [discriminate | exact IH]. }
    split; [now exists k |].
    destruct (Hin k Hk Hm) as (b & a & Hp).
    destruct parts as [|x parts]; [destruct Hp |].
    eexists. reflexivity.
Qed.

(** X18: the summary is the fixed sentence exactly when no field of the
    state is mentioned (set and not "unknown"); a state with a field that
    [countKnownFields] counts never gets the fixed sentence. *)
Theorem generateLeadSummary_fallback (state : gmap string jsval) :
  (Freeform.generateLeadSummary state
   = "We're still learning about what you're looking for."
   <-> forall k, In k Freeform.keys -> Freeform.mentions (state !! k) = false)
  /\ (Freeform.generateLeadSummary state
      = "We're still learning about what you're looking for."
      -> Freeform.countKnownFields state = 0%nat).
Proof.
  assert (Freeform.generateLeadSummary state
          = "We're still learning about what you're looking for."
          <-> forall k, In k Freeform.keys -> Freeform.mentions (state !! k) = false)
    as Hiff.
  { destruct (generateLeadSummary_shape state) as [[Hnone Hs] | [(k & Hk & Hm) [rest Hs]]].
    - tauto.
    - split.
      + rewrite Hs. discriminate.
      + intros Hnone. rewrite (Hnone k Hk) in Hm. discriminate. }
  split; [exact Hiff |].
  intros Hs. pose proof (proj1 Hiff Hs) as Hnone. clear Hs.
  unfold Freeform.countKnownFields.
  rewrite (List.filter_ext_in _ (fun _ => false)).
  - generalize Freeform.keys. intros l. now induction l.
  - intros k Hk. pose proof (Hnone k Hk) as Hs.
    destruct (Freeform.isKnown (state !! k)) eqn:Hknown; [| reflexivity].
    apply isKnown_mentions in Hknown. congruence.
Qed.

Lemma includes_mid (a s b p : string) :
  includes s p = true -> includes (a ++ s ++ b) p = true.
Proof.
  intros H. apply includes_app in H as (before & after & ->).
  apply includes_app. exists (a ++ before), (after ++ b).
  now rewrite !append_assoc.
Qed.

Lemma concat_In (sep p : string) (parts : list string) :
  In p parts -> exists pre post, String.concat sep parts = pre ++ p ++ post.
Proof.
  induction parts as [|x parts IH]; [intros [] |].
  intros [-> | Hin].
  - destruct parts as [|y parts].
    + exists "", "". cbn [String.concat]. change ("" ++ p ++ "") with (p ++ "").
      clear. induction p as [|c p IH]; [reflexivity |].
      change (String c p = String c (p ++ "")). now f_equal.
    + exists "", (sep ++ String.concat sep (y :: parts)). reflexivity.
  - destruct (IH Hin) as (pre & post & Heq).
    destruct parts as [|y parts]; [destruct Hin |].
    exists (x ++ sep ++ pre), post.
    change (String.concat sep (x :: y :: parts))
      with (x ++ sep ++ String.concat sep (y :: parts)).
    rewrite Heq. now rewrite !append_assoc.
Qed.

(** X19: the text of every mentioned field occurs in the summary. *)
Theorem generateLeadSummary_mentions (state : gmap string jsval) (k : string) :
  In k Freeform.keys ->
  Freeform.mentions (state !! k) = true ->
  includes (Freeform.generateLeadSummary state) (interpolate (state !! k)) = true.
Proof.
  intros Hk Hm.
  destruct (generateLeadSummary_parts state) as (parts & -> & Hin & _).
  destruct (Hin k Hk Hm) as (b & a & Hp).
  destruct parts as [|x parts]; [destruct Hp |].
  cbn [length Nat.eqb].
  destruct (concat_In ", " _ _ Hp) as (pre & post & ->).
  apply includes_app.
  exists ("Based on what you've shared, you're " ++ pre ++ b), (a ++ post ++ ".").
  now rewrite !append_assoc.
Qed.

Lemma generateLeadSummary_mentions_witness :
  includes (Freeform.generateLeadSummary
              (<["bedrooms" := JNum 3]> (<["location" := JStr "Tempe"]> ∅)))
           (interpolate ((<["bedrooms" := JNum 3]> (<["location" := JStr "Tempe"]> ∅
                            : gmap string jsval)) !! "bedrooms")) = true.
Proof.
  apply (generateLeadSummary_mentions _ "bedrooms"); [simpl; tauto | reflexivity].
Defined.

(** ** Asking for a call *)

Lemma includes_lower_mid (a m b w : string) :
  includes (toLowerCase m) w = true ->
  includes (toLowerCase (a ++ m ++ b)) w = true.
Proof. intros H. rewrite !toLowerCase_app. now apply includes_mid. Qed.

Lemma existsb_includes_mid (a m b : string) (words : list string) :
  existsb (fun w => includes (toLowerCase m) w) words = true ->
  existsb (fun w => includes (toLowerCase (a ++ m ++ b)) w) words = true.
Proof.
  rewrite !existsb_exists. intros (w & Hw & H).
  exists w. split; [exact Hw | now apply includes_lower_mid].
Qed.

Lemma append_truthy (a m b : string) :
  truthy (Some (JStr m)) = true -> truthy (Some (JStr (a ++ m ++ b))) = true.
Proof.
  destruct m as [|c m]; [discriminate |]. intros _.
  destruct a; reflexivity.
Qed.

(** X20: [messageIndicatesWantsCall] looks for words anywhere in the
    message: a message it accepts is still accepted with any text put
    before and after it. *)
Theorem messageIndicatesWantsCall_surrounded (before msg after : string) :
  Freeform.messageIndicatesWantsCall (Some (JStr msg)) = Ok true ->
  Freeform.messageIndicatesWantsCall (Some (JStr (before ++ msg ++ after))) = Ok true.
Proof.
  unfold Freeform.messageIndicatesWantsCall.
  destruct (truthy (Some (JStr msg))) eqn:Ht; [| discriminate].
  rewrite (append_truthy before msg after Ht).
  cbn [negb asString mbind result_bind].
  assert (forall w, includes (toLowerCase msg) w = true ->
                    includes (toLowerCase (before ++ msg ++ after)) w = true) as Hw
    by (intros w; apply includes_lower_mid).
  pose proof (existsb_includes_mid before msg after Freeform.yesWords) as Hyes.
  pose proof (existsb_includes_mid before msg after Freeform.callWords) as Hcall.
  generalize dependent (toLowerCase (before ++ msg ++ after)).
  generalize (toLowerCase msg). clear. intros text big Hw Hyes Hcall.
  destruct (existsb (fun w => includes text w) Freeform.yesWords) eqn:Ey;
    [rewrite (Hyes eq_refl) |];
    (destruct (existsb (fun w => includes text w) Freeform.callWords) eqn:Ec;
     [rewrite (Hcall eq_refl) |]);
    cbn [andb]; try reflexivity;
    rewrite ?andb_false_r;
    (destruct (_ || _) eqn:Hphrase in |- * at 1; [| discriminate]; intros _;
     match goal with |- (if ?c then _ else _) = _ => destruct c; [reflexivity |] end;
     rewrite !orb_true_iff in Hphrase;
     destruct Hphrase as [[[[[[H|H]|H]|H]|H]|H]|H]; apply Hw in H; rewrite H;
     rewrite ?orb_true_r; reflexivity).
Qed.

Lemma messageIndicatesWantsCall_surrounded_witness :
  Freeform.messageIndicatesWantsCall (Some (JStr ("please do not " ++ "call, ok" ++ "?")))
  = Ok true.
Proof.
  apply (messageIndicatesWantsCall_surrounded "please do not " "call, ok" "?").
  reflexivity.
Defined.

(** ** The earlier scripted program *)

Lemma positiveWords_earlier :
  positiveWords = (Earlier.positiveWords ++ ["please"; "ready"])%list.
Proof. reflexivity. Qed.

(** X21: the scheduling classifier of the current program accepts every
    message the earlier one accepts; the two differ exactly on the messages
    they add "please" and "ready" for. *)
Theorem isPositiveResponse_extends_earlier (message : option jsval) :
  match message with
  | Some (JStr text) =>
      exists earlier,
        Earlier.isPositiveResponse message = Ok earlier
        /\ isPositiveResponse message
           = Ok (earlier
                 || includes (toLowerCase text) "please"
                 || includes (toLowerCase text) "ready")
  | _ => Earlier.isPositiveResponse message = isPositiveResponse message
  end.
Proof.
  destruct message as [[| | |text]|]; try reflexivity.
  unfold Earlier.isPositiveResponse, isPositiveResponse.
  destruct (truthy (Some (JStr text))) eqn:Ht; cbn [negb].
  - cbn [asString mbind result_bind]. eexists. split; [reflexivity |].
    rewrite positiveWords_earlier, existsb_app. cbn [existsb].
    rewrite trim_toLowerCase, <- !(trim_toLowerCase text).
    rewrite !(includes_trim_iff (toLowerCase text) "please") by (discriminate || reflexivity).
    rewrite !(includes_trim_iff (toLowerCase text) "ready") by (discriminate || reflexivity).
    now rewrite orb_false_r, orb_assoc.
  - exists false. split; [reflexivity |].
    destruct text; [reflexivity | discriminate].
Qed.

Lemma Earlier_updateLeadField_interview (lead : gmap string jsval) (n : nat)
    (entry : Question) (userResponse : string) :
  nth_error QUALIFICATION_QUESTIONS n = Some entry ->
  Earlier.updateLeadField lead (JNum (Z.of_nat n)) (JStr userResponse)
  = Ok (<[field entry := JStr (if Earlier.saysUnknown userResponse
                               then "unknown" else userResponse)]> lead).
Proof.
  intros Hn. pose proof (nth_error_script _ _ Hn) as Hlt.
  unfold Earlier.updateLeadField, js_ge, elementAt, scriptLength in *.
  cbn [toNumber mbind result_bind asString].
  destruct (Z.leb_spec (Z.of_nat (length QUALIFICATION_QUESTIONS)) (Z.of_nat n)); [lia |].
  destruct (Z.leb_spec 0 (Z.of_nat n)); [| lia].
  rewrite Nat2Z.id, Hn.
  now destruct (Earlier.saysUnknown userResponse).
Qed.

Lemma saysUnknown_earlier (response : string) :
  saysUnknown (trim response)
  = Earlier.saysUnknown response || includes (toLowerCase response) "not certain".
Proof.
  unfold saysUnknown, Earlier.saysUnknown.
  rewrite <- trim_toLowerCase.
  now rewrite !includes_trim_iff by (discriminate || reflexivity).
Qed.

Lemma includes_self (s : string) : includes s s = true.
Proof.
  apply includes_app. exists "", "". change ("" ++ s ++ "") with (s ++ "").
  induction s as [|c s IH]; [reflexivity |].
  change (String c s = String c (s ++ "")). now f_equal.
Qed.

(** X22: at a question of the script, the earlier and the current
    [updateLeadField] store the same answer exactly when the earlier one
    reads the answer as unknown, or the answer has no outer white space and
    does not mention "not certain". *)
Theorem updateLeadField_agrees_with_earlier (lead : gmap string jsval) (n : nat)
    (entry : Question) (userResponse : string) :
  nth_error QUALIFICATION_QUESTIONS n = Some entry ->
  (Earlier.updateLeadField lead (JNum (Z.of_nat n)) (JStr userResponse)
   = updateLeadField lead (JNum (Z.of_nat n)) (JStr userResponse)
   <-> Earlier.saysUnknown userResponse = true
       \/ (trim userResponse = userResponse
           /\ includes (toLowerCase userResponse) "not certain" = false)).
Proof.
  intros Hn.
  rewrite (Earlier_updateLeadField_interview _ _ _ _ Hn),
          (updateLeadField_interview _ _ _ _ Hn).
  unfold storedAnswer. rewrite saysUnknown_earlier.
  assert (Earlier.saysUnknown userResponse = false -> userResponse <> "unknown") as Hne.
  { intros Hs ->. discriminate Hs. }
  destruct (Earlier.saysUnknown userResponse) eqn:He; cbn [orb].
  - split; [now left | reflexivity].
  - specialize (Hne eq_refl).
    destruct (includes (toLowerCase userResponse) "not certain") eqn:Hc.
    + split.
      * intros Heq. exfalso. apply Hne.
        assert (Some (JStr userResponse) = Some (JStr "unknown")) as [=]; [| assumption].
        rewrite <- (lookup_insert_eq lead (field entry) (JStr userResponse)).
        injection Heq as ->. now rewrite lookup_insert_eq.
      * intros [|[_ ?]]; discriminate.
    + split.
      * intros Heq. right. split; [| reflexivity].
        assert (Some (JStr userResponse) = Some (JStr (trim userResponse))) as [=];
          [| congruence].
        rewrite <- (lookup_insert_eq lead (field entry) (JStr userResponse)).
        injection Heq as ->. now rewrite lookup_insert_eq.
      * intros [|[-> _]]; [discriminate | reflexivity].
Qed.

Lemma updateLeadField_agrees_with_earlier_witness :
  Earlier.updateLeadField ∅ (JNum (Z.of_nat 3)) (JStr " I DON'T KNOW ")
  = updateLeadField ∅ (JNum (Z.of_nat 3)) (JStr " I DON'T KNOW ")
  <-> Earlier.saysUnknown " I DON'T KNOW " = true
      \/ (trim " I DON'T KNOW " = " I DON'T KNOW "
          /\ includes (toLowerCase " I DON'T KNOW ") "not certain" = false).
Proof.
  apply (updateLeadField_agrees_with_earlier ∅ 3 (Build_Question "budget" "What's your budget or price range?")).
  reflexivity.
Defined.
